(** * lgtm: the message-to-approval pipeline of the Slack-to-GitHub bot

    A shallow embedding of [matcher.go], of the approval part of
    [github.go], of the message handling part of [slack.go] and of the
    validation of [config.go], and the properties of the pipeline proved
    over it.

    Go strings are byte sequences: they are modelled by [string], whose
    characters are the 256 values of [ascii].  Go's [int] is the 64-bit
    integer of the linux build and is modelled by [Z] together with its
    range.  Calls to the outside world (GitHub, Slack, the clock, the
    context) are the constructors of a free monad [Prog]; an environment
    answers them and the run records them in a trace. *)

From Stdlib Require Import String Ascii List ZArith Lia Bool Arith.
Import ListNotations.

Open Scope string_scope.

(* ===================================================================== *)
(** ** Package [strings] *)
(* ===================================================================== *)

(** [strings.HasPrefix] *)
Fixpoint strings_HasPrefix (s p : string) : bool :=
  match p with
  | EmptyString => true
  | String a p' =>
      match s with
      | EmptyString => false
      | String b s' => Ascii.eqb a b && strings_HasPrefix s' p'
      end
  end.

(** [strings.Contains]: [substr] occurs somewhere in [s]. *)
Fixpoint strings_Contains (s substr : string) : bool :=
  strings_HasPrefix s substr ||
  match s with
  | EmptyString => false
  | String _ s' => strings_Contains s' substr
  end.

(** [s[len(p):]] when [p] is a prefix of [s]. *)
Fixpoint trimPrefix (p s : string) : option string :=
  match p with
  | EmptyString => Some s
  | String a p' =>
      match s with
      | EmptyString => None
      | String b s' => if Ascii.eqb a b then trimPrefix p' s' else None
      end
  end.

(** The longest prefix of [s] whose bytes satisfy [f], and what follows. *)
Fixpoint takeWhile (f : ascii -> bool) (s : string) : string :=
  match s with
  | EmptyString => EmptyString
  | String c s' => if f c then String c (takeWhile f s') else EmptyString
  end.

Fixpoint dropWhile (f : ascii -> bool) (s : string) : string :=
  match s with
  | EmptyString => EmptyString
  | String c s' => if f c then dropWhile f s' else s
  end.

(** [s[:n]] and [s[n:]]. *)
Fixpoint take (n : nat) (s : string) : string :=
  match n, s with
  | S n', String c s' => String c (take n' s')
  | _, _ => EmptyString
  end.

Fixpoint drop (n : nat) (s : string) : string :=
  match n, s with
  | S n', String _ s' => drop n' s'
  | _, _ => s
  end.

Definition forallb_string (f : ascii -> bool) (s : string) : bool :=
  String.eqb (takeWhile f s) s.

(** Byte classes. *)
Definition byte (c : ascii) : N := N_of_ascii c.

Definition isDigit (c : ascii) : bool :=
  ((48 <=? byte c) && (byte c <=? 57))%N.

Definition isUpper (c : ascii) : bool :=
  ((65 <=? byte c) && (byte c <=? 90))%N.

Definition isLower (c : ascii) : bool :=
  ((97 <=? byte c) && (byte c <=? 122))%N.

Definition isHex (c : ascii) : bool :=
  isDigit c
  || ((97 <=? byte c) && (byte c <=? 102))%N
  || ((65 <=? byte c) && (byte c <=? 70))%N.

(** ASCII lower-casing of one byte, and [strings.ToLower] on the ASCII
    letters (the only ones a URL scheme can hold). *)
Definition lowerByte (c : ascii) : ascii :=
  if isUpper c then ascii_of_N (byte c + 32) else c.

Fixpoint strings_ToLower (s : string) : string :=
  match s with
  | EmptyString => EmptyString
  | String c s' => String (lowerByte c) (strings_ToLower s')
  end.

(** [strings.EqualFold] on ASCII text: equality up to letter case. *)
Definition strings_EqualFold (s t : string) : bool :=
  String.eqb (strings_ToLower s) (strings_ToLower t).

(** [strings.Cut(s, sep)] for a one-byte separator: the text before the
    first [sep], the text after it, and whether [sep] was found. *)
Fixpoint strings_Cut (s : string) (sep : ascii) : string * string * bool :=
  match s with
  | EmptyString => (EmptyString, EmptyString, false)
  | String c s' =>
      if Ascii.eqb c sep then (EmptyString, s', true)
      else let '(before, after, found) := strings_Cut s' sep in
           (String c before, after, found)
  end.

(** [strings.Count(s, sep)] for a one-byte separator. *)
Fixpoint strings_Count (s : string) (sep : ascii) : nat :=
  match s with
  | EmptyString => 0
  | String c s' => (if Ascii.eqb c sep then 1 else 0) + strings_Count s' sep
  end.

(** The last byte of [s] is [c] ([strings.HasSuffix] with a one-byte
    suffix), and [s] without its last byte. *)
Fixpoint endsWith (s : string) (c : ascii) : bool :=
  match s with
  | EmptyString => false
  | String a EmptyString => Ascii.eqb a c
  | String _ s' => endsWith s' c
  end.

Fixpoint dropLast (s : string) : string :=
  match s with
  | EmptyString => EmptyString
  | String _ EmptyString => EmptyString
  | String a s' => String a (dropLast s')
  end.

(* ===================================================================== *)
(** ** Package [strconv] *)
(* ===================================================================== *)

(** Go's [int] on the 64-bit linux target of the Dockerfile. *)
Definition intSize : Z := 64.
Definition maxInt : Z := (2 ^ (intSize - 1) - 1)%Z.
Definition minInt : Z := (- 2 ^ (intSize - 1))%Z.

Definition digitVal (c : ascii) : Z := (Z.of_N (byte c) - 48)%Z.

(** The value of a run of decimal digits, most significant first. *)
Fixpoint digitsVal (acc : Z) (s : string) : Z :=
  match s with
  | EmptyString => acc
  | String c s' => digitsVal (acc * 10 + digitVal c)%Z s'
  end.

(** [strconv.Atoi]: an optional sign, then one or more decimal digits and
    nothing else; a value outside the range of [int] is an error
    ([None] stands for the returned error, syntax or range). *)
Definition strconv_Atoi (s : string) : option Z :=
  let '(neg, body) :=
    match s with
    | String "-" s' => (true, s')
    | String "+" s' => (false, s')
    | _ => (false, s)
    end in
  match body with
  | EmptyString => None
  | _ =>
      if forallb_string isDigit body then
        let n := (if neg then - digitsVal 0 body else digitsVal 0 body)%Z in
        if (minInt <=? n)%Z && (n <=? maxInt)%Z then Some n else None
      else None
  end.

(** The decimal digits of a natural number, as [%d] prints them. *)
Fixpoint digitsOf (fuel : nat) (n : N) (acc : string) : string :=
  match fuel with
  | O => acc
  | S fuel' =>
      let acc' := String (ascii_of_N (48 + n mod 10)%N) acc in
      if (n / 10 =? 0)%N then acc' else digitsOf fuel' (n / 10) acc'
  end.

(** [strconv.Itoa], which is also what [fmt]'s [%d] prints for an int. *)
Definition strconv_Itoa (n : Z) : string :=
  match n with
  | Z0 => "0"
  | Zpos p => digitsOf (S (N.to_nat (N.log2 (Npos p)))) (Npos p) EmptyString
  | Zneg p =>
      String "-"
        (digitsOf (S (N.to_nat (N.log2 (Npos p)))) (Npos p) EmptyString)
  end.

(* ===================================================================== *)
(** ** Package [regexp] *)
(* ===================================================================== *)

(** The fragment of Go's regular expressions the two patterns of
    [ExtractPRReferences] are written in.  Every literal and every class
    boundary of these patterns is an ASCII byte, so matching byte by byte
    finds the matches that Go finds rune by rune. *)
Inductive re : Type :=
| Eps                       (* the empty expression *)
| Cls (p : ascii -> bool)   (* one byte of a class *)
| Cat (a b : re)            (* a b *)
| Alt (a b : re)            (* a|b, the left branch preferred *)
| Star (a : re)             (* a*, greedy *)
| Cap (i : nat) (a : re).   (* (a), capture group number i *)

Definition Chr (c : ascii) : re := Cls (Ascii.eqb c).
Definition Plus (a : re) : re := Cat a (Star a).     (* a+ *)
Definition Opt (a : re) : re := Alt a Eps.           (* a? *)

Fixpoint Lit (s : string) : re :=
  match s with
  | EmptyString => Eps
  | String c s' => Cat (Chr c) (Lit s')
  end.

Declare Scope re_scope.
Delimit Scope re_scope with re.
Bind Scope re_scope with re.
Infix "@" := Cat (at level 60, right associativity) : re_scope.

(** Capture groups seen so far: the latest binding of a group comes
    first. *)
Definition Caps := list (nat * string).

Fixpoint getCap (i : nat) (caps : Caps) : string :=
  match caps with
  | [] => EmptyString
  | (j, v) :: caps' => if Nat.eqb i j then v else getCap i caps'
  end.

(** The bytes consumed between the input [s] and its suffix [s']. *)
Definition consumed (s s' : string) : string :=
  take (String.length s - String.length s') s.

Section Exec.
Context {R : Type}.

Definition Cont := string -> Caps -> option R.

(** [a*]: one more round of the body [a] is tried first (greedy); a
    round has to consume input; when no further round leads to a match
    the continuation is tried on the input as it stands. *)
Fixpoint starLoop (body : string -> Caps -> Cont -> option R) (k : Cont)
         (n : nat) (s : string) (caps : Caps) : option R :=
  match n with
  | O => k s caps
  | S n' =>
      match body s caps
              (fun s' caps' =>
                 if Nat.ltb (String.length s') (String.length s)
                 then starLoop body k n' s' caps'
                 else None) with
      | Some x => Some x
      | None => k s caps
      end
  end.

(** The backtracking matcher: the first match it finds is the
    leftmost-first match of Go's [regexp] at the start of [s]. *)
Fixpoint exec (r : re) (s : string) (caps : Caps) (k : Cont) {struct r}
  : option R :=
  match r with
  | Eps => k s caps
  | Cls p =>
      match s with
      | EmptyString => None
      | String c s' => if p c then k s' caps else None
      end
  | Cat a b => exec a s caps (fun s' caps' => exec b s' caps' k)
  | Alt a b =>
      match exec a s caps k with
      | Some x => Some x
      | None => exec b s caps k
      end
  | Star a => starLoop (exec a) k (String.length s) s caps
  | Cap i a =>
      exec a s caps (fun s' caps' => k s' ((i, consumed s s') :: caps'))
  end.
End Exec.

(** A match anchored at the start of [s]: the captures and the rest of
    the input after the match. *)
Definition matchAt (r : re) (s : string) : option (Caps * string) :=
  exec r s [] (fun s' caps => Some (caps, s')).

(** The slice Go returns for one match: the whole match, then the text
    of each of the [ngroups] groups. *)
Definition submatches (ngroups : nat) (s : string) (m : Caps * string)
  : list string :=
  consumed s (snd m) :: map (fun i => getCap i (fst m)) (seq 1 ngroups).

(** [FindAllStringSubmatch(s, -1)]: the leftmost match, then the search
    resumes where that match ended.  [skip] counts the bytes of the
    current match that are still to be passed over.  (A match of the
    empty string would resume one byte further; neither pattern below
    has one.) *)
Fixpoint findAllFrom (r : re) (ngroups : nat) (skip : nat) (s : string)
  : list (list string) :=
  match skip with
  | S skip' =>
      match s with
      | EmptyString => []
      | String _ s' => findAllFrom r ngroups skip' s'
      end
  | O =>
      match matchAt r s with
      | Some m =>
          submatches ngroups s m ::
          match s with
          | EmptyString => []
          | String _ s' =>
              findAllFrom r ngroups
                (String.length (consumed s (snd m)) - 1) s'
          end
      | None =>
          match s with
          | EmptyString => []
          | String _ s' => findAllFrom r ngroups 0 s'
          end
      end
  end.

Definition regexp_FindAllStringSubmatch (r : re) (ngroups : nat) (s : string)
  : list (list string) :=
  findAllFrom r ngroups 0 s.

(** The leftmost match anywhere in [s]. *)
Fixpoint findFirst (r : re) (s : string) : option string :=
  match matchAt r s with
  | Some m => Some (consumed s (snd m))
  | None =>
      match s with
      | EmptyString => None
      | String _ s' => findFirst r s'
      end
  end.

(** A compiled pattern as [PatternMatcher] uses it. *)
Record Regexp : Type := {
  regexp_MatchString : string -> bool;
  regexp_FindString : string -> string;
  regexp_String : string
}.

Definition compiled (source : string) (r : re) : Regexp := {|
  regexp_MatchString := fun s =>
    match findFirst r s with Some _ => true | None => false end;
  regexp_FindString := fun s =>
    match findFirst r s with Some m => m | None => EmptyString end;
  regexp_String := source
|}.

(** [[[:space:]]] is [\t\n\v\f\r] and the space; [\s] is the same
    without [\v]; [\d] is [0-9]. *)
Definition posixSpace (c : ascii) : bool :=
  ((9 <=? byte c) && (byte c <=? 13) || (byte c =? 32))%N.

Definition perlSpace (c : ascii) : bool :=
  ((byte c =? 9) || (byte c =? 10) || (byte c =? 12) || (byte c =? 13)
   || (byte c =? 32))%N.

(** [[^[:space:]/]] *)
Definition notSpaceSlash (c : ascii) : bool :=
  negb (posixSpace c || Ascii.eqb c "/").

(** [https?://github\.com/([^[:space:]/]+)/([^[:space:]/]+)/pull/([0-9]+)] *)
Definition prURLPattern : re :=
  (Lit "http" @ Opt (Chr "s") @ Lit "://github.com/"
   @ Cap 1 (Plus (Cls notSpaceSlash)) @ Chr "/"
   @ Cap 2 (Plus (Cls notSpaceSlash)) @ Lit "/pull/"
   @ Cap 3 (Plus (Cls isDigit)))%re.

(** [(?:#|PR-?)\s*(\d+)] *)
Definition prNumberPattern : re :=
  (Alt (Chr "#") (Lit "PR" @ Opt (Chr "-"))
   @ Star (Cls perlSpace)
   @ Cap 1 (Plus (Cls isDigit)))%re.

(* ===================================================================== *)
(** ** Errors *)
(* ===================================================================== *)

(** Go's [error] values as this program meets them: a text made by
    [errors.New] or [fmt.Errorf], the error of [url.Parse], and the two
    values [ctx.Err()] can return. *)
Inductive contextError : Type :=
| Canceled
| DeadlineExceeded.

Inductive error : Type :=
| errorString (msg : string)
| url_Error
| contextErr (e : contextError).

(** [err.Error()], which [%v] prints. *)
Definition Error (e : error) : string :=
  match e with
  | errorString msg => msg
  | url_Error => "parse error"
  | contextErr Canceled => "context canceled"
  | contextErr DeadlineExceeded => "context deadline exceeded"
  end.

(* ===================================================================== *)
(** ** Package [net/url] *)
(* ===================================================================== *)

(** The two fields of [url.URL] that [validateGitHubURL] reads. *)
Record url_URL : Type := { Scheme : string; Host : string }.

(** [stringContainsCTLByte]: a byte below the space, or 0x7f. *)
Definition isCTL (c : ascii) : bool := ((byte c <? 32) || (byte c =? 127))%N.

Fixpoint stringContainsCTLByte (s : string) : bool :=
  match s with
  | EmptyString => false
  | String c s' => isCTL c || stringContainsCTLByte s'
  end.

Definition isLetter (c : ascii) : bool := isLower c || isUpper c.

Inductive schemeResult : Type :=
| SchemeOk (scheme rest : string)
| SchemeMissing.          (* "missing protocol scheme" *)

(** [getScheme]: the loop over the index [i], with [s = rawURL[i:]]. *)
Fixpoint getSchemeFrom (rawURL : string) (i : nat) (s : string)
  : schemeResult :=
  match s with
  | EmptyString => SchemeOk EmptyString rawURL
  | String c s' =>
      if isLetter c then getSchemeFrom rawURL (S i) s'
      else if isDigit c || Ascii.eqb c "+" || Ascii.eqb c "-" || Ascii.eqb c "."
      then if Nat.eqb i 0 then SchemeOk EmptyString rawURL
           else getSchemeFrom rawURL (S i) s'
      else if Ascii.eqb c ":"
      then if Nat.eqb i 0 then SchemeMissing
           else SchemeOk (take i rawURL) s'
      else SchemeOk EmptyString rawURL
  end.

Definition getScheme (rawURL : string) : schemeResult :=
  getSchemeFrom rawURL 0 rawURL.

Inductive encoding : Type :=
| encodePath | encodeHost | encodeZone | encodeUserPassword | encodeFragment.

Definition isHostMode (mode : encoding) : bool :=
  match mode with encodeHost | encodeZone => true | _ => false end.

Definition inBytes (c : ascii) (set : string) : bool :=
  strings_Contains set (String c EmptyString).

(** [shouldEscape(c, encodeHost)] *)
Definition shouldEscapeHost (c : ascii) : bool :=
  if isLetter c || isDigit c then false
  else if inBytes c "!$&'()*+,;=:[]<>" || Ascii.eqb c (ascii_of_nat 34)
  then false
  else if inBytes c "-_.~" then false
  else true.

Definition unhex (c : ascii) : N :=
  if isDigit c then byte c - 48
  else if ((97 <=? byte c) && (byte c <=? 102))%N then byte c - 97 + 10
  else byte c - 65 + 10.

(** [unescape]: [None] is an [EscapeError]. *)
Fixpoint unescape (s : string) (mode : encoding) : option string :=
  match s with
  | EmptyString => Some EmptyString
  | String "%" rest =>
      match rest with
      | String a (String b s') =>
          if isHex a && isHex b then
            let v := (unhex a * 16 + unhex b)%N in
            let is25 := Ascii.eqb a "2" && Ascii.eqb b "5" in
            if match mode with
               | encodeHost => (unhex a <? 8)%N && negb is25
               | encodeZone =>
                   negb is25 && negb (v =? 32)%N
                   && shouldEscapeHost (ascii_of_N v)
               | _ => false
               end
            then None
            else option_map (String (ascii_of_N v)) (unescape s' mode)
          else None
      | _ => None
      end
  | String c s' =>
      if isHostMode mode && (byte c <? 128)%N && shouldEscapeHost c then None
      else option_map (String c) (unescape s' mode)
  end.

(** [validOptionalPort] *)
Definition validOptionalPort (port : string) : bool :=
  match port with
  | EmptyString => true
  | String c digits => Ascii.eqb c ":" && forallb_string isDigit digits
  end.

(** [validUserinfo] *)
Definition validUserinfo (s : string) : bool :=
  forallb_string
    (fun c => isLetter c || isDigit c || inBytes c "-._:~!$&'()*+,;=%@") s.

(** [strings.LastIndex] and [strings.Index]; [None] is -1. *)
Fixpoint strings_LastIndex (s : string) (c : ascii) : option nat :=
  match s with
  | EmptyString => None
  | String a s' =>
      match strings_LastIndex s' c with
      | Some i => Some (S i)
      | None => if Ascii.eqb a c then Some 0 else None
      end
  end.

Fixpoint strings_Index (s substr : string) : option nat :=
  if strings_HasPrefix s substr then Some 0
  else match s with
       | EmptyString => None
       | String _ s' => option_map S (strings_Index s' substr)
       end.

(** [parseHost], as of Go 1.25.0. *)
Definition parseHost (host : string) : option string :=
  if strings_HasPrefix host "[" then
    match strings_LastIndex host "]" with
    | None => None                               (* missing ']' in host *)
    | Some i =>
        if negb (validOptionalPort (drop (S i) host)) then None
        else
          match strings_Index (take i host) "%25" with
          | Some zone =>
              match unescape (take zone host) encodeHost,
                    unescape (drop zone (take i host)) encodeZone,
                    unescape (drop i host) encodeHost with
              | Some host1, Some host2, Some host3 =>
                  Some (host1 ++ host2 ++ host3)
              | _, _, _ => None
              end
          | None => unescape host encodeHost
          end
    end
  else
    match strings_LastIndex host ":" with
    | Some i =>
        if negb (validOptionalPort (drop i host)) then None
        else unescape host encodeHost
    | None => unescape host encodeHost
    end.

(** [parseAuthority]: the host, once the user information before the
    last [@] has been checked. *)
Definition parseAuthority (authority : string) : option string :=
  match strings_LastIndex authority "@" with
  | None => parseHost authority
  | Some i =>
      match parseHost (drop (S i) authority) with
      | None => None
      | Some host =>
          let userinfo := take i authority in
          if negb (validUserinfo userinfo) then None
          else
            let '(username, password, _) := strings_Cut userinfo ":" in
            match unescape username encodeUserPassword,
                  unescape password encodeUserPassword with
            | Some _, Some _ => Some host
            | _, _ => None
            end
      end
  end.

(** [parse(rawURL, false)], for a [rawURL] without fragment. *)
Definition parse (rawURL : string) : option url_URL :=
  if stringContainsCTLByte rawURL then None
  else if String.eqb rawURL "*"
  then Some {| Scheme := EmptyString; Host := EmptyString |}
  else
    match getScheme rawURL with
    | SchemeMissing => None
    | SchemeOk scheme rest =>
        let scheme := strings_ToLower scheme in
        let rest :=
          if endsWith rest "?" && Nat.eqb (strings_Count rest "?") 1
          then dropLast rest
          else fst (fst (strings_Cut rest "?")) in
        if negb (strings_HasPrefix rest "/") then
          if negb (String.eqb scheme EmptyString) then
            Some {| Scheme := scheme; Host := EmptyString |}       (* opaque *)
          else if strings_Contains (fst (fst (strings_Cut rest "/"))) ":"
          then None          (* first path segment cannot contain colon *)
          else option_map (fun _ => {| Scheme := scheme; Host := EmptyString |})
                          (unescape rest encodePath)
        else if (negb (String.eqb scheme EmptyString)
                 || negb (strings_HasPrefix rest "///"))
                && strings_HasPrefix rest "//"
        then
          let '(authority, path, found) := strings_Cut (drop 2 rest) "/" in
          let path := if found then String "/" path else EmptyString in
          match parseAuthority authority with
          | None => None
          | Some host =>
              option_map (fun _ => {| Scheme := scheme; Host := host |})
                         (unescape path encodePath)
          end
        else option_map (fun _ => {| Scheme := scheme; Host := EmptyString |})
                        (unescape rest encodePath)
    end.

(** [url.Parse]: the fragment is cut off first and checked last. *)
Definition url_Parse (rawURL : string) : option url_URL :=
  let '(u, frag, _) := strings_Cut rawURL "#" in
  match parse u with
  | None => None
  | Some url =>
      match frag with
      | EmptyString => Some url
      | _ => option_map (fun _ => url) (unescape frag encodeFragment)
      end
  end.

(* ===================================================================== *)
(** ** matcher.go *)
(* ===================================================================== *)

Module SlackMessage.
Record t : Type := {
  Text : string;
  Channel : string;
  User : string;
  Timestamp : string;
  ThreadTS : string
}.
End SlackMessage.

Module PRReference.
Record t : Type := {
  Owner : string;
  Repository : string;
  Number : Z;
  URL : string
}.
End PRReference.

Module PatternMatch.
Record t : Type := {
  Pattern : string;
  MatchedText : string;
  PRReferences : list PRReference.t;
  SourceMessage : option SlackMessage.t
}.
End PatternMatch.

Record PatternMatcher : Type := { pattern : Regexp }.

(** [validateGitHubURL]; [None] is the nil error.  When the host differs
    from github.com the function returns [err], the error of [url.Parse],
    which is nil at that point. *)
Definition validateGitHubURL (urlStr : string) : option error :=
  match url_Parse urlStr with
  | None => Some url_Error
  | Some parsedURL =>
      if negb (String.eqb (Scheme parsedURL) "https")
      then Some (errorString "only HTTPS URLs are supported")
      else if negb (strings_EqualFold (Host parsedURL) "github.com")
      then None
      else None
  end.

(** The body of the loop over [urlMatches]. *)
Definition urlStep (references : list PRReference.t) (m : list string)
  : list PRReference.t :=
  match m with
  | [m0; m1; m2; m3] =>
      match strconv_Atoi m3 with
      | None => references
      | Some number =>
          match validateGitHubURL m0 with
          | Some _ => references
          | None =>
              references ++
              [{| PRReference.Owner := m1;
                  PRReference.Repository := m2;
                  PRReference.Number := number;
                  PRReference.URL := m0 |}]
          end
      end
  | _ => references
  end.

(** A reference with only the number set. *)
Definition bareReference (number : Z) : PRReference.t :=
  {| PRReference.Owner := EmptyString;
     PRReference.Repository := EmptyString;
     PRReference.Number := number;
     PRReference.URL := EmptyString |}.

(** The inner loop: some reference collected so far has this number. *)
Definition alreadyExists (references : list PRReference.t) (number : Z)
  : bool :=
  existsb (fun existing => Z.eqb (PRReference.Number existing) number)
          references.

(** The body of the loop over [numberMatches]. *)
Definition numberStep (references : list PRReference.t) (m : list string)
  : list PRReference.t :=
  match m with
  | [_; m1] =>
      match strconv_Atoi m1 with
      | None => references
      | Some number =>
          if alreadyExists references number then references
          else references ++ [bareReference number]
      end
  | _ => references
  end.

(** [ExtractPRReferences]; the receiver is not used by the method. *)
Definition ExtractPRReferences (text : string)
  : list PRReference.t * option error :=
  let references := [] in
  let urlMatches := regexp_FindAllStringSubmatch prURLPattern 3 text in
  let references := fold_left urlStep urlMatches references in
  let numberMatches := regexp_FindAllStringSubmatch prNumberPattern 1 text in
  let references := fold_left numberStep numberMatches references in
  (references, None).

(** [Match] *)
Definition Match (pm : PatternMatcher) (message : string)
  : option PatternMatch.t * option error :=
  if negb (regexp_MatchString (pattern pm) message) then (None, None)
  else
    let matchedText := regexp_FindString (pattern pm) message in
    let '(prRefs, err) := ExtractPRReferences message in
    match err with
    | Some e => (None, Some e)
    | None =>
        (Some {| PatternMatch.Pattern := regexp_String (pattern pm);
                 PatternMatch.MatchedText := matchedText;
                 PatternMatch.PRReferences := prRefs;
                 PatternMatch.SourceMessage := None |}, None)
    end.

(* ===================================================================== *)
(** ** The outside world *)
(* ===================================================================== *)

Module ApprovalRequest.
Record t : Type := {
  Owner : string;
  Repository : string;
  PRNumber : Z;
  Message : string;
  SourceChannel : string;
  SourceUser : string;
  SourceMessage : option SlackMessage.t;
  Timestamp : Z
}.
End ApprovalRequest.

Module ApprovalResult.
Record t : Type := {
  Request : option ApprovalRequest.t;
  Success : bool;
  ReviewID : Z;
  Error : string;
  ProcessedAt : Z;
  RetryAttempts : Z
}.
End ApprovalResult.

(** What the go-github client hands back: the decoded object, the HTTP
    response and the error, each of which can be nil. *)
Record github_PullRequest : Type := {
  State : option string;
  Merged : option bool
}.

Record github_PullRequestReview : Type := { ID : option Z }.

Record github_Response : Type := { StatusCode : Z }.

Definition GetResponse : Type :=
  option github_PullRequest * option github_Response * option error.

Definition ReviewResponse : Type :=
  option github_PullRequestReview * option github_Response * option error.

(** The nil-safe getters of go-github. *)
Definition GetState (pr : option github_PullRequest) : string :=
  match pr with
  | Some {| State := Some s |} => s
  | _ => EmptyString
  end.

Definition GetMerged (pr : option github_PullRequest) : bool :=
  match pr with
  | Some {| Merged := Some b |} => b
  | _ => false
  end.

Definition GetID (review : option github_PullRequestReview) : Z :=
  match review with
  | Some {| ID := Some id |} => id
  | _ => 0%Z
  end.

(** The outcome of [select] on [time.After(delay)] and [ctx.Done()]:
    the timer fires, or the context is done and [ctx.Err()] is [err]. *)
Inductive SelectOutcome : Type :=
| TimerFired
| ContextDone (err : contextError).

(** Programs: the calls a function makes to the outside world, each
    with the rest of the function as a continuation of the answer.
    Logging is not part of the model. *)
Inductive Prog (A : Type) : Type :=
| Ret (a : A)
| Panic
| PullRequests_Get (owner repo : string) (number : Z)
                   (k : GetResponse -> Prog A)
| PullRequests_CreateReview (owner repo : string) (number : Z)
                            (event : string) (k : ReviewResponse -> Prog A)
| Select (delay : Z) (k : SelectOutcome -> Prog A)
| time_Now (k : Z -> Prog A)
| api_AddReaction (emoji channel timestamp : string)
                  (k : option error -> Prog A)
| Go_processApproval (req : ApprovalRequest.t) (k : Prog A).

Arguments Ret {A} a.
Arguments Panic {A}.
Arguments PullRequests_Get {A} owner repo number k.
Arguments PullRequests_CreateReview {A} owner repo number event k.
Arguments Select {A} delay k.
Arguments time_Now {A} k.
Arguments api_AddReaction {A} emoji channel timestamp k.
Arguments Go_processApproval {A} req k.

Fixpoint bind {A B : Type} (p : Prog A) (f : A -> Prog B) : Prog B :=
  match p with
  | Ret a => f a
  | Panic => Panic
  | PullRequests_Get o r n k =>
      PullRequests_Get o r n (fun x => bind (k x) f)
  | PullRequests_CreateReview o r n e k =>
      PullRequests_CreateReview o r n e (fun x => bind (k x) f)
  | Select d k => Select d (fun x => bind (k x) f)
  | time_Now k => time_Now (fun x => bind (k x) f)
  | api_AddReaction e c t k => api_AddReaction e c t (fun x => bind (k x) f)
  | Go_processApproval req k => Go_processApproval req (bind k f)
  end.

Notation "x <- p ;; q" := (bind p (fun x => q))
  (at level 61, p at next level, right associativity).
Notation "' pat <- p ;; q" := (bind p (fun x => match x with pat => q end))
  (at level 61, pat pattern, p at next level, right associativity).

(** One event of a run: a call together with its answer. *)
Inductive Event : Type :=
| EvGet (owner repo : string) (number : Z) (resp : GetResponse)
| EvCreateReview (owner repo : string) (number : Z) (event : string)
                 (resp : ReviewResponse)
| EvSelect (delay : Z) (outcome : SelectOutcome)
| EvNow (now : Z)
| EvAddReaction (emoji channel timestamp : string) (err : option error)
| EvGo (req : ApprovalRequest.t).

(** An environment answers the n-th call of each kind. *)
Record World : Type := {
  getResponses : nat -> GetResponse;
  reviewResponses : nat -> ReviewResponse;
  selectOutcomes : nat -> SelectOutcome;
  clock : nat -> Z;
  reactionErrors : nat -> option error
}.

(** How many calls of each kind have been made so far. *)
Record Calls : Type := {
  nGet : nat; nReview : nat; nSelect : nat; nNow : nat; nReaction : nat
}.

Definition noCalls : Calls :=
  {| nGet := 0; nReview := 0; nSelect := 0; nNow := 0; nReaction := 0 |}.

Inductive Outcome (A : Type) : Type :=
| Returned (a : A)
| Panicked.

Arguments Returned {A} a.
Arguments Panicked {A}.

(** The call counts after one more event. *)
Definition advance (c : Calls) (e : Event) : Calls :=
  match e with
  | EvGet _ _ _ _ =>
      {| nGet := S (nGet c); nReview := nReview c; nSelect := nSelect c;
         nNow := nNow c; nReaction := nReaction c |}
  | EvCreateReview _ _ _ _ _ =>
      {| nGet := nGet c; nReview := S (nReview c); nSelect := nSelect c;
         nNow := nNow c; nReaction := nReaction c |}
  | EvSelect _ _ =>
      {| nGet := nGet c; nReview := nReview c; nSelect := S (nSelect c);
         nNow := nNow c; nReaction := nReaction c |}
  | EvNow _ =>
      {| nGet := nGet c; nReview := nReview c; nSelect := nSelect c;
         nNow := S (nNow c); nReaction := nReaction c |}
  | EvAddReaction _ _ _ _ =>
      {| nGet := nGet c; nReview := nReview c; nSelect := nSelect c;
         nNow := nNow c; nReaction := S (nReaction c) |}
  | EvGo _ => c
  end.

(** The run of a program in an environment: how it ends and the events
    in the order they happened. *)
Fixpoint runFrom {A : Type} (w : World) (c : Calls) (p : Prog A)
  : Outcome A * list Event :=
  match p with
  | Ret a => (Returned a, [])
  | Panic => (Panicked, [])
  | PullRequests_Get o r n k =>
      let resp := getResponses w (nGet c) in
      let ev := EvGet o r n resp in
      let '(out, tr) := runFrom w (advance c ev) (k resp) in
      (out, ev :: tr)
  | PullRequests_CreateReview o r n e k =>
      let resp := reviewResponses w (nReview c) in
      let ev := EvCreateReview o r n e resp in
      let '(out, tr) := runFrom w (advance c ev) (k resp) in
      (out, ev :: tr)
  | Select d k =>
      let outcome := selectOutcomes w (nSelect c) in
      let ev := EvSelect d outcome in
      let '(out, tr) := runFrom w (advance c ev) (k outcome) in
      (out, ev :: tr)
  | time_Now k =>
      let now := clock w (nNow c) in
      let ev := EvNow now in
      let '(out, tr) := runFrom w (advance c ev) (k now) in
      (out, ev :: tr)
  | api_AddReaction e ch ts k =>
      let err := reactionErrors w (nReaction c) in
      let ev := EvAddReaction e ch ts err in
      let '(out, tr) := runFrom w (advance c ev) (k err) in
      (out, ev :: tr)
  | Go_processApproval req k =>
      let ev := EvGo req in
      let '(out, tr) := runFrom w (advance c ev) k in
      (out, ev :: tr)
  end.

Definition run {A : Type} (w : World) (p : Prog A) : Outcome A * list Event :=
  runFrom w noCalls p.

Definition outcome {A : Type} (w : World) (p : Prog A) : Outcome A :=
  fst (run w p).

Definition trace {A : Type} (w : World) (p : Prog A) : list Event :=
  snd (run w p).

Definition isCreateReview (e : Event) : bool :=
  match e with EvCreateReview _ _ _ _ _ => true | _ => false end.

Definition isGet (e : Event) : bool :=
  match e with EvGet _ _ _ _ => true | _ => false end.

Definition isAddReaction (e : Event) : bool :=
  match e with EvAddReaction _ _ _ _ => true | _ => false end.

(** The calls to the approval-submission capability, to the validation
    capability and to the reaction capability in a trace. *)
Definition approvalCalls (tr : list Event) : list Event :=
  filter isCreateReview tr.

Definition validationCalls (tr : list Event) : list Event :=
  filter isGet tr.

Definition reactions (tr : list Event) : list Event :=
  filter isAddReaction tr.

(* ===================================================================== *)
(** ** github.go *)
(* ===================================================================== *)

(** What [ValidatePRReference] returns for an answer of
    [PullRequests.Get]; [None] is the nil error. *)
Definition validationError (owner repo : string) (prNumber : Z)
           (resp : GetResponse) : option error :=
  let '(pr, response, err) := resp in
  match err with
  | Some e =>
      let other :=
        Some (errorString
                ("failed to get PR #" ++ strconv_Itoa prNumber ++ ": "
                 ++ Error e)) in
      match response with
      | Some resp =>
          if (StatusCode resp =? 404)%Z then
            Some (errorString
                    ("PR #" ++ strconv_Itoa prNumber ++ " not found in "
                     ++ owner ++ "/" ++ repo))
          else if (StatusCode resp =? 403)%Z then
            Some (errorString
                    ("insufficient permissions to access PR #"
                     ++ strconv_Itoa prNumber ++ " in "
                     ++ owner ++ "/" ++ repo))
          else other
      | None => other
      end
  | None =>
      if negb (String.eqb (GetState pr) "open") then
        Some (errorString
                ("PR #" ++ strconv_Itoa prNumber ++ " is " ++ GetState pr
                 ++ " and cannot be approved"))
      else if GetMerged pr then
        Some (errorString
                ("PR #" ++ strconv_Itoa prNumber ++ " is already merged"))
      else None
  end.

(** [ValidatePRReference] *)
Definition ValidatePRReference (owner repo : string) (prNumber : Z)
  : Prog (option error) :=
  PullRequests_Get owner repo prNumber (fun resp =>
    Ret (validationError owner repo prNumber resp)).

(** The result [ApprovePR] fills in for an answer of
    [PullRequests.CreateReview], [now] being the time before the call. *)
Definition approvalResult (req : ApprovalRequest.t) (now : Z)
           (resp : ReviewResponse) : ApprovalResult.t :=
  let owner := ApprovalRequest.Owner req in
  let repo := ApprovalRequest.Repository req in
  let n := ApprovalRequest.PRNumber req in
  let '(review, response, err) := resp in
  match err with
  | Some e =>
      let failed msg :=
        {| ApprovalResult.Request := Some req;
           ApprovalResult.Success := false;
           ApprovalResult.ReviewID := 0;
           ApprovalResult.Error := msg;
           ApprovalResult.ProcessedAt := now;
           ApprovalResult.RetryAttempts := 0 |} in
      let other :=
        failed ("failed to approve PR #" ++ strconv_Itoa n ++ ": "
                ++ Error e) in
      match response with
      | Some resp =>
          if (StatusCode resp =? 404)%Z then
            failed ("PR #" ++ strconv_Itoa n ++ " not found in "
                    ++ owner ++ "/" ++ repo)
          else if (StatusCode resp =? 403)%Z then
            failed ("insufficient permissions to approve PR #"
                    ++ strconv_Itoa n)
          else if (StatusCode resp =? 422)%Z then
            failed ("PR #" ++ strconv_Itoa n
                    ++ " cannot be approved (already merged or closed)")
          else other
      | None => other
      end
  | None =>
      {| ApprovalResult.Request := Some req;
         ApprovalResult.Success := true;
         ApprovalResult.ReviewID := GetID review;
         ApprovalResult.Error := EmptyString;
         ApprovalResult.ProcessedAt := now;
         ApprovalResult.RetryAttempts := 0 |}
  end.

(** [ApprovePR]: the pair of the result pointer and the error, which is
    nil on every path. *)
Definition ApprovePR (req : ApprovalRequest.t)
  : Prog (option ApprovalResult.t * option error) :=
  now <- time_Now Ret ;;
  PullRequests_CreateReview (ApprovalRequest.Owner req)
    (ApprovalRequest.Repository req) (ApprovalRequest.PRNumber req)
    "APPROVE"
    (fun resp => Ret (Some (approvalResult req now resp), None)).

(** [isPermanentError] *)
Definition permanentErrors : list string :=
  [ "not found";
    "insufficient permissions";
    "already merged";
    "already closed";
    "invalid_auth";
    "Bad credentials" ].

Definition isPermanentError (errorMsg : string) : bool :=
  existsb (fun permanent => strings_Contains errorMsg permanent)
          permanentErrors.

Definition maxRetries : nat := 3.
Definition baseDelay : Z := 1000000000.      (* time.Second *)

(** [result.RetryAttempts = n] on the result behind the pointer. *)
Definition setRetryAttempts (result : ApprovalResult.t) (n : Z)
  : ApprovalResult.t :=
  {| ApprovalResult.Request := ApprovalResult.Request result;
     ApprovalResult.Success := ApprovalResult.Success result;
     ApprovalResult.ReviewID := ApprovalResult.ReviewID result;
     ApprovalResult.Error := ApprovalResult.Error result;
     ApprovalResult.ProcessedAt := ApprovalResult.ProcessedAt result;
     ApprovalResult.RetryAttempts := n |}.

(** [%v] of an error that can be nil. *)
Definition showError (e : option error) : string :=
  match e with
  | Some e => Error e
  | None => "<nil>"
  end.

(** The backoff before the iteration [attempt]:
    [time.Duration(1<<uint(attempt)) * baseDelay]. *)
Definition backoff (attempt : nat) : Z :=
  (Z.shiftl 1 (Z.of_nat attempt) * baseDelay)%Z.

(** The loop body after the call of [ApprovePR] in the iteration
    [attempt]; [next lastResult lastErr] is the rest of the loop. *)
Definition afterAttempt (attempt : nat)
           (next : option ApprovalResult.t -> option error ->
                   Prog (option ApprovalResult.t * option error))
           (returned : option ApprovalResult.t * option error)
  : Prog (option ApprovalResult.t * option error) :=
  let '(result, err) := returned in
  match err with
  | Some e => next result (Some e)
  | None =>
      match result with
      | None => Panic
      | Some r =>
          if ApprovalResult.Success r
             || isPermanentError (ApprovalResult.Error r)
          then
            Ret (Some (if (ApprovalResult.RetryAttempts r =? 0)%Z
                       then setRetryAttempts r (Z.of_nat attempt)
                       else r), None)
          else
            next (Some r)
                 (Some (errorString
                          ("approval failed: " ++ ApprovalResult.Error r)))
      end
  end.

(** The [for] loop of [ApprovePRWithRetry] from the iteration [attempt]
    on, [remaining = maxRetries - attempt] iterations being left, and
    the code after the loop. *)
Fixpoint retryLoop (req : ApprovalRequest.t) (remaining attempt : nat)
         (lastResult : option ApprovalResult.t) (lastErr : option error)
  : Prog (option ApprovalResult.t * option error) :=
  match remaining with
  | O =>
      match lastResult with
      | Some last =>
          Ret (Some (setRetryAttempts last (Z.of_nat maxRetries)), None)
      | None =>
          Ret (None,
               Some (errorString
                       ("approval failed after "
                        ++ strconv_Itoa (Z.of_nat maxRetries)
                        ++ " attempts: " ++ showError lastErr)))
      end
  | S remaining' =>
      let approve :=
        bind (ApprovePR req)
             (afterAttempt attempt (retryLoop req remaining' (S attempt))) in
      if Nat.ltb 0 attempt then
        Select (backoff attempt) (fun outcome =>
          match outcome with
          | TimerFired => approve
          | ContextDone ctxErr => Ret (None, Some (contextErr ctxErr))
          end)
      else approve
  end.

(** [ApprovePRWithRetry] *)
Definition ApprovePRWithRetry (req : ApprovalRequest.t)
  : Prog (option ApprovalResult.t * option error) :=
  retryLoop req maxRetries 0 None None.

(* ===================================================================== *)
(** ** config.go and slack.go *)
(* ===================================================================== *)

Record Configuration : Type := {
  GitHubToken : string;
  SlackBotToken : string;
  SlackAppToken : string;
  SlackChannelID : string;
  MessagePattern : string;
  DefaultOwner : string;
  DefaultRepo : string;
  LogLevel : string
}.

(** The fields of [SlackClient] that are data; its three API handles are
    the outside world. *)
Record SlackClient : Type := {
  config : Configuration;
  matcher : PatternMatcher
}.

(** The fields of [slackevents.MessageEvent] the handler reads. *)
Module MessageEvent.
Record t : Type := {
  Channel : string;
  BotID : string;
  Text : string;
  User : string;
  TimeStamp : string;
  ThreadTimeStamp : string
}.
End MessageEvent.

(** [addReaction]: the error of the call is logged and dropped. *)
Definition addReaction (channel timestamp emoji : string) : Prog unit :=
  api_AddReaction emoji channel timestamp (fun _ => Ret tt).

(** [processApproval] *)
Definition processApproval (req : ApprovalRequest.t) : Prog unit :=
  err <- ValidatePRReference (ApprovalRequest.Owner req)
                             (ApprovalRequest.Repository req)
                             (ApprovalRequest.PRNumber req) ;;
  match err with
  | Some _ => Ret tt
  | None =>
      '(result, err) <- ApprovePRWithRetry req ;;
      match err with
      | Some _ => Ret tt
      | None =>
          match result, ApprovalRequest.SourceMessage req with
          | Some r, Some source =>
              if ApprovalResult.Success r then
                addReaction (ApprovalRequest.SourceChannel req)
                            (SlackMessage.Timestamp source)
                            "white_check_mark"
              else
                addReaction (ApprovalRequest.SourceChannel req)
                            (SlackMessage.Timestamp source)
                            "x"
          | _, _ => Panic
          end
      end
  end.

(** The loop of [processPRApprovals] over [match.PRReferences]; [source]
    is what [match.SourceMessage] points to. *)
Fixpoint approveEach (sc : SlackClient) (source : SlackMessage.t)
         (refs : list PRReference.t) : Prog unit :=
  match refs with
  | [] => Ret tt
  | prRef :: rest =>
      let owner := PRReference.Owner prRef in
      let repo := PRReference.Repository prRef in
      let owner :=
        if String.eqb owner EmptyString then DefaultOwner (config sc)
        else owner in
      let repo :=
        if String.eqb repo EmptyString then DefaultRepo (config sc)
        else repo in
      if String.eqb owner EmptyString || String.eqb repo EmptyString
      then approveEach sc source rest
      else
        now <- time_Now Ret ;;
        Go_processApproval
          {| ApprovalRequest.Owner := owner;
             ApprovalRequest.Repository := repo;
             ApprovalRequest.PRNumber := PRReference.Number prRef;
             ApprovalRequest.Message := EmptyString;
             ApprovalRequest.SourceChannel := SlackMessage.Channel source;
             ApprovalRequest.SourceUser := SlackMessage.User source;
             ApprovalRequest.SourceMessage := Some source;
             ApprovalRequest.Timestamp := now |}
          (approveEach sc source rest)
  end.

(** [processPRApprovals] *)
Definition processPRApprovals (sc : SlackClient) (m : PatternMatch.t)
  : Prog unit :=
  match PatternMatch.SourceMessage m with
  | None => Panic
  | Some source =>
      _ <- addReaction (SlackMessage.Channel source)
                       (SlackMessage.Timestamp source) "eyes" ;;
      approveEach sc source (PatternMatch.PRReferences m)
  end.

(** [processMessage] *)
Definition processMessage (sc : SlackClient) (msg : SlackMessage.t)
  : Prog unit :=
  let '(m, err) := Match (matcher sc) (SlackMessage.Text msg) in
  match err with
  | Some _ => Ret tt
  | None =>
      match m with
      | None => Ret tt
      | Some m =>
          let m :=
            {| PatternMatch.Pattern := PatternMatch.Pattern m;
               PatternMatch.MatchedText := PatternMatch.MatchedText m;
               PatternMatch.PRReferences := PatternMatch.PRReferences m;
               PatternMatch.SourceMessage := Some msg |} in
          if Nat.ltb 0 (List.length (PatternMatch.PRReferences m))
          then processPRApprovals sc m
          else addReaction (SlackMessage.Channel msg)
                           (SlackMessage.Timestamp msg) "x"
      end
  end.

(** [handleMessageEvent] *)
Definition handleMessageEvent (sc : SlackClient) (event : MessageEvent.t)
  : Prog unit :=
  if negb (String.eqb (SlackChannelID (config sc)) EmptyString)
     && negb (String.eqb (MessageEvent.Channel event)
                         (SlackChannelID (config sc)))
  then Ret tt
  else if negb (String.eqb (MessageEvent.BotID event) EmptyString)
  then Ret tt
  else
    processMessage sc
      {| SlackMessage.Text := MessageEvent.Text event;
         SlackMessage.Channel := MessageEvent.Channel event;
         SlackMessage.User := MessageEvent.User event;
         SlackMessage.Timestamp := MessageEvent.TimeStamp event;
         SlackMessage.ThreadTS := MessageEvent.ThreadTimeStamp event |}.

(** The requests a trace shows as handed to a [processApproval]
    goroutine. *)
Fixpoint dispatched (tr : list Event) : list ApprovalRequest.t :=
  match tr with
  | [] => []
  | EvGo req :: tr' => req :: dispatched tr'
  | _ :: tr' => dispatched tr'
  end.

(** The symbols of the reactions a trace applies, with the message each
    one is applied to. *)
Fixpoint reactionSymbols (tr : list Event) : list (string * string * string) :=
  match tr with
  | [] => []
  | EvAddReaction emoji channel timestamp _ :: tr' =>
      (emoji, channel, timestamp) :: reactionSymbols tr'
  | _ :: tr' => reactionSymbols tr'
  end.

(* ===================================================================== *)
(** ** Vocabulary of the properties *)
(* ===================================================================== *)

(** [s] without its first byte when that byte is [c]. *)
Definition skipByte (c : ascii) (s : string) : string :=
  match s with
  | String a s' => if Ascii.eqb c a then s' else s
  | EmptyString => s
  end.

Definition nonEmpty (s : string) : bool :=
  match s with EmptyString => false | String _ _ => true end.

(** What a match of [prURLPattern] at the start of [s] is, read off the
    pattern from left to right: the captures (owner, repository, digits)
    and the rest of the input. *)
Definition prURLMatch (s : string) : option (Caps * string) :=
  match trimPrefix "http" s with
  | None => None
  | Some s1 =>
      match trimPrefix "://github.com/" (skipByte "s" s1) with
      | None => None
      | Some s2 =>
          let owner := takeWhile notSpaceSlash s2 in
          match nonEmpty owner, dropWhile notSpaceSlash s2 with
          | true, String "/" s3 =>
              let repo := takeWhile notSpaceSlash s3 in
              match nonEmpty repo,
                    trimPrefix "/pull/" (dropWhile notSpaceSlash s3) with
              | true, Some s4 =>
                  let digits := takeWhile isDigit s4 in
                  if nonEmpty digits
                  then Some ([(3, digits); (2, repo); (1, owner)],
                             dropWhile isDigit s4)
                  else None
              | _, _ => None
              end
          | _, _ => None
          end
      end
  end.

(** The same for [prNumberPattern]: the marker, white space, digits. *)
Definition prNumberMatch (s : string) : option (Caps * string) :=
  let afterMarker :=
    match trimPrefix "#" s with
    | Some s1 => Some s1
    | None => option_map (skipByte "-") (trimPrefix "PR" s)
    end in
  match afterMarker with
  | None => None
  | Some s1 =>
      let s2 := dropWhile perlSpace s1 in
      let digits := takeWhile isDigit s2 in
      if nonEmpty digits
      then Some ([(1, digits)], dropWhile isDigit s2)
      else None
  end.

(** The references of the URL matches of a text, one for each match
    that passes the checks of the first loop, in the order of the
    matches. *)
Definition urlReferences (text : string) : list PRReference.t :=
  flat_map (urlStep [])
           (regexp_FindAllStringSubmatch prURLPattern 3 text).

(** The numbers of the bare matches of a text, in the order of the
    matches; a match whose digits [strconv.Atoi] rejects has none. *)
Definition bareNumber (m : list string) : list Z :=
  match m with
  | [_; m1] =>
      match strconv_Atoi m1 with
      | Some number => [number]
      | None => []
      end
  | _ => []
  end.

Definition bareNumbers (text : string) : list Z :=
  flat_map bareNumber
           (regexp_FindAllStringSubmatch prNumberPattern 1 text).

(** The numbers of [numbers] that are not in [seen], each one once, at
    its first occurrence. *)
Fixpoint firstOccurrences (seen numbers : list Z) : list Z :=
  match numbers with
  | [] => []
  | n :: numbers' =>
      if existsb (Z.eqb n) seen then firstOccurrences seen numbers'
      else n :: firstOccurrences (seen ++ [n]) numbers'
  end.

(** The three ways of writing a bare reference before its digits. *)
Definition bareMarkers : list string := ["#"; "PR-"; "PR "].

Definition startsWithDigit (s : string) : bool :=
  match s with
  | String c _ => isDigit c
  | EmptyString => false
  end.

(** The bytes a match of [prNumberPattern] can hold after its first
    one. *)
Definition insideBareMatch (c : ascii) : bool :=
  Ascii.eqb c "R" || Ascii.eqb c "-" || perlSpace c || isDigit c.

(** The answer of [PullRequests.Get] reports a target that cannot be
    approved: the call fails (not found, access denied, or any other
    error), or the pull request is not open, or it is merged. *)
Definition reportedInvalid (resp : GetResponse) : Prop :=
  let '(pr, _, err) := resp in
  err <> None \/ GetState pr <> "open" \/ GetMerged pr = true.

(** An approval attempt failed and its message holds none of the
    permanent-failure substrings. *)
Definition transientFailure (r : ApprovalResult.t) : Prop :=
  ApprovalResult.Success r = false /\
  Forall (fun permanent =>
            strings_Contains (ApprovalResult.Error r) permanent = false)
         permanentErrors.

(** The call counts when [processApproval] enters the retry loop. *)
Definition afterValidation : Calls :=
  {| nGet := 1; nReview := 0; nSelect := 0; nNow := 0; nReaction := 0 |}.

(** The result and the events of the attempt made at the call counts
    [c]. *)
Definition attemptResult (w : World) (c : Calls) (req : ApprovalRequest.t)
  : ApprovalResult.t :=
  approvalResult req (clock w (nNow c)) (reviewResponses w (nReview c)).

Definition attemptEvents (w : World) (c : Calls) (req : ApprovalRequest.t)
  : list Event :=
  [EvNow (clock w (nNow c));
   EvCreateReview (ApprovalRequest.Owner req) (ApprovalRequest.Repository req)
     (ApprovalRequest.PRNumber req) "APPROVE"
     (reviewResponses w (nReview c))].

(** The first cancelled wait of a trace: the error of the context and
    the events that follow the wait. *)
Fixpoint afterCancellation (tr : list Event)
  : option (contextError * list Event) :=
  match tr with
  | [] => None
  | EvSelect _ (ContextDone e) :: post => Some (e, post)
  | _ :: tr' => afterCancellation tr'
  end.

(** The events the retry loop can produce. *)
Definition isRetryEvent (e : Event) : bool :=
  match e with
  | EvNow _ | EvCreateReview _ _ _ _ _ | EvSelect _ _ => true
  | _ => false
  end.

(** The symbols the code applies for the four kinds of feedback:
    [started] when processing starts, [succeeded] and [failed] for the
    outcome of an approval, [noReferences] when the pattern matches and
    the message names no pull request.  Each clause is about every run
    of the code that reaches the reaction of that kind. *)
Definition reactionVocabulary (started succeeded failed noReferences : string)
  : Prop :=
  (forall w sc msg m,
      Match (matcher sc) (SlackMessage.Text msg) = (Some m, None) ->
      PatternMatch.PRReferences m <> [] ->
      reactionSymbols (trace w (processMessage sc msg)) =
      [(started, SlackMessage.Channel msg, SlackMessage.Timestamp msg)]) /\
  (forall w req source r,
      ApprovalRequest.SourceMessage req = Some source ->
      validationError (ApprovalRequest.Owner req)
        (ApprovalRequest.Repository req) (ApprovalRequest.PRNumber req)
        (getResponses w 0) = None ->
      fst (runFrom w afterValidation (ApprovePRWithRetry req)) =
      Returned (Some r, None) ->
      reactionSymbols (trace w (processApproval req)) =
      [(if ApprovalResult.Success r then succeeded else failed,
        ApprovalRequest.SourceChannel req, SlackMessage.Timestamp source)]) /\
  (forall w sc msg m,
      Match (matcher sc) (SlackMessage.Text msg) = (Some m, None) ->
      PatternMatch.PRReferences m = [] ->
      reactionSymbols (trace w (processMessage sc msg)) =
      [(noReferences, SlackMessage.Channel msg, SlackMessage.Timestamp msg)]).

(** Answers used in the examples. *)
Definition openPR : GetResponse :=
  (Some {| State := Some "open"; Merged := Some false |},
   Some {| StatusCode := 200 |}, None).

Definition mergedPR : GetResponse :=
  (Some {| State := Some "closed"; Merged := Some true |},
   Some {| StatusCode := 200 |}, None).

Definition notFound : GetResponse :=
  (None, Some {| StatusCode := 404 |}, Some (errorString "404 Not Found")).

Definition unavailable : ReviewResponse :=
  (None, Some {| StatusCode := 503 |},
   Some (errorString "503 Service Unavailable")).

Definition forbidden : ReviewResponse :=
  (None, Some {| StatusCode := 403 |}, Some (errorString "403 Forbidden")).

Definition approved : ReviewResponse :=
  (Some {| ID := Some 77%Z |}, Some {| StatusCode := 200 |}, None).

(** An environment that answers every [Get] with [g], the n-th
    [CreateReview] with the n-th element of [reviews] and the n-th
    [select] with the n-th element of [selects]. *)
Definition world (g : GetResponse) (reviews : list ReviewResponse)
           (selects : list SelectOutcome) : World :=
  {| getResponses := fun _ => g;
     reviewResponses := fun n => nth n reviews unavailable;
     selectOutcomes := fun n => nth n selects TimerFired;
     clock := fun n => Z.of_nat n;
     reactionErrors := fun _ => None |}.

Definition exampleMessage : SlackMessage.t :=
  {| SlackMessage.Text := "LGTM https://github.com/acme/widget/pull/42";
     SlackMessage.Channel := "C012345";
     SlackMessage.User := "U012345";
     SlackMessage.Timestamp := "1700000000.000100";
     SlackMessage.ThreadTS := EmptyString |}.

Definition exampleRequest : ApprovalRequest.t :=
  {| ApprovalRequest.Owner := "acme";
     ApprovalRequest.Repository := "widget";
     ApprovalRequest.PRNumber := 42;
     ApprovalRequest.Message := EmptyString;
     ApprovalRequest.SourceChannel := "C012345";
     ApprovalRequest.SourceUser := "U012345";
     ApprovalRequest.SourceMessage := Some exampleMessage;
     ApprovalRequest.Timestamp := 0 |}.

(** [.] of Go's syntax: any byte but the newline. *)
Definition notNewline (c : ascii) : bool := negb (byte c =? 10)%N.

(** The matcher [NewPatternMatcher] builds for the empty pattern. *)
Definition matchAll : PatternMatcher :=
  {| pattern := compiled ".*" (Star (Cls notNewline)) |}.

Definition exampleClient : SlackClient :=
  {| config :=
       {| GitHubToken := "ghp_example";
          SlackBotToken := "xoxb-example";
          SlackAppToken := "xapp-example";
          SlackChannelID := EmptyString;
          MessagePattern := EmptyString;
          DefaultOwner := EmptyString;
          DefaultRepo := EmptyString;
          LogLevel := "info" |};
     matcher := matchAll |}.

Definition deployedMessage : SlackMessage.t :=
  {| SlackMessage.Text := "Application X deployed to production successfully";
     SlackMessage.Channel := "C012345";
     SlackMessage.User := "U012345";
     SlackMessage.Timestamp := "1700000000.000200";
     SlackMessage.ThreadTS := EmptyString |}.

(* ===================================================================== *)
(** ** config.go: the validation of the configuration *)
(* ===================================================================== *)

Module ConfigError.
Record t : Type := { Field : string; Message : string }.

(** The method [Error] of [ConfigError] *)
Definition Error (e : t) : string :=
  "configuration error [" ++ Field e ++ "]: " ++ Message e.
End ConfigError.

(** The map [validLogLevels], and the index expression [m[key]] of a
    [map[string]bool], which is false for a key that is absent. *)
Definition validLogLevels : list (string * bool) :=
  [("debug", true); ("info", true); ("warn", true); ("error", true)].

Fixpoint mapIndex (m : list (string * bool)) (key : string) : bool :=
  match m with
  | [] => false
  | (k, v) :: m' => if String.eqb k key then v else mapIndex m' key
  end.

Definition isASCII (s : string) : bool :=
  forallb_string (fun c => (byte c <? 128)%N) s.

Section Config.

(** [regexp.Compile]: the compiled pattern, or the error of its syntax. *)
Variable regexp_Compile : string -> Regexp + error.

(** [strings.Map(unicode.ToLower, s)], which is what [strings.ToLower]
    returns for a text that holds a byte outside of ASCII; the tables of
    package [unicode] are not part of this development. *)
Variable unicode_ToLower : string -> string.

(** [strings.ToLower] on any text. *)
Definition strings_ToLowerAny (s : string) : string :=
  if isASCII s then strings_ToLower s else unicode_ToLower s.

(** [validateConfiguration]; [None] is the nil error. *)
Definition validateConfiguration (config : Configuration)
  : option ConfigError.t :=
  if String.eqb (GitHubToken config) EmptyString then
    Some {| ConfigError.Field := "GitHubToken";
            ConfigError.Message := "GitHub token is required" |}
  else if String.eqb (SlackBotToken config) EmptyString then
    Some {| ConfigError.Field := "SlackBotToken";
            ConfigError.Message := "Slack bot token is required" |}
  else if String.eqb (SlackAppToken config) EmptyString then
    Some {| ConfigError.Field := "SlackAppToken";
            ConfigError.Message := "Slack app token is required" |}
  else if negb (strings_HasPrefix (SlackBotToken config) "xoxb-") then
    Some {| ConfigError.Field := "SlackBotToken";
            ConfigError.Message :=
              "Slack bot token must start with 'xoxb-'" |}
  else if negb (strings_HasPrefix (SlackAppToken config) "xapp-") then
    Some {| ConfigError.Field := "SlackAppToken";
            ConfigError.Message :=
              "Slack app token must start with 'xapp-'" |}
  else
    let patternError :=
      if negb (String.eqb (MessagePattern config) EmptyString) then
        match regexp_Compile (MessagePattern config) with
        | inr err => Some err
        | inl _ => None
        end
      else None in
    match patternError with
    | Some err =>
        Some {| ConfigError.Field := "MessagePattern";
                ConfigError.Message :=
                  "Invalid regex pattern: " ++ Error err |}
    | None =>
        if negb (mapIndex validLogLevels
                          (strings_ToLowerAny (LogLevel config)))
        then
          Some {| ConfigError.Field := "LogLevel";
                  ConfigError.Message :=
                    "Log level must be one of: debug, info, warn, error" |}
        else None
    end.

End Config.

(* ===================================================================== *)
(** ** matcher.go: the construction of the matcher *)
(* ===================================================================== *)

Section Compile.

(** [regexp.Compile]: the compiled pattern, or the error of its syntax. *)
Variable regexp_Compile : string -> Regexp + error.

(** [NewPatternMatcher] *)
Definition NewPatternMatcher (pattern' : string)
  : option PatternMatcher * option error :=
  let pattern' :=
    if String.eqb pattern' EmptyString then ".*" else pattern' in
  match regexp_Compile pattern' with
  | inr err => (None, Some err)
  | inl compiledPattern => (Some {| pattern := compiledPattern |}, None)
  end.

End Compile.

(* ===================================================================== *)
(** ** Vocabulary of the further properties *)
(* ===================================================================== *)

(** The bytes GitHub allows in the name of an owner or a repository. *)
Definition nameByte (c : ascii) : bool :=
  isLetter c || isDigit c
  || Ascii.eqb c "-" || Ascii.eqb c "_" || Ascii.eqb c ".".

(** The URL of a pull request as GitHub writes it. *)
Definition pullRequestURL (owner repo digits : string) : string :=
  "https://github.com/" ++ owner ++ "/" ++ repo ++ "/pull/" ++ digits.

(** [pre] is empty or ends with white space: a word starts after it. *)
Fixpoint atBoundary (pre : string) : bool :=
  match pre with
  | EmptyString => true
  | String c EmptyString => posixSpace c
  | String _ pre' => atBoundary pre'
  end.

Definition noSpace (c : ascii) : bool := negb (posixSpace c).

(** The result ends the retry loop: the attempt succeeded, or its
    message holds a permanent-failure substring. *)
Definition final (r : ApprovalResult.t) : bool :=
  ApprovalResult.Success r || isPermanentError (ApprovalResult.Error r).

(** The three statuses [ApprovePR] gives a message of its own. *)
Definition statusPermanent (response : option github_Response) : bool :=
  match response with
  | Some resp =>
      (StatusCode resp =? 404)%Z || (StatusCode resp =? 403)%Z
      || (StatusCode resp =? 422)%Z
  | None => false
  end.

(** The delays of the waits of a trace, in order. *)
Fixpoint delays (tr : list Event) : list Z :=
  match tr with
  | [] => []
  | EvSelect d _ :: tr' => d :: delays tr'
  | _ :: tr' => delays tr'
  end.

(** The message [handleMessageEvent] builds from an event. *)
Definition messageOf (event : MessageEvent.t) : SlackMessage.t :=
  {| SlackMessage.Text := MessageEvent.Text event;
     SlackMessage.Channel := MessageEvent.Channel event;
     SlackMessage.User := MessageEvent.User event;
     SlackMessage.Timestamp := MessageEvent.TimeStamp event;
     SlackMessage.ThreadTS := MessageEvent.ThreadTimeStamp event |}.

(** The event is from the configured channel, if one is configured, and
    not from a bot. *)
Definition handled (sc : SlackClient) (event : MessageEvent.t) : bool :=
  (String.eqb (SlackChannelID (config sc)) EmptyString
   || String.eqb (MessageEvent.Channel event) (SlackChannelID (config sc)))
  && String.eqb (MessageEvent.BotID event) EmptyString.

(** The pull request an approval is requested for. *)
Definition requestTarget (req : ApprovalRequest.t) : string * string * Z :=
  (ApprovalRequest.Owner req, ApprovalRequest.Repository req,
   ApprovalRequest.PRNumber req).

(** The pull request a reference stands for once the defaults of the
    configuration fill in for a missing owner or repository. *)
Definition withDefaults (cfg : Configuration) (r : PRReference.t)
  : string * string * Z :=
  (if String.eqb (PRReference.Owner r) EmptyString
   then DefaultOwner cfg else PRReference.Owner r,
   if String.eqb (PRReference.Repository r) EmptyString
   then DefaultRepo cfg else PRReference.Repository r,
   PRReference.Number r).

Definition complete (target : string * string * Z) : bool :=
  let '(owner, repo, _) := target in nonEmpty owner && nonEmpty repo.

Definition referenceTarget (r : PRReference.t) : string * string * Z :=
  (PRReference.Owner r, PRReference.Repository r, PRReference.Number r).

(** A compiler that knows the default pattern only. *)
Definition compileDefault (source : string) : Regexp + error :=
  if String.eqb source ".*"
  then inl (compiled ".*" (Star (Cls notNewline)))
  else inr (errorString "error parsing regexp").

(** The event is a call that [processApproval] may make for the request:
    the pull request of the request is read or approved, the message of
    the request is reacted to, the clock is read, a wait elapses or is
    cancelled. *)
Definition concerns (req : ApprovalRequest.t) (e : Event) : Prop :=
  match e with
  | EvGet owner repo number _ => (owner, repo, number) = requestTarget req
  | EvCreateReview owner repo number event _ =>
      (owner, repo, number) = requestTarget req /\ event = "APPROVE"
  | EvAddReaction _ channel timestamp _ =>
      channel = ApprovalRequest.SourceChannel req /\
      option_map SlackMessage.Timestamp (ApprovalRequest.SourceMessage req)
      = Some timestamp
  | EvSelect _ _ | EvNow _ => True
  | EvGo _ => False
  end.

(** A lower-casing that leaves a text outside of ASCII as it is. *)
Definition keepText (s : string) : string := s.

(* ===================================================================== *)
(** ** Properties *)
(* ===================================================================== *)

(** *** The model on examples *)

Example prURLPattern_matches :
  regexp_FindAllStringSubmatch prURLPattern 3
    "see https://github.com/acme/widget/pull/42, http://github.com/a/b/pull/7x"
  = [ ["https://github.com/acme/widget/pull/42"; "acme"; "widget"; "42"];
      ["http://github.com/a/b/pull/7"; "a"; "b"; "7"] ].
Proof. reflexivity. Qed.

Example prNumberPattern_matches :
  regexp_FindAllStringSubmatch prNumberPattern 1
    "see #12, PR-34 PR 56 pr-7 PR #8 PR-  9 PR10"
  = [ ["#12"; "12"]; ["PR-34"; "34"]; ["PR 56"; "56"]; ["#8"; "8"];
      ["PR-  9"; "9"]; ["PR10"; "10"] ].
Proof. reflexivity. Qed.

Example strconv_Atoi_range :
  strconv_Atoi "9223372036854775807" = Some 9223372036854775807%Z /\
  strconv_Atoi "9223372036854775808" = None /\
  strconv_Atoi "007" = Some 7%Z /\
  strconv_Atoi "-12" = Some (-12)%Z /\
  strconv_Atoi "12a" = None /\
  strconv_Atoi "+" = None /\
  strconv_Atoi EmptyString = None.
Proof. repeat split; reflexivity. Qed.

Example url_Parse_examples :
  url_Parse "https://github.com/acme/widget/pull/42" =
  Some {| Scheme := "https"; Host := "github.com" |} /\
  url_Parse "HTTP://user:pw@GitHub.com:443/a/%41/pull/1?x#y" =
  Some {| Scheme := "http"; Host := "GitHub.com:443" |} /\
  url_Parse "https://github.com/acme/%zz/pull/42" = None /\
  url_Parse ":x" = None.
Proof. repeat split; reflexivity. Qed.

Example validateGitHubURL_examples :
  validateGitHubURL "https://github.com/acme/widget/pull/42" = None /\
  validateGitHubURL "http://github.com/acme/widget/pull/42" =
  Some (errorString "only HTTPS URLs are supported") /\
  validateGitHubURL "https://github.com/acme/%zz/pull/42" = Some url_Error /\
  validateGitHubURL "https://example.org/acme/widget/pull/42" = None.
Proof. repeat split; reflexivity. Qed.

Example ExtractPRReferences_url_wins :
  ExtractPRReferences "LGTM https://github.com/acme/widget/pull/42 (#42, #7)" =
  ([ {| PRReference.Owner := "acme"; PRReference.Repository := "widget";
        PRReference.Number := 42;
        PRReference.URL := "https://github.com/acme/widget/pull/42" |};
     bareReference 7 ], None).
Proof. reflexivity. Qed.

Example isPermanentError_examples :
  isPermanentError "PR #42 not found in acme/widget" = true /\
  isPermanentError "PR #42 cannot be approved (already merged or closed)"
  = true /\
  isPermanentError "failed to approve PR #42: 401 Bad credentials" = true /\
  isPermanentError "failed to approve PR #42: 503 Service Unavailable"
  = false /\
  isPermanentError "failed to approve PR #42: Not Found" = false.
Proof. repeat split; reflexivity. Qed.

(** *** Strings *)

Lemma append_assoc (a b c : string) : (a ++ b) ++ c = a ++ (b ++ c).
Proof. induction a as [|x a IH]; simpl; [reflexivity|now rewrite IH]. Qed.

Lemma length_append (a b : string) :
  String.length (a ++ b) = String.length a + String.length b.
Proof. induction a as [|x a IH]; simpl; [reflexivity|now rewrite IH]. Qed.

Lemma take_append (a b : string) : take (String.length a) (a ++ b) = a.
Proof. induction a as [|x a IH]; simpl; [now destruct b|now rewrite IH]. Qed.

Lemma drop_append (a b : string) : drop (String.length a) (a ++ b) = b.
Proof. induction a as [|x a IH]; simpl; [reflexivity|exact IH]. Qed.

Lemma consumed_append (a b : string) : consumed (a ++ b) b = a.
Proof.
  unfold consumed. rewrite length_append.
  replace (String.length a + String.length b - String.length b)
    with (String.length a) by lia.
  apply take_append.
Qed.

Lemma takeWhile_dropWhile (f : ascii -> bool) (s : string) :
  takeWhile f s ++ dropWhile f s = s.
Proof.
  induction s as [|c s IH]; simpl; [reflexivity|].
  destruct (f c); simpl; [now rewrite IH|reflexivity].
Qed.

Lemma consumed_dropWhile (f : ascii -> bool) (s : string) :
  consumed s (dropWhile f s) = takeWhile f s.
Proof.
  rewrite <- (takeWhile_dropWhile f s) at 1. apply consumed_append.
Qed.

Lemma takeWhile_all (f : ascii -> bool) (s : string) :
  forallb_string f (takeWhile f s) = true.
Proof.
  unfold forallb_string. apply String.eqb_eq.
  induction s as [|c s IH]; simpl; [reflexivity|].
  destruct (f c) eqn:E; simpl; [|reflexivity]. now rewrite E, IH.
Qed.

Lemma trimPrefix_append (p s s' : string) :
  trimPrefix p s = Some s' -> s = p ++ s'.
Proof.
  revert s. induction p as [|a p IH]; intros s; simpl.
  - now intros [= ->].
  - destruct s as [|b s]; [discriminate|].
    destruct (Ascii.eqb_spec a b) as [->|]; [|discriminate].
    intros H. now rewrite (IH _ H).
Qed.

(** *** The matcher on the shapes the two patterns are made of *)

Section ExecLemmas.
Context {R : Type}.
Implicit Types (k : @Cont R) (s : string) (caps : Caps).

Lemma exec_Lit (p : string) :
  forall s caps k,
    exec (Lit p) s caps k =
    match trimPrefix p s with
    | Some s' => k s' caps
    | None => None
    end.
Proof.
  induction p as [|a p IH]; intros s caps k; simpl; [reflexivity|].
  destruct s as [|b s]; [reflexivity|].
  destruct (Ascii.eqb a b); [apply IH|reflexivity].
Qed.

Lemma exec_Cls_cons (p : ascii -> bool) (a : ascii) s caps k :
  exec (Cls p) (String a s) caps k = if p a then k s caps else None.
Proof. reflexivity. Qed.

(** An optional byte is taken when it is there, provided that what
    follows cannot start with it. *)
Lemma exec_Opt_Chr (c : ascii) s caps k :
  (forall s', k (String c s') caps = None) ->
  exec (Opt (Chr c)) s caps k = k (skipByte c s) caps.
Proof.
  intros Hk. simpl. destruct s as [|a s]; [reflexivity|]. simpl.
  destruct (Ascii.eqb_spec c a) as [<-|]; [|reflexivity].
  destruct (k s caps); [reflexivity|apply Hk].
Qed.

(** A starred class takes the longest run of bytes of the class when
    the continuation accepts what follows the run, or when it rejects
    every input that starts with a byte of the class. *)
Lemma starLoop_Cls (p : ascii -> bool) k caps :
  forall n s,
    String.length s <= n ->
    (k (dropWhile p s) caps <> None \/
     forall a s', p a = true -> k (String a s') caps = None) ->
    starLoop (exec (Cls p)) k n s caps = k (dropWhile p s) caps.
Proof.
  induction n as [|n IH]; intros s Hn Hk.
  - destruct s; [reflexivity|simpl in Hn; lia].
  - destruct s as [|a s]; [reflexivity|]. simpl in Hn.
    cbn [starLoop dropWhile]. cbn [dropWhile] in Hk.
    rewrite exec_Cls_cons.
    destruct (p a) eqn:Ha; [|reflexivity].
    cbn [String.length].
    rewrite (proj2 (Nat.ltb_lt _ _) (Nat.lt_succ_diag_r _)).
    rewrite (IH s) by (try lia; exact Hk).
    destruct (k (dropWhile p s) caps) eqn:E; [reflexivity|].
    destruct Hk as [Hk|Hk]; [congruence|]. now apply Hk.
Qed.

Lemma exec_Star_Cls (p : ascii -> bool) s caps k :
  (k (dropWhile p s) caps <> None \/
   forall a s', p a = true -> k (String a s') caps = None) ->
  exec (Star (Cls p)) s caps k = k (dropWhile p s) caps.
Proof. intros Hk. simpl. now apply starLoop_Cls. Qed.

Lemma exec_Plus_Cls (p : ascii -> bool) s caps k :
  (k (dropWhile p s) caps <> None \/
   forall a s', p a = true -> k (String a s') caps = None) ->
  exec (Plus (Cls p)) s caps k =
  if nonEmpty (takeWhile p s) then k (dropWhile p s) caps else None.
Proof.
  intros Hk. unfold Plus. cbn [exec].
  destruct s as [|a s]; [reflexivity|]. cbn [takeWhile dropWhile] in *.
  destruct (p a) eqn:Ha; [|reflexivity].
  cbn [nonEmpty]. now apply starLoop_Cls.
Qed.
End ExecLemmas.

Lemma exec_Cat {R : Type} (a b : re) (s : string) (caps : Caps) (k : @Cont R) :
  exec (Cat a b) s caps k = exec a s caps (fun s' caps' => exec b s' caps' k).
Proof. reflexivity. Qed.

Lemma exec_Cap {R : Type} (i : nat) (a : re) (s : string) (caps : Caps)
      (k : @Cont R) :
  exec (Cap i a) s caps k =
  exec a s caps (fun s' caps' => k s' ((i, consumed s s') :: caps')).
Proof. reflexivity. Qed.

Lemma exec_Chr {R : Type} (c : ascii) (s : string) (caps : Caps) (k : @Cont R) :
  exec (Chr c) s caps k =
  match s with
  | String a s' => if Ascii.eqb c a then k s' caps else None
  | EmptyString => None
  end.
Proof. now destruct s. Qed.

Lemma notSpaceSlash_slash (a : ascii) :
  notSpaceSlash a = true -> Ascii.eqb "/" a = false.
Proof.
  intros H. destruct (Ascii.eqb_spec "/" a) as [<-|]; [|reflexivity].
  discriminate H.
Qed.

(** *** The two patterns *)

(** The matcher on [prURLPattern] computes [prURLMatch]: no choice the
    pattern leaves (the optional [s], the length of the three runs) can
    be made in a second way. *)
Lemma matchAt_prURLPattern (s : string) :
  matchAt prURLPattern s = prURLMatch s.
Proof.
  unfold matchAt, prURLPattern, prURLMatch.
  rewrite exec_Cat, exec_Lit.
  destruct (trimPrefix "http" s) as [s1|]; [|reflexivity].
  rewrite exec_Cat, exec_Opt_Chr by reflexivity.
  rewrite exec_Cat, exec_Lit.
  destruct (trimPrefix "://github.com/" (skipByte "s" s1)) as [s2|];
    [|reflexivity].
  rewrite exec_Cat, exec_Cap, exec_Plus_Cls.
  2:{ right. intros a s' Ha. rewrite exec_Cat, exec_Chr.
      now rewrite (notSpaceSlash_slash a Ha). }
  destruct (nonEmpty (takeWhile notSpaceSlash s2)); [|reflexivity].
  rewrite consumed_dropWhile.
  rewrite exec_Cat, exec_Chr.
  destruct (dropWhile notSpaceSlash s2) as [|c s3]; [reflexivity|].
  destruct (Ascii.eqb_spec "/" c) as [<-|Hc].
  2:{ destruct c as [[] [] [] [] [] [] [] []]; try reflexivity. now elim Hc. }
  rewrite exec_Cat, exec_Cap, exec_Plus_Cls.
  2:{ right. intros a s' Ha. rewrite exec_Cat, exec_Lit. cbn [trimPrefix].
      now rewrite (notSpaceSlash_slash a Ha). }
  destruct (nonEmpty (takeWhile notSpaceSlash s3)); [|reflexivity].
  rewrite consumed_dropWhile.
  rewrite exec_Cat, exec_Lit.
  destruct (trimPrefix "/pull/" (dropWhile notSpaceSlash s3)) as [s4|];
    [|reflexivity].
  rewrite exec_Cap, exec_Plus_Cls by (left; discriminate).
  now rewrite consumed_dropWhile.
Qed.

Lemma perlSpace_not_digit (a : ascii) : perlSpace a = true -> isDigit a = false.
Proof.
  unfold perlSpace, isDigit. intros H.
  repeat (apply orb_true_iff in H as [H|H]);
    apply N.eqb_eq in H; rewrite H; reflexivity.
Qed.

(** What follows the marker in [prNumberPattern]: white space, then the
    digits, captured. *)
Lemma exec_number_tail {R : Type} (s : string) (caps : Caps) (k : @Cont R) :
  (forall s' caps', k s' caps' <> None) ->
  exec (Star (Cls perlSpace) @ Cap 1 (Plus (Cls isDigit)))%re s caps k =
  let s2 := dropWhile perlSpace s in
  if nonEmpty (takeWhile isDigit s2)
  then k (dropWhile isDigit s2) ((1, takeWhile isDigit s2) :: caps)
  else None.
Proof.
  intros Hk. rewrite exec_Cat, exec_Star_Cls.
  2:{ right. intros a s' Ha. rewrite exec_Cap.
      unfold Plus. rewrite exec_Cat, exec_Cls_cons.
      now rewrite (perlSpace_not_digit a Ha). }
  rewrite exec_Cap, exec_Plus_Cls by (left; apply Hk).
  cbv zeta. now rewrite consumed_dropWhile.
Qed.

Lemma exec_Alt {R : Type} (a b : re) (s : string) (caps : Caps) (k : @Cont R) :
  exec (Alt a b) s caps k =
  match exec a s caps k with
  | Some x => Some x
  | None => exec b s caps k
  end.
Proof. reflexivity. Qed.

Lemma matchAt_prNumberPattern (s : string) :
  matchAt prNumberPattern s = prNumberMatch s.
Proof.
  unfold matchAt, prNumberPattern, prNumberMatch.
  rewrite exec_Cat, exec_Alt, exec_Chr.
  destruct s as [|c s]; [reflexivity|].
  cbn [trimPrefix].
  destruct (Ascii.eqb_spec "#" c) as [<-|Hc].
  - rewrite exec_number_tail by discriminate. cbv zeta.
    destruct (nonEmpty _); [reflexivity|].
    now rewrite exec_Cat, exec_Lit.
  - rewrite exec_Cat, exec_Lit. fold (trimPrefix "PR" (String c s)).
    destruct (trimPrefix "PR" (String c s)) as [s1|]; [|reflexivity].
    cbn [option_map].
    rewrite exec_Opt_Chr.
    + now rewrite exec_number_tail by discriminate.
    + intros s'. now rewrite exec_number_tail by discriminate.
Qed.

Lemma skipByte_shape (c : ascii) (s : string) :
  exists sopt,
    (sopt = EmptyString \/ sopt = String c EmptyString) /\
    s = sopt ++ skipByte c s.
Proof.
  destruct s as [|a s]; simpl.
  - exists EmptyString. auto.
  - destruct (Ascii.eqb_spec c a) as [<-|].
    + exists (String c EmptyString). auto.
    + exists EmptyString. auto.
Qed.

Lemma nonEmpty_true (s : string) : nonEmpty s = true <-> s <> EmptyString.
Proof. destruct s; simpl; split; congruence. Qed.

(** A match of the URL pattern is the scheme http or https, the host
    github.com as written, an owner, a repository, and a number. *)
Lemma prURLMatch_shape (s : string) (m : Caps * string) :
  prURLMatch s = Some m ->
  exists sopt owner repo digits,
    (sopt = EmptyString \/ sopt = "s") /\
    owner <> EmptyString /\ repo <> EmptyString /\ digits <> EmptyString /\
    forallb_string isDigit digits = true /\
    s = ("http" ++ sopt ++ "://github.com/" ++ owner ++ "/" ++ repo
         ++ "/pull/" ++ digits) ++ snd m /\
    submatches 3 s m =
    ["http" ++ sopt ++ "://github.com/" ++ owner ++ "/" ++ repo
     ++ "/pull/" ++ digits; owner; repo; digits].
Proof.
  unfold prURLMatch.
  destruct (trimPrefix "http" s) as [s1|] eqn:E1; [|discriminate].
  destruct (trimPrefix "://github.com/" (skipByte "s" s1)) as [s2|] eqn:E2;
    [|discriminate].
  cbv zeta.
  destruct (nonEmpty (takeWhile notSpaceSlash s2)) eqn:Ho; [|discriminate].
  destruct (dropWhile notSpaceSlash s2) as [|c s3] eqn:E3; [discriminate|].
  destruct (Ascii.eqb_spec c "/") as [->|Hc].
  2:{ destruct c as [[] [] [] [] [] [] [] []]; try discriminate. now elim Hc. }
  destruct (nonEmpty (takeWhile notSpaceSlash s3)) eqn:Hr; [|discriminate].
  destruct (trimPrefix "/pull/" (dropWhile notSpaceSlash s3)) as [s4|] eqn:E4;
    [|discriminate].
  destruct (nonEmpty (takeWhile isDigit s4)) eqn:Hd; [|discriminate].
  intros [= <-]. cbn [snd fst].
  destruct (skipByte_shape "s" s1) as (sopt & Hsopt & Hs1).
  exists sopt, (takeWhile notSpaceSlash s2), (takeWhile notSpaceSlash s3),
         (takeWhile isDigit s4).
  apply nonEmpty_true in Ho, Hr, Hd.
  assert (Hs : s = ("http" ++ sopt ++ "://github.com/"
                    ++ takeWhile notSpaceSlash s2 ++ "/"
                    ++ takeWhile notSpaceSlash s3 ++ "/pull/"
                    ++ takeWhile isDigit s4) ++ dropWhile isDigit s4).
  { apply trimPrefix_append in E1, E2, E4.
    rewrite E1, Hs1, E2.
    rewrite <- (takeWhile_dropWhile notSpaceSlash s2) at 1. rewrite E3.
    rewrite <- (takeWhile_dropWhile notSpaceSlash s3) at 1. rewrite E4.
    rewrite <- (takeWhile_dropWhile isDigit s4) at 1.
    repeat first [rewrite append_assoc | progress cbn [append]].
    reflexivity. }
  repeat split; auto using takeWhile_all.
  unfold submatches. cbn [snd fst seq map getCap Nat.eqb].
  rewrite Hs at 1. now rewrite consumed_append.
Qed.

(** A match of the number pattern is a marker ([#], [PR] or [PR-]),
    white space, and a number. *)
Lemma prNumberMatch_shape (s : string) (m : Caps * string) :
  prNumberMatch s = Some m ->
  exists marker spaces digits,
    (marker = "#" \/ marker = "PR" \/ marker = "PR-") /\
    forallb_string perlSpace spaces = true /\
    digits <> EmptyString /\
    forallb_string isDigit digits = true /\
    s = (marker ++ spaces ++ digits) ++ snd m /\
    submatches 1 s m = [marker ++ spaces ++ digits; digits].
Proof.
  unfold prNumberMatch.
  assert (Hmarker :
    forall s1,
      match trimPrefix "#" s with
      | Some s1 => Some s1
      | None => option_map (skipByte "-") (trimPrefix "PR" s)
      end = Some s1 ->
      exists marker,
        (marker = "#" \/ marker = "PR" \/ marker = "PR-") /\ s = marker ++ s1).
  { intros s1.
    destruct (trimPrefix "#" s) as [s'|] eqn:E.
    - intros [= ->]. apply trimPrefix_append in E. exists "#". auto.
    - destruct (trimPrefix "PR" s) as [s'|] eqn:E'; [|discriminate].
      intros [= <-]. apply trimPrefix_append in E'.
      destruct (skipByte_shape "-" s') as (sopt & [->| ->] & Hs');
        cbn [append] in Hs'.
      + exists "PR". rewrite <- Hs'. auto.
      + exists "PR-". split; [auto|]. rewrite E'. rewrite Hs' at 1.
        reflexivity. }
  destruct (match trimPrefix "#" s with
            | Some s1 => Some s1
            | None => option_map (skipByte "-") (trimPrefix "PR" s)
            end) as [s1|]; [|discriminate].
  destruct (Hmarker s1 eq_refl) as (marker & Hm & Hs). clear Hmarker.
  cbv zeta.
  destruct (nonEmpty (takeWhile isDigit (dropWhile perlSpace s1))) eqn:Hd;
    [|discriminate].
  intros [= <-]. cbn [snd fst].
  exists marker, (takeWhile perlSpace s1),
         (takeWhile isDigit (dropWhile perlSpace s1)).
  apply nonEmpty_true in Hd.
  assert (Hs' : s = (marker ++ takeWhile perlSpace s1
                     ++ takeWhile isDigit (dropWhile perlSpace s1))
                    ++ dropWhile isDigit (dropWhile perlSpace s1)).
  { rewrite !append_assoc, !takeWhile_dropWhile. exact Hs. }
  repeat split; auto using takeWhile_all.
  unfold submatches. cbn [snd fst seq map getCap Nat.eqb].
  rewrite Hs' at 1. now rewrite consumed_append.
Qed.

(** *** [url.Parse] on the matches of the URL pattern *)

(** The scheme of a parsed URL is the one [getScheme] splits off, in
    lower case. *)
Lemma parse_Scheme (rawURL : string) (u : url_URL) :
  parse rawURL = Some u ->
  rawURL <> "*" ->
  exists scheme rest,
    getScheme rawURL = SchemeOk scheme rest /\
    Scheme u = strings_ToLower scheme.
Proof.
  unfold parse. intros H Hstar.
  destruct (stringContainsCTLByte rawURL); [discriminate|].
  destruct (String.eqb_spec rawURL "*"); [contradiction|].
  destruct (getScheme rawURL) as [scheme rest|]; [|discriminate].
  exists scheme, rest. split; [reflexivity|].
  repeat match type of H with
         | context [strings_Cut ?a ?c] =>
             destruct (strings_Cut a c) as [[? ?] ?]
         | context [parseAuthority ?a] => destruct (parseAuthority a)
         | context [unescape ?a ?m] => destruct (unescape a m)
         | context [if ?b then _ else _] => destruct b
         end;
    try discriminate; simpl in H; now injection H as <-.
Qed.

Lemma url_Parse_parse (rawURL : string) (u : url_URL) :
  url_Parse rawURL = Some u ->
  parse (fst (fst (strings_Cut rawURL "#"))) = Some u.
Proof.
  unfold url_Parse.
  destruct (strings_Cut rawURL "#") as [[before frag] found]. cbn [fst].
  destruct (parse before) as [url|]; [|discriminate].
  destruct frag; [auto|].
  destruct (unescape _ encodeFragment); [|discriminate].
  auto.
Qed.

(** A URL the pattern matched parses, if at all, with the scheme it is
    written with. *)
Lemma url_Parse_scheme (sopt rest : string) (u : url_URL) :
  sopt = EmptyString \/ sopt = "s" ->
  url_Parse ("http" ++ sopt ++ "://github.com/" ++ rest) = Some u ->
  Scheme u = "http" ++ sopt.
Proof.
  intros Hs H. apply url_Parse_parse in H.
  apply parse_Scheme in H as (scheme & r & Hg & ->);
    destruct Hs as [-> | ->]; cbn in *;
    destruct (strings_Cut rest "#") as [[before frag] found];
    cbn in *; try discriminate;
    now injection Hg as <- _.
Qed.

(** *** All matches of a text *)

(** Every element of the result of [FindAllStringSubmatch] is a match
    of the pattern at some position of the text. *)
Lemma findAllFrom_In (r : re) (ngroups : nat) (m : list string) :
  forall s skip,
    In m (findAllFrom r ngroups skip s) ->
    exists s' mm, matchAt r s' = Some mm /\ m = submatches ngroups s' mm.
Proof.
  induction s as [|c s IH]; intros skip Hin.
  - destruct skip; [|contradiction]. simpl in Hin.
    destruct (matchAt r EmptyString) as [mm|] eqn:E; [|contradiction].
    destruct Hin as [<-|[]]. eauto.
  - destruct skip as [|skip]; [|exact (IH _ Hin)].
    cbn [findAllFrom] in Hin.
    destruct (matchAt r (String c s)) as [mm|] eqn:E; [|exact (IH _ Hin)].
    destruct Hin as [<-|Hin]; [eauto|exact (IH _ Hin)].
Qed.

(** Every URL match has the four strings of the pattern: the URL with
    github.com as host, the owner, the repository, the digits. *)
Lemma urlMatches_shape (text : string) (m : list string) :
  In m (regexp_FindAllStringSubmatch prURLPattern 3 text) ->
  exists sopt owner repo digits,
    (sopt = EmptyString \/ sopt = "s") /\
    owner <> EmptyString /\ repo <> EmptyString /\ digits <> EmptyString /\
    forallb_string isDigit digits = true /\
    m = ["http" ++ sopt ++ "://github.com/" ++ owner ++ "/" ++ repo
         ++ "/pull/" ++ digits; owner; repo; digits].
Proof.
  intros Hin. apply findAllFrom_In in Hin as (s' & mm & Hm & ->).
  rewrite matchAt_prURLPattern in Hm.
  apply prURLMatch_shape in Hm
    as (sopt & owner & repo & digits & H1 & H2 & H3 & H4 & H5 & _ & H7).
  exists sopt, owner, repo, digits. auto 10.
Qed.

(** *** The two loops of [ExtractPRReferences] *)

Lemma validateGitHubURL_scheme (sopt rest : string) :
  sopt = EmptyString \/ sopt = "s" ->
  validateGitHubURL ("http" ++ sopt ++ "://github.com/" ++ rest) = None <->
  sopt = "s" /\
  url_Parse ("http" ++ sopt ++ "://github.com/" ++ rest) <> None.
Proof.
  intros Hs. unfold validateGitHubURL.
  destruct (url_Parse ("http" ++ sopt ++ "://github.com/" ++ rest))
    as [u|] eqn:E.
  - rewrite (url_Parse_scheme sopt rest u Hs E).
    destruct Hs as [-> | ->]; cbn.
    + split; [discriminate|intros [? _]; discriminate].
    + destruct (negb (strings_EqualFold (Host u) "github.com"));
        (split; [intros _; split; [reflexivity|discriminate]|reflexivity]).
  - split; [discriminate|intros [_ H]; congruence].
Qed.

Lemma urlStep_app (references : list PRReference.t) (m : list string) :
  urlStep references m = (references ++ urlStep [] m)%list.
Proof.
  unfold urlStep.
  destruct m as [|m0 [|m1 [|m2 [|m3 [|]]]]]; try now rewrite app_nil_r.
  destruct (strconv_Atoi m3); [|now rewrite app_nil_r].
  destruct (validateGitHubURL m0); [now rewrite app_nil_r|reflexivity].
Qed.

Lemma fold_urlStep (ms : list (list string)) :
  forall references,
    fold_left urlStep ms references =
    (references ++ flat_map (urlStep []) ms)%list.
Proof.
  induction ms as [|m ms IH]; intros references; simpl.
  - now rewrite app_nil_r.
  - now rewrite IH, urlStep_app, <- app_assoc.
Qed.

Lemma alreadyExists_numbers (references : list PRReference.t) (n : Z) :
  alreadyExists references n =
  existsb (Z.eqb n) (map PRReference.Number references).
Proof.
  unfold alreadyExists. induction references as [|r rs IH]; simpl;
    [reflexivity|].
  now rewrite IH, Z.eqb_sym.
Qed.

Lemma numberStep_bareNumber (references : list PRReference.t)
      (m : list string) :
  numberStep references m =
  (references ++
   map bareReference
       (firstOccurrences (map PRReference.Number references)
                         (bareNumber m)))%list.
Proof.
  unfold numberStep, bareNumber.
  destruct m as [|m0 [|m1 [|]]]; simpl; try now rewrite app_nil_r.
  destruct (strconv_Atoi m1) as [n|]; simpl; [|now rewrite app_nil_r].
  rewrite alreadyExists_numbers.
  destruct (existsb (Z.eqb n) _); simpl; [now rewrite app_nil_r|reflexivity].
Qed.

Lemma firstOccurrences_app (numbers numbers' : list Z) :
  forall seen,
    firstOccurrences seen (numbers ++ numbers') =
    (firstOccurrences seen numbers ++
     firstOccurrences (seen ++ firstOccurrences seen numbers) numbers')%list.
Proof.
  induction numbers as [|n ns IH]; intros seen; simpl.
  - now rewrite app_nil_r.
  - destruct (existsb (Z.eqb n) seen); [apply IH|].
    simpl. now rewrite IH, <- app_assoc.
Qed.

Lemma fold_numberStep (ms : list (list string)) :
  forall references,
    fold_left numberStep ms references =
    (references ++
     map bareReference
         (firstOccurrences (map PRReference.Number references)
                           (flat_map bareNumber ms)))%list.
Proof.
  induction ms as [|m ms IH]; intros references; simpl.
  - now rewrite app_nil_r.
  - rewrite IH, numberStep_bareNumber, firstOccurrences_app.
    rewrite map_app, map_map. cbn [bareReference PRReference.Number].
    rewrite map_id, map_app, <- app_assoc. reflexivity.
Qed.

Lemma firstOccurrences_In (numbers : list Z) (n : Z) :
  forall seen,
    In n (firstOccurrences seen numbers) <-> In n numbers /\ ~ In n seen.
Proof.
  induction numbers as [|x xs IH]; intros seen; simpl.
  - tauto.
  - destruct (existsb (Z.eqb x) seen) eqn:E.
    + apply existsb_exists in E as (y & Hy & Hxy).
      apply Z.eqb_eq in Hxy. subst y. rewrite IH.
      split; [tauto|]. intros [[->|H] Hn]; tauto.
    + assert (Hx : ~ In x seen).
      { intros Hin.
        assert (existsb (Z.eqb x) seen = true); [|congruence].
        apply existsb_exists. exists x. split; [exact Hin|apply Z.eqb_refl]. }
      simpl. rewrite IH, in_app_iff. simpl.
      destruct (Z.eq_dec x n) as [->|Hne]; [tauto|].
      split.
      * intros [H|[H Hn]]; [contradiction|tauto].
      * intros [[H|H] Hn]; [contradiction|]. right. tauto.
Qed.

Lemma firstOccurrences_NoDup (numbers : list Z) :
  forall seen, NoDup (firstOccurrences seen numbers).
Proof.
  induction numbers as [|x xs IH]; intros seen; simpl; [constructor|].
  destruct (existsb (Z.eqb x) seen); [apply IH|].
  constructor; [|apply IH].
  rewrite firstOccurrences_In, in_app_iff. simpl. tauto.
Qed.

(** The result of [ExtractPRReferences]: the references of the URL
    matches, then the bare numbers that no reference carries yet. *)
Lemma ExtractPRReferences_merge (text : string) :
  ExtractPRReferences text =
  ((urlReferences text ++
    map bareReference
        (firstOccurrences (map PRReference.Number (urlReferences text))
                          (bareNumbers text)))%list,
   None).
Proof.
  unfold ExtractPRReferences, urlReferences, bareNumbers.
  now rewrite fold_urlStep, fold_numberStep.
Qed.

(** *** Claims on the extraction of references *)

Lemma append_inj_l (p a b : string) : p ++ a = p ++ b -> a = b.
Proof. induction p as [|c p IH]; simpl; [auto|]. intros [= H]. auto. Qed.

Lemma urlStep_In (m : list string) (r : PRReference.t) :
  In r (urlStep [] m) ->
  exists digits,
    m = [PRReference.URL r; PRReference.Owner r; PRReference.Repository r;
         digits] /\
    strconv_Atoi digits = Some (PRReference.Number r) /\
    validateGitHubURL (PRReference.URL r) = None.
Proof.
  unfold urlStep.
  destruct m as [|m0 [|m1 [|m2 [|m3 [|]]]]]; try contradiction.
  destruct (strconv_Atoi m3) as [n|] eqn:En; [|contradiction].
  destruct (validateGitHubURL m0) eqn:Ev; [contradiction|].
  intros [<-|[]]. simpl. eauto.
Qed.

Lemma ExtractPRReferences_In (text : string) (r : PRReference.t) :
  In r (fst (ExtractPRReferences text)) <->
  In r (urlReferences text) \/
  (r = bareReference (PRReference.Number r) /\
   In (PRReference.Number r) (bareNumbers text) /\
   ~ In (PRReference.Number r)
        (map PRReference.Number (urlReferences text))).
Proof.
  rewrite ExtractPRReferences_merge. cbn [fst].
  rewrite in_app_iff, in_map_iff. split.
  - intros [H|(n & <- & H)]; [now left|right].
    apply firstOccurrences_In in H. simpl. auto.
  - intros [H|(Hr & H)]; [now left|right].
    exists (PRReference.Number r). split; [auto|].
    now apply firstOccurrences_In.
Qed.

(** A reference of a URL match: the match it comes from, with the
    scheme https, and what [url.Parse] and [strconv.Atoi] said. *)
Lemma urlReferences_In (text : string) (r : PRReference.t) :
  In r (urlReferences text) ->
  exists digits,
    In [PRReference.URL r; PRReference.Owner r;
        PRReference.Repository r; digits]
       (regexp_FindAllStringSubmatch prURLPattern 3 text) /\
    PRReference.URL r =
    "https://github.com/" ++ PRReference.Owner r ++ "/"
    ++ PRReference.Repository r ++ "/pull/" ++ digits /\
    PRReference.Owner r <> EmptyString /\
    PRReference.Repository r <> EmptyString /\
    strconv_Atoi digits = Some (PRReference.Number r) /\
    url_Parse (PRReference.URL r) <> None.
Proof.
  intros Hin. unfold urlReferences in Hin.
  apply in_flat_map in Hin as (m & Hm & Hr).
  apply urlStep_In in Hr as (digits & -> & Hn & Hv).
  destruct (urlMatches_shape text _ Hm)
    as (sopt & owner & repo & ds & Hs & Ho & Hrepo & Hd & _ & E).
  injection E as E0 E1 E2 E3. subst owner repo ds.
  rewrite E0 in Hv. apply (validateGitHubURL_scheme sopt _ Hs) in Hv.
  destruct Hv as [Hsopt Hp]. subst sopt.
  exists digits. rewrite E0.
  split; [now rewrite <- E0|]. split; [reflexivity|]. auto.
Qed.

(** C5, as the code has it.  A candidate is a match of the pattern,
    whose host is github.com in lower case.  Every reference with a
    source URL that is returned has the scheme https and carries the
    owner, the repository and the number of its URL.  A candidate
    yields its fully populated reference exactly when it starts with
    https, [url.Parse] accepts it and its digits fit an int; so an http
    candidate yields none.  A URL whose host is written GitHub.com is
    no candidate and yields nothing. *)
Theorem url_reference_exactly_when_https (text : string) :
  (forall m,
      In m (regexp_FindAllStringSubmatch prURLPattern 3 text) ->
      exists sopt owner repo digits,
        (sopt = EmptyString \/ sopt = "s") /\
        m = ["http" ++ sopt ++ "://github.com/" ++ owner ++ "/" ++ repo
             ++ "/pull/" ++ digits; owner; repo; digits]) /\
  (forall r,
      In r (fst (ExtractPRReferences text)) ->
      PRReference.URL r <> EmptyString ->
      exists digits,
        PRReference.URL r =
        "https://github.com/" ++ PRReference.Owner r ++ "/"
        ++ PRReference.Repository r ++ "/pull/" ++ digits /\
        PRReference.Owner r <> EmptyString /\
        PRReference.Repository r <> EmptyString /\
        strconv_Atoi digits = Some (PRReference.Number r)) /\
  (forall url owner repo digits,
      In [url; owner; repo; digits]
         (regexp_FindAllStringSubmatch prURLPattern 3 text) ->
      (exists number,
          In {| PRReference.Owner := owner;
                PRReference.Repository := repo;
                PRReference.Number := number;
                PRReference.URL := url |}
             (fst (ExtractPRReferences text)))
      <->
      (strings_HasPrefix url "https://" = true /\
       url_Parse url <> None /\
       strconv_Atoi digits <> None)) /\
  fst (ExtractPRReferences "https://GitHub.com/acme/widget/pull/42") = [].
Proof.
  pose proof (urlReferences_In text) as Hurl.
  split; [|split; [|split]].
  - intros m Hm.
    destruct (urlMatches_shape text m Hm)
      as (sopt & owner & repo & digits & Hs & _ & _ & _ & _ & E).
    exists sopt, owner, repo, digits. auto.
  - intros r Hin Hnonempty.
    apply ExtractPRReferences_In in Hin as [Hin|(Hr & _)].
    + destruct (Hurl r Hin) as (digits & _ & H). exists digits. tauto.
    + rewrite Hr in Hnonempty. now elim Hnonempty.
  - intros url owner repo digits Hm.
    destruct (urlMatches_shape text _ Hm)
      as (sopt & owner' & repo' & ds & Hs & Ho & Hrepo & Hd & _ & E).
    injection E as E0 E1 E2 E3. subst owner' repo' ds.
    split.
    + intros (number & Hin).
      apply ExtractPRReferences_In in Hin as [Hin|(Hr & _)].
      * destruct (Hurl _ Hin) as (digits' & _ & Hu & _ & _ & Hn & Hp).
        cbn [PRReference.URL PRReference.Owner PRReference.Repository
             PRReference.Number] in *.
        rewrite E0 in Hu.
        destruct Hs as [-> | ->]; [discriminate Hu|].
        apply (append_inj_l "https://github.com/") in Hu.
        apply append_inj_l in Hu. apply (append_inj_l "/") in Hu.
        apply append_inj_l in Hu. apply (append_inj_l "/pull/") in Hu.
        subst digits'. rewrite Hn. rewrite E0 at 1.
        repeat split; [exact Hp|discriminate].
      * injection Hr as _ _ Hu. rewrite E0 in Hu. discriminate Hu.
    + intros (Hprefix & Hp & Hn).
      destruct (strconv_Atoi digits) as [number|] eqn:En; [|congruence].
      exists number. apply ExtractPRReferences_In. left.
      unfold urlReferences. apply in_flat_map.
      exists [url; owner; repo; digits]. split; [exact Hm|].
      unfold urlStep. rewrite En.
      assert (Hv : validateGitHubURL url = None).
      { rewrite E0 in *. apply validateGitHubURL_scheme; [exact Hs|].
        split; [|exact Hp].
        destruct Hs as [-> | ->]; [discriminate Hprefix|reflexivity]. }
      rewrite Hv. now left.
  - reflexivity.
Qed.

Lemma url_reference_exactly_when_https_witness :
  In {| PRReference.Owner := "acme";
        PRReference.Repository := "widget";
        PRReference.Number := 42;
        PRReference.URL := "https://github.com/acme/widget/pull/42" |}
     (fst (ExtractPRReferences "LGTM https://github.com/acme/widget/pull/42"))
  /\ PRReference.URL
       {| PRReference.Owner := "acme";
          PRReference.Repository := "widget";
          PRReference.Number := 42;
          PRReference.URL := "https://github.com/acme/widget/pull/42" |}
     <> EmptyString
  /\ exists digits,
      "https://github.com/acme/widget/pull/42" =
      "https://github.com/" ++ "acme" ++ "/" ++ "widget" ++ "/pull/" ++ digits
      /\ strconv_Atoi digits = Some 42%Z.
Proof.
  assert (Hin :
    In {| PRReference.Owner := "acme";
          PRReference.Repository := "widget";
          PRReference.Number := 42;
          PRReference.URL := "https://github.com/acme/widget/pull/42" |}
       (fst (ExtractPRReferences
               "LGTM https://github.com/acme/widget/pull/42"))).
  { vm_compute. now left. }
  split; [exact Hin|]. split; [discriminate|].
  destruct (url_reference_exactly_when_https
              "LGTM https://github.com/acme/widget/pull/42")
    as (_ & H & _ & _).
  destruct (H _ Hin ltac:(discriminate)) as (digits & Hu & _ & _ & Hn).
  exists digits. split; [exact Hu|exact Hn].
Defined.

(** C5 as stated fails: the host GitHub.com is not accepted, the
    pattern matches github.com in lower case only. *)
Lemma mixed_case_host_is_not_extracted :
  strings_EqualFold "GitHub.com" "github.com" = true /\
  ExtractPRReferences "https://GitHub.com/acme/widget/pull/42" = ([], None).
Proof. split; reflexivity. Qed.

(** C7, as the code has it.  The result is the references of the URL
    matches, every accepted match with an entry of its own (two matches
    of one URL give two entries), followed by bare references: one for
    each number of a bare match that no URL reference carries, at its
    first occurrence only.  A bare reference is thus discarded exactly
    when a reference with its number, from a URL or from an earlier bare
    match, is already collected. *)
Theorem merge_discards_known_numbers (text : string) :
  let urls := urlReferences text in
  let bares :=
    firstOccurrences (map PRReference.Number urls) (bareNumbers text) in
  ExtractPRReferences text = ((urls ++ map bareReference bares)%list, None) /\
  NoDup bares /\
  (forall n,
      In n bares <->
      In n (bareNumbers text) /\ ~ In n (map PRReference.Number urls)) /\
  fst (ExtractPRReferences
         "https://github.com/a/b/pull/5 https://github.com/a/b/pull/5")
  = [ {| PRReference.Owner := "a"; PRReference.Repository := "b";
         PRReference.Number := 5;
         PRReference.URL := "https://github.com/a/b/pull/5" |};
      {| PRReference.Owner := "a"; PRReference.Repository := "b";
         PRReference.Number := 5;
         PRReference.URL := "https://github.com/a/b/pull/5" |} ].
Proof.
  intros urls bares. split; [apply ExtractPRReferences_merge|].
  split; [apply firstOccurrences_NoDup|].
  split; [intros n; apply firstOccurrences_In|reflexivity].
Qed.

(** C7 as stated fails: of two bare references with the same number,
    and no URL with that number, only the first is returned. *)
Lemma second_bare_reference_is_discarded :
  bareNumbers "#5 #5" = [5%Z; 5%Z] /\
  urlReferences "#5 #5" = [] /\
  ExtractPRReferences "#5 #5" = ([bareReference 5], None).
Proof. repeat split; reflexivity. Qed.

(** C8 on the code: a candidate with the number 0 is returned with
    [Number = 0], from a bare reference and from a URL. *)
Theorem zero_is_extracted_as_a_number :
  ExtractPRReferences "#0" = ([bareReference 0], None) /\
  ExtractPRReferences "https://github.com/acme/widget/pull/0" =
  ([ {| PRReference.Owner := "acme"; PRReference.Repository := "widget";
        PRReference.Number := 0;
        PRReference.URL := "https://github.com/acme/widget/pull/0" |} ],
   None).
Proof. split; reflexivity. Qed.

(** *** Where the bare references are found *)

Lemma forallb_string_cons (f : ascii -> bool) (c : ascii) (s : string) :
  forallb_string f (String c s) = f c && forallb_string f s.
Proof.
  unfold forallb_string. simpl. destruct (f c); simpl; [|reflexivity].
  now rewrite Ascii.eqb_refl.
Qed.

Lemma forallb_string_app (f : ascii -> bool) (a b : string) :
  forallb_string f (a ++ b) = forallb_string f a && forallb_string f b.
Proof.
  induction a as [|c a IH]; [reflexivity|].
  cbn [append]. rewrite !forallb_string_cons, IH. apply andb_assoc.
Qed.

Lemma forallb_string_impl (f g : ascii -> bool) (s : string) :
  (forall c, f c = true -> g c = true) ->
  forallb_string f s = true -> forallb_string g s = true.
Proof.
  intros Hfg. induction s as [|c s IH]; [reflexivity|].
  rewrite !forallb_string_cons. intros H.
  apply andb_true_iff in H as [Hc Hs]. now rewrite (Hfg c Hc), IH.
Qed.

(** A run of bytes of a class, followed by a byte outside of it. *)
Lemma takeWhile_run (f : ascii -> bool) (a b : string) :
  forallb_string f a = true ->
  match b with String c _ => f c = false | EmptyString => True end ->
  takeWhile f (a ++ b) = a /\ dropWhile f (a ++ b) = b.
Proof.
  intros Ha Hb. induction a as [|c a IH].
  - destruct b as [|c b]; [auto|]. simpl. now rewrite Hb.
  - rewrite forallb_string_cons in Ha. apply andb_true_iff in Ha as [Hc Ha].
    destruct (IH Ha) as [IH1 IH2]. simpl. now rewrite Hc, IH1, IH2.
Qed.

(** A bare reference as the claim writes it is a match where it
    stands, with its digits as the group. *)
Lemma bare_reference_matches (marker digits post : string) :
  In marker bareMarkers ->
  digits <> EmptyString ->
  forallb_string isDigit digits = true ->
  startsWithDigit post = false ->
  exists mm,
    matchAt prNumberPattern (marker ++ digits ++ post) = Some mm /\
    submatches 1 (marker ++ digits ++ post) mm = [marker ++ digits; digits].
Proof.
  intros Hm Hne Hd Hpost.
  assert (Hrun : takeWhile isDigit (digits ++ post) = digits /\
                 dropWhile isDigit (digits ++ post) = post).
  { apply takeWhile_run; [exact Hd|]. now destruct post. }
  destruct Hrun as [Ht Hdrop].
  assert (Hsp : dropWhile perlSpace (digits ++ post) = digits ++ post).
  { destruct digits as [|c ds]; [congruence|].
    rewrite forallb_string_cons in Hd. apply andb_true_iff in Hd as [Hc _].
    cbn [append dropWhile].
    destruct (perlSpace c) eqn:E; [|reflexivity].
    apply perlSpace_not_digit in E. congruence. }
  exists ([(1, digits)], post).
  rewrite matchAt_prNumberPattern. unfold prNumberMatch.
  assert (Hmatch :
    match trimPrefix "#" (marker ++ digits ++ post) with
    | Some s1 => Some s1
    | None => option_map (skipByte "-")
                         (trimPrefix "PR" (marker ++ digits ++ post))
    end = Some (digits ++ post) \/
    match trimPrefix "#" (marker ++ digits ++ post) with
    | Some s1 => Some s1
    | None => option_map (skipByte "-")
                         (trimPrefix "PR" (marker ++ digits ++ post))
    end = Some (" " ++ digits ++ post)).
  { destruct Hm as [<-|[<-|[<-|[]]]]; cbn; auto. }
  split.
  - destruct Hmatch as [-> | ->]; cbv zeta; cbn [append dropWhile perlSpace];
      try (change (perlSpace " ") with true; cbv iota);
      rewrite Hsp, Ht, Hdrop;
      now destruct digits.
  - unfold submatches. cbn [snd fst seq map getCap Nat.eqb].
    rewrite <- (append_assoc marker digits post).
    now rewrite consumed_append.
Qed.

Lemma findAllFrom_skip (r : re) (ngroups : nat) :
  matchAt r EmptyString = None ->
  forall s skip,
    findAllFrom r ngroups skip s = findAllFrom r ngroups 0 (drop skip s).
Proof.
  intros Hempty. induction s as [|c s IH]; intros skip.
  - destruct skip; [reflexivity|]. simpl. now rewrite Hempty.
  - destruct skip as [|skip]; [reflexivity|]. cbn [findAllFrom drop].
    apply IH.
Qed.

(** After a match the search goes on with the rest of the text; where
    nothing matches it moves one byte on. *)
Lemma findAllFrom_match (r : re) (ngroups : nat) (m rest : string)
      (mm : Caps * string) :
  matchAt r EmptyString = None ->
  m <> EmptyString -> snd mm = rest ->
  matchAt r (m ++ rest) = Some mm ->
  findAllFrom r ngroups 0 (m ++ rest) =
  submatches ngroups (m ++ rest) mm :: findAllFrom r ngroups 0 rest.
Proof.
  intros Hempty Hm Hrest Hmatch.
  destruct m as [|c m]; [congruence|]. cbn [append findAllFrom].
  cbn [append] in Hmatch. rewrite Hmatch. f_equal.
  rewrite findAllFrom_skip by exact Hempty. f_equal.
  rewrite Hrest.
  change (String c (m ++ rest)) with (String c m ++ rest).
  rewrite consumed_append. cbn [String.length].
  replace (S (String.length m) - 1) with (String.length m) by lia.
  apply drop_append.
Qed.

Lemma findAllFrom_no_match (r : re) (ngroups : nat) (c : ascii) (s : string) :
  matchAt r (String c s) = None ->
  findAllFrom r ngroups 0 (String c s) = findAllFrom r ngroups 0 s.
Proof. intros H. cbn [findAllFrom]. now rewrite H. Qed.

(** A match cannot reach over the first byte of a bare reference that
    starts later in the text. *)
Lemma match_ends_before (m pre rest : string) (x : ascii) (X : string) :
  forall (Hm : forallb_string insideBareMatch m = true)
         (Hx : insideBareMatch x = false),
    m ++ rest = pre ++ String x X ->
    exists mid, rest = mid ++ String x X /\
                String.length mid <= String.length pre.
Proof.
  revert pre. induction m as [|a m IH]; intros pre Hm Hx E.
  - exists pre. split; [exact E|lia].
  - rewrite forallb_string_cons in Hm. apply andb_true_iff in Hm as [Ha Hm].
    destruct pre as [|b pre]; cbn [append] in E.
    + injection E as -> _. congruence.
    + injection E as _ E. destruct (IH pre Hm Hx E) as (mid & Hmid & Hlen).
      exists mid. split; [exact Hmid|]. simpl. lia.
Qed.

Lemma prNumberMatch_inside (s : string) (mm : Caps * string) :
  prNumberMatch s = Some mm ->
  exists c m,
    s = String c m ++ snd mm /\ forallb_string insideBareMatch m = true.
Proof.
  intros H. apply prNumberMatch_shape in H
    as (marker & spaces & digits & Hmk & Hsp & _ & Hd & Hs & _).
  assert (Hspaces : forallb_string insideBareMatch spaces = true).
  { revert Hsp. apply forallb_string_impl. intros c Hc.
    unfold insideBareMatch. rewrite Hc. now rewrite !orb_true_r. }
  assert (Hdigits : forallb_string insideBareMatch digits = true).
  { revert Hd. apply forallb_string_impl. intros c Hc.
    unfold insideBareMatch. rewrite Hc. now rewrite !orb_true_r. }
  destruct Hmk as [-> | [-> | ->]].
  - exists "#"%char, (spaces ++ digits). split; [exact Hs|].
    now rewrite forallb_string_app, Hspaces, Hdigits.
  - exists "P"%char, ("R" ++ spaces ++ digits). split; [exact Hs|].
    now rewrite !forallb_string_app, Hspaces, Hdigits.
  - exists "P"%char, ("R-" ++ spaces ++ digits). split; [exact Hs|].
    now rewrite !forallb_string_app, Hspaces, Hdigits.
Qed.

(** A bare reference is found wherever it stands in the text. *)
Lemma bare_reference_found (marker digits post : string) :
  In marker bareMarkers ->
  digits <> EmptyString ->
  forallb_string isDigit digits = true ->
  startsWithDigit post = false ->
  forall pre,
    In [marker ++ digits; digits]
       (regexp_FindAllStringSubmatch prNumberPattern 1
          (pre ++ marker ++ digits ++ post)).
Proof.
  intros Hmk Hne Hd Hpost.
  destruct (bare_reference_matches marker digits post Hmk Hne Hd Hpost)
    as (mmX & HmX & HsubX).
  assert (Hfirst : exists x X, marker ++ digits ++ post = String x X /\
                               insideBareMatch x = false).
  { destruct Hmk as [<-|[<-|[<-|[]]]]; cbn; eauto. }
  destruct Hfirst as (x & X & HX & Hx).
  assert (Hempty : matchAt prNumberPattern EmptyString = None)
    by reflexivity.
  unfold regexp_FindAllStringSubmatch.
  intros pre. remember (String.length pre) as n eqn:Hn.
  assert (Hlen : String.length pre <= n) by lia. clear Hn.
  revert pre Hlen. induction n as [|n IH]; intros pre Hlen.
  - destruct pre; [|simpl in Hlen; lia]. cbn [append].
    destruct (nonEmpty_true (marker ++ digits)) as [_ Hnn].
    rewrite <- (append_assoc marker digits post) in HmX |- *.
    rewrite (findAllFrom_match _ _ (marker ++ digits) post mmX); auto.
    + left. rewrite append_assoc. exact HsubX.
    + destruct Hmk as [<-|[<-|[<-|[]]]]; discriminate.
    + rewrite append_assoc in HmX. rewrite matchAt_prNumberPattern in HmX.
      apply prNumberMatch_shape in HmX
        as (mk & sp & ds & _ & _ & _ & _ & E & Hsub).
      rewrite HsubX in Hsub. injection Hsub as Hsub _.
      rewrite <- Hsub in E. rewrite <- append_assoc in E.
      now apply append_inj_l in E.
  - destruct pre as [|c pre]; [apply (IH EmptyString); simpl; lia|].
    simpl in Hlen. cbn [append].
    destruct (matchAt prNumberPattern
                      (String c (pre ++ marker ++ digits ++ post)))
      as [mm|] eqn:E.
    + pose proof E as E'. rewrite matchAt_prNumberPattern in E'.
      apply prNumberMatch_inside in E' as (c' & m & Hs & Hin).
      cbn [append] in Hs. injection Hs as <- Hs.
      rewrite HX in Hs.
      destruct (match_ends_before m pre (snd mm) x X Hin Hx (eq_sym Hs))
        as (mid & Hmid & Hlen').
      assert (Hs' : String c (pre ++ marker ++ digits ++ post) =
                    String c m ++ snd mm).
      { rewrite HX. cbn [append]. now f_equal. }
      rewrite Hs' in E |- *.
      rewrite (findAllFrom_match _ _ (String c m) (snd mm) mm);
        auto; [|discriminate].
      right. rewrite Hmid, <- HX. apply IH. lia.
    + rewrite findAllFrom_no_match by exact E. apply IH. lia.
Qed.

(** C6, as the code has it.  The marker is recognized in upper case
    only: "pr-123" yields nothing.  For every text that holds
    [#<digits>], [PR-<digits>] or [PR <digits>], the digits being a
    whole run that fits an int, the result holds a reference with that
    number: the one with only the number set, unless a URL of the text
    carries the number, whose reference then stands for it. *)
Theorem bare_reference_extracted :
  ExtractPRReferences "pr-123" = ([], None) /\
  forall (pre marker digits post : string) (n : Z),
    In marker bareMarkers ->
    digits <> EmptyString ->
    forallb_string isDigit digits = true ->
    startsWithDigit post = false ->
    strconv_Atoi digits = Some n ->
    let refs := fst (ExtractPRReferences (pre ++ marker ++ digits ++ post)) in
    In (bareReference n) refs \/
    exists r, In r refs /\ PRReference.Number r = n /\
              PRReference.URL r <> EmptyString /\
              PRReference.Owner r <> EmptyString /\
              PRReference.Repository r <> EmptyString.
Proof.
  split; [reflexivity|].
  intros pre marker digits post n Hmk Hne Hd Hpost Hn refs. subst refs.
  set (text := pre ++ marker ++ digits ++ post).
  assert (Hbare : In n (bareNumbers text)).
  { unfold bareNumbers. apply in_flat_map.
    exists [marker ++ digits; digits].
    split; [now apply bare_reference_found|].
    unfold bareNumber. rewrite Hn. now left. }
  destruct (in_dec Z.eq_dec n (map PRReference.Number (urlReferences text)))
    as [Hurl|Hurl].
  - right. apply in_map_iff in Hurl as (r & Hr & Hin).
    exists r. split; [apply ExtractPRReferences_In; now left|].
    split; [exact Hr|].
    destruct (urlReferences_In text r Hin) as (ds & _ & Hu & Ho & Hrepo & _).
    repeat split; auto. rewrite Hu. discriminate.
  - left. apply ExtractPRReferences_In. right. simpl. auto.
Qed.

Lemma bare_reference_extracted_witness :
  In "PR-" bareMarkers /\
  strconv_Atoi "123" = Some 123%Z /\
  (In (bareReference 123)
      (fst (ExtractPRReferences ("LGTM " ++ "PR-" ++ "123" ++ " please"))) \/
   exists r,
     In r (fst (ExtractPRReferences ("LGTM " ++ "PR-" ++ "123" ++ " please")))
     /\ PRReference.Number r = 123%Z
     /\ PRReference.URL r <> EmptyString
     /\ PRReference.Owner r <> EmptyString
     /\ PRReference.Repository r <> EmptyString).
Proof.
  split; [simpl; auto|]. split; [reflexivity|].
  apply (proj2 bare_reference_extracted "LGTM " "PR-" "123" " please" 123%Z).
  - simpl. auto.
  - discriminate.
  - reflexivity.
  - reflexivity.
  - reflexivity.
Defined.

(** C6 as stated fails: a lower-case marker is not recognized. *)
Lemma lower_case_marker_is_not_extracted :
  ExtractPRReferences "pr-123" = ([], None) /\
  ExtractPRReferences "PR-123" = ([bareReference 123], None).
Proof. split; reflexivity. Qed.

(** *** The numbers of the references *)

Lemma digitsVal_nonneg (s : string) :
  forall acc,
    (0 <= acc)%Z -> forallb_string isDigit s = true ->
    (0 <= digitsVal acc s)%Z.
Proof.
  induction s as [|c s IH]; intros acc Hacc Hs; [exact Hacc|].
  rewrite forallb_string_cons in Hs. apply andb_true_iff in Hs as [Hc Hs].
  cbn [digitsVal]. apply IH; [|exact Hs].
  unfold isDigit in Hc. apply andb_true_iff in Hc as [Hc _].
  apply N.leb_le in Hc. unfold digitVal.
  generalize dependent (byte c). intros b Hb. lia.
Qed.

(** On a run of digits [strconv.Atoi] returns a number from 0 to the
    largest int, or an error. *)
Lemma strconv_Atoi_digits (s : string) (n : Z) :
  forallb_string isDigit s = true ->
  strconv_Atoi s = Some n ->
  (0 <= n <= maxInt)%Z.
Proof.
  intros Hs. pose proof Hs as Hall. unfold strconv_Atoi.
  destruct s as [|c s]; [discriminate|].
  rewrite forallb_string_cons in Hs. apply andb_true_iff in Hs as [Hc _].
  assert (Hbody :
    (let '(neg, body) :=
       match String c s with
       | String "-" s' => (true, s')
       | String "+" s' => (false, s')
       | _ => (false, String c s)
       end in (neg, body)) = (false, String c s)).
  { destruct c as [[] [] [] [] [] [] [] []]; try discriminate Hc; reflexivity. }
  destruct (match String c s with
            | String "-" s' => (true, s')
            | String "+" s' => (false, s')
            | _ => (false, String c s)
            end) as [neg body].
  injection Hbody as -> ->.
  rewrite Hall.
  destruct (minInt <=? digitsVal 0 (String c s))%Z eqn:Hmin; [|discriminate].
  destruct (digitsVal 0 (String c s) <=? maxInt)%Z eqn:Hmax; [|discriminate].
  intros [= <-]. split.
  - apply (digitsVal_nonneg (String c s) 0); [lia|exact Hall].
  - now apply Z.leb_le.
Qed.

Lemma bareNumbers_digits (text : string) (n : Z) :
  In n (bareNumbers text) ->
  exists digits,
    forallb_string isDigit digits = true /\ strconv_Atoi digits = Some n.
Proof.
  unfold bareNumbers. intros Hin.
  apply in_flat_map in Hin as (m & Hm & Hn).
  apply findAllFrom_In in Hm as (s' & mm & Hmatch & ->).
  rewrite matchAt_prNumberPattern in Hmatch.
  apply prNumberMatch_shape in Hmatch
    as (marker & spaces & digits & _ & _ & _ & Hd & _ & Hsub).
  exists digits. split; [exact Hd|].
  rewrite Hsub in Hn. unfold bareNumber in Hn.
  destruct (strconv_Atoi digits) as [k|]; [|contradiction].
  destruct Hn as [<-|[]]. reflexivity.
Qed.

Lemma urlReferences_digits (text : string) (r : PRReference.t) :
  In r (urlReferences text) ->
  exists digits,
    forallb_string isDigit digits = true /\
    strconv_Atoi digits = Some (PRReference.Number r).
Proof.
  unfold urlReferences. intros Hin.
  apply in_flat_map in Hin as (m & Hm & Hr).
  apply urlStep_In in Hr as (digits & -> & Hn & _).
  destruct (urlMatches_shape text _ Hm)
    as (sopt & owner & repo & ds & _ & _ & _ & _ & Hd & E).
  injection E as _ _ _ <-. eauto.
Qed.

(** X1.  What holds of the number of every returned reference: it is not
    negative and it fits an int. *)
Lemma extracted_numbers_in_range (text : string) (r : PRReference.t) :
  In r (fst (ExtractPRReferences text)) ->
  (0 <= PRReference.Number r <= maxInt)%Z.
Proof.
  intros Hin. apply ExtractPRReferences_In in Hin as [Hin|(_ & Hin & _)].
  - destruct (urlReferences_digits text r Hin) as (digits & Hd & Hn).
    exact (strconv_Atoi_digits digits _ Hd Hn).
  - destruct (bareNumbers_digits text _ Hin) as (digits & Hd & Hn).
    exact (strconv_Atoi_digits digits _ Hd Hn).
Qed.

(** *** Runs *)

Lemma runFrom_bind {A B : Type} (w : World) (p : Prog A) (f : A -> Prog B) :
  forall c,
    runFrom w c (bind p f) =
    match runFrom w c p with
    | (Returned a, tr) =>
        (fst (runFrom w (fold_left advance tr c) (f a)),
         (tr ++ snd (runFrom w (fold_left advance tr c) (f a)))%list)
    | (Panicked, tr) => (Panicked, tr)
    end.
Proof.
  induction p
    as [a| |o r n k IH|o r n e k IH|d k IH|k IH|e ch ts k IH|req k IH];
    intros c; simpl.
  - now destruct (runFrom w c (f a)).
  - reflexivity.
  - rewrite IH. destruct (runFrom w _ (k _)) as [[a|] tr]; reflexivity.
  - rewrite IH. destruct (runFrom w _ (k _)) as [[a|] tr]; reflexivity.
  - rewrite IH. destruct (runFrom w _ (k _)) as [[a|] tr]; reflexivity.
  - rewrite IH. destruct (runFrom w _ (k _)) as [[a|] tr]; reflexivity.
  - rewrite IH. destruct (runFrom w _ (k _)) as [[a|] tr]; reflexivity.
  - rewrite IH. destruct (runFrom w _ k) as [[a|] tr]; reflexivity.
Qed.

(** One attempt: the clock is read, the review is submitted, and the
    result is built from the answer. *)
Lemma runFrom_ApprovePR (w : World) (c : Calls) (req : ApprovalRequest.t) :
  runFrom w c (ApprovePR req) =
  (Returned (Some (approvalResult req (clock w (nNow c))
                                  (reviewResponses w (nReview c))), None),
   [EvNow (clock w (nNow c));
    EvCreateReview (ApprovalRequest.Owner req) (ApprovalRequest.Repository req)
      (ApprovalRequest.PRNumber req) "APPROVE"
      (reviewResponses w (nReview c))]).
Proof. reflexivity. Qed.

Lemma transientFailure_retried (r : ApprovalResult.t) :
  transientFailure r ->
  ApprovalResult.Success r || isPermanentError (ApprovalResult.Error r) = false.
Proof.
  intros [Hs Hp]. rewrite Hs. simpl. unfold isPermanentError.
  induction Hp as [|p ps Hp _ IH]; simpl; [reflexivity|].
  now rewrite Hp.
Qed.

(** One iteration of the retry loop from the attempt on: the attempt is
    made, then the loop returns or goes on. *)
Lemma runFrom_attempt (w : World) (req : ApprovalRequest.t) (c : Calls)
      (attempt : nat)
      (next : option ApprovalResult.t -> option error ->
              Prog (option ApprovalResult.t * option error)) :
  let r := attemptResult w c req in
  let rest :=
    runFrom w (fold_left advance (attemptEvents w c req) c)
      (next (Some r)
         (Some (errorString ("approval failed: " ++ ApprovalResult.Error r))))
  in
  runFrom w c (bind (ApprovePR req) (afterAttempt attempt next)) =
  if ApprovalResult.Success r || isPermanentError (ApprovalResult.Error r)
  then (Returned (Some (if (ApprovalResult.RetryAttempts r =? 0)%Z
                        then setRetryAttempts r (Z.of_nat attempt)
                        else r), None),
        attemptEvents w c req)
  else (fst rest, (attemptEvents w c req ++ snd rest)%list).
Proof.
  intros r rest. rewrite runFrom_bind, runFrom_ApprovePR.
  unfold afterAttempt. fold (attemptResult w c req). fold r.
  destruct (ApprovalResult.Success r
            || isPermanentError (ApprovalResult.Error r));
    reflexivity.
Qed.

Lemma retryLoop_S (req : ApprovalRequest.t) (rem attempt : nat)
      (last : option ApprovalResult.t) (lastErr : option error) :
  retryLoop req (S rem) attempt last lastErr =
  if Nat.ltb 0 attempt then
    Select (backoff attempt) (fun outcome =>
      match outcome with
      | TimerFired =>
          bind (ApprovePR req)
               (afterAttempt attempt (retryLoop req rem (S attempt)))
      | ContextDone ctxErr => Ret (None, Some (contextErr ctxErr))
      end)
  else bind (ApprovePR req)
            (afterAttempt attempt (retryLoop req rem (S attempt))).
Proof. reflexivity. Qed.

(** The start of an iteration: the backoff, unless it is the first. *)
Lemma runFrom_retryLoop_S (w : World) (req : ApprovalRequest.t)
      (rem attempt : nat) (last : option ApprovalResult.t)
      (lastErr : option error) (c : Calls) :
  let approve :=
    bind (ApprovePR req) (afterAttempt attempt (retryLoop req rem (S attempt)))
  in
  let ev := EvSelect (backoff attempt) (selectOutcomes w (nSelect c)) in
  runFrom w c (retryLoop req (S rem) attempt last lastErr) =
  if Nat.ltb 0 attempt then
    match selectOutcomes w (nSelect c) with
    | TimerFired =>
        (fst (runFrom w (advance c ev) approve),
         ev :: snd (runFrom w (advance c ev) approve))
    | ContextDone e => (Returned (None, Some (contextErr e)), [ev])
    end
  else runFrom w c approve.
Proof.
  intros approve ev. rewrite retryLoop_S. fold approve. clearbody approve.
  destruct (Nat.ltb 0 attempt); [|reflexivity].
  simpl runFrom. subst ev.
  destruct (selectOutcomes w (nSelect c)).
  - now destruct (runFrom w _ approve).
  - reflexivity.
Qed.

(** *** The retry loop *)

Section RetryLoop.
Variable w : World.
Variable req : ApprovalRequest.t.

Ltac step_retry rem attempt last lastErr c :=
  rewrite (runFrom_retryLoop_S w req rem attempt last lastErr c);
  cbv zeta;
  destruct (Nat.ltb 0 attempt);
  [destruct (selectOutcomes w (nSelect c)) | ];
  try rewrite runFrom_attempt; cbv zeta.

(** The loop reads the clock, submits reviews and waits, nothing
    else. *)
Lemma retryLoop_events :
  forall rem attempt last lastErr c,
    forallb isRetryEvent
      (snd (runFrom w c (retryLoop req rem attempt last lastErr))) = true.
Proof.
  induction rem as [|rem IH]; intros attempt last lastErr c.
  - simpl. now destruct last.
  - step_retry rem attempt last lastErr c;
      try match goal with
          | |- context [if ?b then _ else _] => destruct b
          end; simpl; auto.
Qed.

(** At most [rem] attempts are made in [rem] iterations. *)
Lemma retryLoop_attempts :
  forall rem attempt last lastErr c,
    List.length
      (approvalCalls
         (snd (runFrom w c (retryLoop req rem attempt last lastErr))))
    <= rem.
Proof.
  induction rem as [|rem IH]; intros attempt last lastErr c.
  - simpl. now destruct last.
  - step_retry rem attempt last lastErr c;
      try match goal with
          | |- context [if ?b then _ else _] => destruct b
          end; simpl; auto using le_n_S with arith.
Qed.

(** A cancelled wait ends the loop on the spot with the error of the
    context; without one the loop returns a result and no error. *)
Lemma retryLoop_outcome :
  forall rem attempt last lastErr c,
    let r := runFrom w c (retryLoop req rem attempt last lastErr) in
    match afterCancellation (snd r) with
    | Some (e, post) =>
        post = [] /\ fst r = Returned (None, Some (contextErr e))
    | None =>
        (0 < rem \/ last <> None) ->
        exists result, fst r = Returned (Some result, None)
    end.
Proof.
  induction rem as [|rem IH]; intros attempt last lastErr c.
  - simpl. destruct last as [l|]; simpl.
    + intros _. eauto.
    + intros [H|H]; [inversion H | congruence].
  - step_retry rem attempt last lastErr c.
    + match goal with
      | |- context [if ?b then _ else _] => destruct b
      end; simpl.
      * intros _. eauto.
      * match goal with
        | |- context [runFrom w ?c' (retryLoop req rem ?a ?l ?le)] =>
            specialize (IH a l le c'); cbv zeta in IH;
            destruct (afterCancellation
                        (snd (runFrom w c' (retryLoop req rem a l le))))
              as [[e post]|]
        end; [exact IH | intros _; apply IH; right; discriminate].
    + simpl. auto.
    + match goal with
      | |- context [if ?b then _ else _] => destruct b
      end; simpl.
      * intros _. eauto.
      * match goal with
        | |- context [runFrom w ?c' (retryLoop req rem ?a ?l ?le)] =>
            specialize (IH a l le c'); cbv zeta in IH;
            destruct (afterCancellation
                        (snd (runFrom w c' (retryLoop req rem a l le))))
              as [[e post]|]
        end; [exact IH | intros _; apply IH; right; discriminate].
Qed.
End RetryLoop.

(** *** [processApproval] *)

Lemma retry_events_no_get (tr : list Event) :
  forallb isRetryEvent tr = true -> validationCalls tr = [].
Proof.
  induction tr as [|e tr IH]; simpl; [reflexivity|].
  intros H. apply andb_true_iff in H as [He Htr].
  destruct e; simpl in *; try discriminate; auto.
Qed.

Lemma retry_events_no_reaction (tr : list Event) :
  forallb isRetryEvent tr = true -> reactionSymbols tr = [].
Proof.
  induction tr as [|e tr IH]; simpl; [reflexivity|].
  intros H. apply andb_true_iff in H as [He Htr].
  destruct e; simpl in *; try discriminate; auto.
Qed.

Lemma retry_events_nReaction (tr : list Event) :
  forallb isRetryEvent tr = true ->
  forall c, nReaction (fold_left advance tr c) = nReaction c.
Proof.
  induction tr as [|e tr IH]; simpl; [reflexivity|].
  intros H c. apply andb_true_iff in H as [He Htr].
  rewrite (IH Htr). destruct e; simpl in *; try discriminate; reflexivity.
Qed.

Lemma validationError_reportedInvalid (owner repo : string) (n : Z)
      (resp : GetResponse) :
  validationError owner repo n resp <> None <-> reportedInvalid resp.
Proof.
  destruct resp as [[pr response] err]. unfold validationError, reportedInvalid.
  destruct err as [e|].
  - split; [intros _; left; discriminate|intros _].
    destruct response as [resp|]; [|discriminate].
    destruct (StatusCode resp =? 404)%Z; [discriminate|].
    destruct (StatusCode resp =? 403)%Z; discriminate.
  - destruct (String.eqb_spec (GetState pr) "open") as [Hs|Hs]; simpl.
    + destruct (GetMerged pr); split; try discriminate; auto;
        intros [H|[H|H]]; congruence.
    + split; [auto|discriminate].
Qed.

Lemma runFrom_ValidatePRReference (w : World) (c : Calls)
      (owner repo : string) (n : Z) :
  runFrom w c (ValidatePRReference owner repo n) =
  (Returned (validationError owner repo n (getResponses w (nGet c))),
   [EvGet owner repo n (getResponses w (nGet c))]).
Proof. reflexivity. Qed.

(** The run of [processApproval]: the validation, then, when it
    succeeds, the retry loop, then, when the loop returns a result, the
    reaction. *)
Lemma run_processApproval (w : World) (req : ApprovalRequest.t) :
  let owner := ApprovalRequest.Owner req in
  let repo := ApprovalRequest.Repository req in
  let n := ApprovalRequest.PRNumber req in
  let ev := EvGet owner repo n (getResponses w 0) in
  let retry := runFrom w afterValidation (ApprovePRWithRetry req) in
  run w (processApproval req) =
  match validationError owner repo n (getResponses w 0) with
  | Some _ => (Returned tt, [ev])
  | None =>
      match fst retry with
      | Returned (Some r, None) =>
          match ApprovalRequest.SourceMessage req with
          | Some source =>
              (Returned tt,
               ev :: snd retry ++
               [EvAddReaction
                  (if ApprovalResult.Success r then "white_check_mark"
                   else "x")
                  (ApprovalRequest.SourceChannel req)
                  (SlackMessage.Timestamp source)
                  (reactionErrors w 0)])
          | None => (Panicked, ev :: snd retry)
          end
      | Returned (None, None) => (Panicked, ev :: snd retry)
      | Returned (_, Some _) => (Returned tt, ev :: snd retry)
      | Panicked => (Panicked, ev :: snd retry)
      end
  end%list.
Proof.
  intros owner repo n ev retry.
  unfold run, processApproval.
  rewrite runFrom_bind, runFrom_ValidatePRReference.
  fold owner repo n. change (nGet noCalls) with 0. fold ev.
  destruct (validationError owner repo n (getResponses w 0)); [reflexivity|].
  change (fold_left advance [ev] noCalls) with afterValidation.
  rewrite runFrom_bind. fold retry.
  pose proof (retryLoop_events w req maxRetries 0 None None afterValidation)
    as Hev.
  fold (ApprovePRWithRetry req) in Hev. fold retry in Hev.
  destruct retry as [[[[r|] [e|]]|] tr]; simpl in *;
    rewrite ?app_nil_r; try reflexivity.
  destruct (ApprovalRequest.SourceMessage req) as [source|];
    [|now rewrite app_nil_r].
  destruct (ApprovalResult.Success r); simpl;
    now rewrite (retry_events_nReaction tr Hev).
Qed.

(** *** [processMessage] *)

(** The loop of [processPRApprovals] reads the clock and starts
    goroutines; each request it hands over carries the source message,
    its channel, and a complete owner and repository. *)
Lemma approveEach_run (w : World) (sc : SlackClient) (source : SlackMessage.t) :
  forall refs c,
    fst (runFrom w c (approveEach sc source refs)) = Returned tt /\
    reactionSymbols (snd (runFrom w c (approveEach sc source refs))) = [] /\
    Forall (fun req =>
              ApprovalRequest.SourceMessage req = Some source /\
              ApprovalRequest.SourceChannel req = SlackMessage.Channel source /\
              ApprovalRequest.Owner req <> EmptyString /\
              ApprovalRequest.Repository req <> EmptyString)
           (dispatched (snd (runFrom w c (approveEach sc source refs)))).
Proof.
  induction refs as [|prRef refs IH]; intros c; simpl.
  - auto.
  - set (owner := if PRReference.Owner prRef =? EmptyString
                  then DefaultOwner (config sc) else PRReference.Owner prRef).
    set (repo := if PRReference.Repository prRef =? EmptyString
                 then DefaultRepo (config sc)
                 else PRReference.Repository prRef).
    destruct (String.eqb_spec owner EmptyString) as [Ho|Ho];
      [|destruct (String.eqb_spec repo EmptyString) as [Hr|Hr]];
      simpl; try apply IH.
    match goal with
    | |- context [runFrom w ?c' (approveEach sc source refs)] =>
        destruct (IH c') as (Hout & Hre & Hd);
        destruct (runFrom w c' (approveEach sc source refs)) as [out tr]
    end.
    simpl in *. repeat split; auto.
Qed.

Lemma run_processMessage_no_references (w : World) (sc : SlackClient)
      (msg : SlackMessage.t) (m : PatternMatch.t) :
  Match (matcher sc) (SlackMessage.Text msg) = (Some m, None) ->
  PatternMatch.PRReferences m = [] ->
  run w (processMessage sc msg) =
  (Returned tt,
   [EvAddReaction "x" (SlackMessage.Channel msg) (SlackMessage.Timestamp msg)
      (reactionErrors w 0)]).
Proof.
  intros HM Hrefs. unfold run, processMessage. rewrite HM. simpl.
  rewrite Hrefs. reflexivity.
Qed.

Lemma run_processMessage_references (w : World) (sc : SlackClient)
      (msg : SlackMessage.t) (m : PatternMatch.t) :
  Match (matcher sc) (SlackMessage.Text msg) = (Some m, None) ->
  PatternMatch.PRReferences m <> [] ->
  exists tr,
    run w (processMessage sc msg) =
    (Returned tt,
     EvAddReaction "eyes" (SlackMessage.Channel msg)
       (SlackMessage.Timestamp msg) (reactionErrors w 0) :: tr) /\
    reactionSymbols tr = [] /\
    Forall (fun req =>
              ApprovalRequest.SourceMessage req = Some msg /\
              ApprovalRequest.SourceChannel req = SlackMessage.Channel msg /\
              ApprovalRequest.Owner req <> EmptyString /\
              ApprovalRequest.Repository req <> EmptyString)
           (dispatched tr).
Proof.
  intros HM Hrefs. unfold run, processMessage. rewrite HM. simpl.
  destruct (PatternMatch.PRReferences m) as [|prRef refs] eqn:E;
    [congruence|].
  cbn [List.length Nat.ltb Nat.leb]. unfold processPRApprovals.
  cbn [PatternMatch.SourceMessage PatternMatch.PRReferences].
  rewrite runFrom_bind. cbn [addReaction runFrom fst snd fold_left app].
  match goal with
  | |- context [runFrom w ?c' (approveEach sc msg ?l)] =>
      destruct (approveEach_run w sc msg l c') as (Hout & Hre & Hd);
      destruct (runFrom w c' (approveEach sc msg l)) as [out tr]
  end.
  simpl in *. subst out. eauto.
Qed.

(** *** Claims on validation, retry and cancellation *)

(** C1. Validation is the first call [processApproval] makes and it is
    made once, never retried.  When the target is reported merged, not
    found, not open, or access to it is denied, the run ends with that
    call: the approval-submission capability is invoked zero times. *)
Theorem validation_failure_prevents_approval
        (w : World) (req : ApprovalRequest.t) :
  exists rest,
    trace w (processApproval req) =
    EvGet (ApprovalRequest.Owner req) (ApprovalRequest.Repository req)
          (ApprovalRequest.PRNumber req) (getResponses w 0) :: rest /\
    validationCalls rest = [] /\
    (reportedInvalid (getResponses w 0) ->
     rest = [] /\ approvalCalls (trace w (processApproval req)) = []).
Proof.
  unfold trace. rewrite run_processApproval. cbv zeta.
  pose proof (retryLoop_events w req maxRetries 0 None None afterValidation)
    as Hev.
  fold (ApprovePRWithRetry req) in Hev.
  destruct (validationError _ _ _ (getResponses w 0)) as [e|] eqn:Hv.
  - exists []. simpl. auto.
  - assert (Hok : ~ reportedInvalid (getResponses w 0)).
    { intros H.
      now apply (proj2 (validationError_reportedInvalid
                          (ApprovalRequest.Owner req)
                          (ApprovalRequest.Repository req)
                          (ApprovalRequest.PRNumber req) _)) in H. }
    destruct (runFrom w afterValidation (ApprovePRWithRetry req))
      as [[[[r|] [e|]]|] tr];
      simpl in *;
      try destruct (ApprovalRequest.SourceMessage req) as [source|];
      simpl;
      (eexists; split; [reflexivity|];
       split; [|intros H; now apply Hok in H]);
      unfold validationCalls; rewrite ?filter_app; simpl;
      fold (validationCalls tr); now rewrite (retry_events_no_get tr Hev).
Qed.

Lemma validation_failure_prevents_approval_witness :
  reportedInvalid mergedPR /\
  approvalCalls (trace (world mergedPR [approved] [])
                       (processApproval exampleRequest)) = [].
Proof.
  split; [right; left; discriminate|].
  destruct (validation_failure_prevents_approval
              (world mergedPR [approved] []) exampleRequest)
    as (rest & _ & _ & H).
  apply H. right. left. discriminate.
Defined.

(** C2. [ApprovePRWithRetry] makes at most 3 attempts.  When the first
    three attempts fail with transient errors (and the two waits between
    them elapse), it returns the result of the third attempt with
    success=false and retryAttempts=3; the run is these three attempts
    and the two waits, and no fourth attempt. *)
Theorem three_transient_failures_exhaust_retries
        (w : World) (req : ApprovalRequest.t) :
  List.length (approvalCalls (trace w (ApprovePRWithRetry req))) <= 3 /\
  ((forall k, k < 3 ->
      transientFailure
        (approvalResult req (clock w k) (reviewResponses w k))) ->
   (forall k, k < 2 -> selectOutcomes w k = TimerFired) ->
   let last := approvalResult req (clock w 2) (reviewResponses w 2) in
   outcome w (ApprovePRWithRetry req) =
   Returned (Some (setRetryAttempts last 3), None) /\
   ApprovalResult.Success (setRetryAttempts last 3) = false /\
   ApprovalResult.RetryAttempts (setRetryAttempts last 3) = 3%Z /\
   trace w (ApprovePRWithRetry req) =
   [EvNow (clock w 0);
    EvCreateReview (ApprovalRequest.Owner req)
      (ApprovalRequest.Repository req) (ApprovalRequest.PRNumber req)
      "APPROVE" (reviewResponses w 0);
    EvSelect (backoff 1) TimerFired;
    EvNow (clock w 1);
    EvCreateReview (ApprovalRequest.Owner req)
      (ApprovalRequest.Repository req) (ApprovalRequest.PRNumber req)
      "APPROVE" (reviewResponses w 1);
    EvSelect (backoff 2) TimerFired;
    EvNow (clock w 2);
    EvCreateReview (ApprovalRequest.Owner req)
      (ApprovalRequest.Repository req) (ApprovalRequest.PRNumber req)
      "APPROVE" (reviewResponses w 2)]).
Proof.
  split; [apply (retryLoop_attempts w req maxRetries)|].
  intros Hfail Hwait last.
  pose proof (transientFailure_retried _ (Hfail 0 ltac:(lia))) as H0.
  pose proof (transientFailure_retried _ (Hfail 1 ltac:(lia))) as H1.
  pose proof (transientFailure_retried _ (Hfail 2 ltac:(lia))) as H2.
  pose proof (Hwait 0 ltac:(lia)) as W0.
  pose proof (Hwait 1 ltac:(lia)) as W1.
  destruct (Hfail 2 ltac:(lia)) as [Hs _].
  assert (Hrun :
    run w (ApprovePRWithRetry req) =
    (Returned (Some (setRetryAttempts last 3), None),
     [EvNow (clock w 0);
      EvCreateReview (ApprovalRequest.Owner req)
        (ApprovalRequest.Repository req) (ApprovalRequest.PRNumber req)
        "APPROVE" (reviewResponses w 0);
      EvSelect (backoff 1) TimerFired;
      EvNow (clock w 1);
      EvCreateReview (ApprovalRequest.Owner req)
        (ApprovalRequest.Repository req) (ApprovalRequest.PRNumber req)
        "APPROVE" (reviewResponses w 1);
      EvSelect (backoff 2) TimerFired;
      EvNow (clock w 2);
      EvCreateReview (ApprovalRequest.Owner req)
        (ApprovalRequest.Repository req) (ApprovalRequest.PRNumber req)
        "APPROVE" (reviewResponses w 2)])).
  { unfold run, ApprovePRWithRetry, maxRetries.
    rewrite runFrom_retryLoop_S. cbv zeta. cbn [Nat.ltb Nat.leb].
    rewrite runFrom_attempt. cbv zeta.
    unfold attemptResult. cbn [nNow nReview noCalls]. rewrite H0.
    rewrite runFrom_retryLoop_S. cbv zeta. cbn [Nat.ltb Nat.leb].
    cbn [fold_left attemptEvents advance nNow nReview nSelect noCalls
         nGet nReaction].
    rewrite W0. rewrite runFrom_attempt. cbv zeta.
    unfold attemptResult.
    cbn [fold_left attemptEvents advance nNow nReview nSelect noCalls
         nGet nReaction].
    rewrite H1.
    rewrite runFrom_retryLoop_S. cbv zeta. cbn [Nat.ltb Nat.leb].
    cbn [fold_left attemptEvents advance nNow nReview nSelect noCalls
         nGet nReaction].
    rewrite W1. rewrite runFrom_attempt. cbv zeta.
    unfold attemptResult.
    cbn [fold_left attemptEvents advance nNow nReview nSelect noCalls
         nGet nReaction].
    rewrite H2. reflexivity. }
  unfold outcome, trace. rewrite Hrun. repeat split. exact Hs.
Qed.

Lemma three_transient_failures_exhaust_retries_witness :
  outcome (world openPR [] []) (ApprovePRWithRetry exampleRequest) =
  Returned
    (Some {| ApprovalResult.Request := Some exampleRequest;
             ApprovalResult.Success := false;
             ApprovalResult.ReviewID := 0;
             ApprovalResult.Error :=
               "failed to approve PR #42: 503 Service Unavailable";
             ApprovalResult.ProcessedAt := 2;
             ApprovalResult.RetryAttempts := 3 |}, None).
Proof.
  apply (three_transient_failures_exhaust_retries
           (world openPR [] []) exampleRequest).
  - intros k Hk. split; [|repeat constructor];
      destruct k as [|[|[|k]]]; try reflexivity; lia.
  - intros k Hk. destruct k as [|[|k]]; reflexivity.
Defined.

Lemma afterCancellation_split (tr pre post : list Event) (d : Z)
      (e : contextError) :
  tr = (pre ++ EvSelect d (ContextDone e) :: post)%list ->
  exists e' post',
    afterCancellation tr = Some (e', post') /\
    (post' = [] -> post = [] /\ e' = e).
Proof.
  revert tr. induction pre as [|x pre IH]; intros tr ->; simpl.
  - eauto.
  - destruct (IH _ eq_refl) as (e' & post' & Hc & Hp).
    destruct x as [| | d0 [|e0] | | |]; eauto.
    exists e0. eexists. split; [reflexivity|].
    intros H. now destruct pre.
Qed.

Lemma afterCancellation_none (tr : list Event) :
  (forall d e, ~ In (EvSelect d (ContextDone e)) tr) ->
  afterCancellation tr = None.
Proof.
  induction tr as [|x tr IH]; intros H; [reflexivity|].
  assert (Htr : afterCancellation tr = None).
  { apply IH. intros d e Hin. apply (H d e). now right. }
  destruct x as [| | d0 [|e0] | | |]; simpl; auto.
  exfalso. apply (H d0 e0). now left.
Qed.

(** C9. A wait of the retry loop that ends with the context done is the
    last event of [ApprovePRWithRetry]: no attempt follows it, and the
    call returns no result and the error of the context, not the
    outcome of exhausted retries. *)
Theorem cancellation_during_backoff_aborts
        (w : World) (req : ApprovalRequest.t) (pre post : list Event)
        (d : Z) (e : contextError) :
  trace w (ApprovePRWithRetry req) =
  (pre ++ EvSelect d (ContextDone e) :: post)%list ->
  post = [] /\
  outcome w (ApprovePRWithRetry req) = Returned (None, Some (contextErr e)).
Proof.
  intros Htr. apply afterCancellation_split in Htr as (e' & post' & Hc & Hp).
  pose proof (retryLoop_outcome w req maxRetries 0 None None noCalls) as H.
  cbv zeta in H. fold (ApprovePRWithRetry req) in H.
  fold (run w (ApprovePRWithRetry req)) in H.
  fold (trace w (ApprovePRWithRetry req)) in H.
  fold (outcome w (ApprovePRWithRetry req)) in H.
  rewrite Hc in H. destruct H as [Hpost Hout].
  destruct (Hp Hpost) as [-> ->]. auto.
Qed.

Lemma cancellation_during_backoff_aborts_witness :
  trace (world openPR [] [ContextDone Canceled])
        (ApprovePRWithRetry exampleRequest) =
  ([EvNow 0;
    EvCreateReview "acme" "widget" 42 "APPROVE" unavailable]
   ++ EvSelect 2000000000 (ContextDone Canceled) :: [])%list /\
  outcome (world openPR [] [ContextDone Canceled])
          (ApprovePRWithRetry exampleRequest) =
  Returned (None, Some (contextErr Canceled)).
Proof.
  split; [reflexivity|].
  apply (cancellation_during_backoff_aborts
           (world openPR [] [ContextDone Canceled]) exampleRequest
           [EvNow 0; EvCreateReview "acme" "widget" 42 "APPROVE" unavailable]
           [] 2000000000 Canceled).
  reflexivity.
Defined.

(** C10. [ApprovePR] always returns a result and a nil error, an API
    failure being reported inside the result.  Hence, when no wait is
    cancelled, [ApprovePRWithRetry] returns a result and a nil error,
    and in no run does it return the error of its last branch
    ("approval failed after 3 attempts"). *)
Theorem retry_returns_result_without_cancellation
        (w : World) (req : ApprovalRequest.t) :
  (forall c,
      exists r,
        fst (runFrom w c (ApprovePR req)) = Returned (Some r, None) /\
        (snd (reviewResponses w (nReview c)) <> None ->
         ApprovalResult.Success r = false /\
         ApprovalResult.Error r <> EmptyString)) /\
  ((forall d e,
       ~ In (EvSelect d (ContextDone e)) (trace w (ApprovePRWithRetry req))) ->
   exists r, outcome w (ApprovePRWithRetry req) = Returned (Some r, None)) /\
  (forall msg,
      outcome w (ApprovePRWithRetry req) <>
      Returned (None, Some (errorString msg))).
Proof.
  pose proof (retryLoop_outcome w req maxRetries 0 None None noCalls) as H.
  cbv zeta in H. fold (ApprovePRWithRetry req) in H.
  fold (run w (ApprovePRWithRetry req)) in H.
  fold (trace w (ApprovePRWithRetry req)) in H.
  fold (outcome w (ApprovePRWithRetry req)) in H.
  split; [|split].
  - intros c. rewrite runFrom_ApprovePR. eexists. split; [reflexivity|].
    unfold approvalResult.
    destruct (reviewResponses w (nReview c)) as [[review response] [e|]];
      simpl; [intros _|congruence].
    destruct response as [resp|]; [|split; [reflexivity|discriminate]].
    destruct (StatusCode resp =? 404)%Z; [split; [reflexivity|discriminate]|].
    destruct (StatusCode resp =? 403)%Z; [split; [reflexivity|discriminate]|].
    destruct (StatusCode resp =? 422)%Z; split; try reflexivity; discriminate.
  - intros Hno. rewrite (afterCancellation_none _ Hno) in H.
    apply H. left. unfold maxRetries. lia.
  - intros msg Hout.
    destruct (afterCancellation (trace w (ApprovePRWithRetry req)))
      as [[e post]|].
    + destruct H as [_ H]. congruence.
    + destruct H as [r H]; [left; unfold maxRetries; lia|]. congruence.
Qed.

Lemma retry_returns_result_without_cancellation_witness :
  exists r,
    outcome (world openPR [unavailable; approved] [])
            (ApprovePRWithRetry exampleRequest) = Returned (Some r, None).
Proof.
  apply (retry_returns_result_without_cancellation
           (world openPR [unavailable; approved] []) exampleRequest).
  intros d e H. vm_compute in H.
  repeat (destruct H as [H|H]; [discriminate H|]). exact H.
Defined.

(** *** Claims on the feedback reactions *)

Lemma reactionSymbols_app (tr tr' : list Event) :
  reactionSymbols (tr ++ tr') =
  (reactionSymbols tr ++ reactionSymbols tr')%list.
Proof.
  induction tr as [|e tr IH]; [reflexivity|].
  destruct e; simpl; rewrite IH; reflexivity.
Qed.

(** The reactions of [processApproval]: none when validation fails or
    the retry loop returns an error, else one, chosen by the success of
    the result, on the channel and the message of the request. *)
Lemma processApproval_reactions (w : World) (req : ApprovalRequest.t) :
  let validation :=
    validationError (ApprovalRequest.Owner req)
      (ApprovalRequest.Repository req) (ApprovalRequest.PRNumber req)
      (getResponses w 0) in
  let retry := fst (runFrom w afterValidation (ApprovePRWithRetry req)) in
  (validation <> None ->
   reactionSymbols (trace w (processApproval req)) = []) /\
  (forall e, retry = Returned (None, Some e) ->
   reactionSymbols (trace w (processApproval req)) = []) /\
  (forall r source,
      validation = None -> retry = Returned (Some r, None) ->
      ApprovalRequest.SourceMessage req = Some source ->
      outcome w (processApproval req) = Returned tt /\
      reactionSymbols (trace w (processApproval req)) =
      [(if ApprovalResult.Success r then "white_check_mark" else "x",
        ApprovalRequest.SourceChannel req, SlackMessage.Timestamp source)] /\
      exists tr err,
        trace w (processApproval req) =
        (tr ++ [EvAddReaction
                  (if ApprovalResult.Success r then "white_check_mark"
                   else "x")
                  (ApprovalRequest.SourceChannel req)
                  (SlackMessage.Timestamp source) err])%list).
Proof.
  intros validation retry.
  unfold trace, outcome. rewrite run_processApproval. cbv zeta.
  fold validation. subst retry.
  pose proof (retryLoop_events w req maxRetries 0 None None afterValidation)
    as Hev.
  fold (ApprovePRWithRetry req) in Hev.
  apply retry_events_no_reaction in Hev.
  destruct (runFrom w afterValidation (ApprovePRWithRetry req)) as [out tr].
  cbn [fst snd] in *.
  split; [|split].
  - destruct validation; [reflexivity|congruence].
  - intros e ->. destruct validation; [reflexivity|]. exact Hev.
  - intros r source Hv -> Hsrc. rewrite Hv, Hsrc. cbn [fst snd].
    split; [reflexivity|]. split.
    + cbn [reactionSymbols]. rewrite reactionSymbols_app, Hev. reflexivity.
    + eexists (_ :: _), _. reflexivity.
Qed.

(** [ApprovePRWithRetry] returns a result and no error, or no result
    and the error of the context; it does not panic. *)
Lemma ApprovePRWithRetry_returns (w : World) (c : Calls)
      (req : ApprovalRequest.t) :
  (exists r,
      fst (runFrom w c (ApprovePRWithRetry req)) = Returned (Some r, None)) \/
  (exists e,
      fst (runFrom w c (ApprovePRWithRetry req)) =
      Returned (None, Some (contextErr e))).
Proof.
  pose proof (retryLoop_outcome w req maxRetries 0 None None c) as H.
  cbv zeta in H. fold (ApprovePRWithRetry req) in H.
  destruct (afterCancellation (snd (runFrom w c (ApprovePRWithRetry req))))
    as [[e post]|].
  - right. exists e. apply H.
  - left. apply H. left. unfold maxRetries. lia.
Qed.

(** A request that carries its source message is processed to the end:
    [processApproval] returns. *)
Lemma processApproval_returns (w : World) (req : ApprovalRequest.t) :
  ApprovalRequest.SourceMessage req <> None ->
  outcome w (processApproval req) = Returned tt.
Proof.
  intros Hsrc. unfold outcome. rewrite run_processApproval. cbv zeta.
  destruct (validationError _ _ _ (getResponses w 0)); [reflexivity|].
  destruct (ApprovePRWithRetry_returns w afterValidation req)
    as [(r & ->)|(e & ->)]; [|reflexivity].
  destruct (ApprovalRequest.SourceMessage req); [reflexivity|congruence].
Qed.

(** C3, as the code has it: processing-started is "eyes",
    approval-succeeded is "white_check_mark", and approval-failed and
    no-references-found are both "x": three distinct symbols for the
    four kinds. *)
Theorem reaction_symbols :
  reactionVocabulary "eyes" "white_check_mark" "x" "x" /\
  NoDup ["eyes"; "white_check_mark"; "x"].
Proof.
  split.
  - split; [|split].
    + intros w sc msg m HM Hrefs.
      destruct (run_processMessage_references w sc msg m HM Hrefs)
        as (tr & Hrun & Hre & _).
      unfold trace. rewrite Hrun. simpl. now rewrite Hre.
    + intros w req source r Hsrc Hv Hretry.
      now apply (processApproval_reactions w req).
    + intros w sc msg m HM Hrefs. unfold trace.
      now rewrite (run_processMessage_no_references w sc msg m HM Hrefs).
  - repeat constructor; simpl; intuition discriminate.
Qed.

(** C3 as stated fails: no four pairwise distinct symbols are the
    vocabulary of the code, since a failed approval and a message
    without references are both answered with "x". *)
Lemma reaction_symbols_not_distinct :
  ~ exists started succeeded failed noReferences,
      reactionVocabulary started succeeded failed noReferences /\
      NoDup [started; succeeded; failed; noReferences].
Proof.
  intros (a & b & c & d & (_ & Happroval & Hnone) & Hnd).
  specialize (Happroval (world openPR [forbidden] []) exampleRequest
                        exampleMessage
                        (approvalResult exampleRequest 0 forbidden)
                        eq_refl eq_refl eq_refl).
  specialize (Hnone (world openPR [] []) exampleClient deployedMessage
                    {| PatternMatch.Pattern := ".*";
                       PatternMatch.MatchedText :=
                         SlackMessage.Text deployedMessage;
                       PatternMatch.PRReferences := [];
                       PatternMatch.SourceMessage := None |}
                    eq_refl eq_refl).
  vm_compute in Happroval. vm_compute in Hnone.
  injection Happroval as <-. injection Hnone as <-.
  inversion Hnd as [|? ? _ H]. inversion H as [|? ? _ H']. subst.
  inversion H' as [|? ? Hin _]. apply Hin. now left.
Qed.

(** C4, as the code has it.  The processing of a request dispatched
    for a message terminates.  When its validation succeeds and its
    retry loop returns a result, it ends with one reaction on the
    channel and the timestamp of that message: "white_check_mark" on
    success, "x" on failure.  When validation fails, or when the retry
    loop is cancelled, no reaction is applied. *)
Theorem dispatched_approval_feedback
        (w w' : World) (sc : SlackClient) (msg : SlackMessage.t)
        (req : ApprovalRequest.t) :
  In req (dispatched (trace w (processMessage sc msg))) ->
  let validation :=
    validationError (ApprovalRequest.Owner req)
      (ApprovalRequest.Repository req) (ApprovalRequest.PRNumber req)
      (getResponses w' 0) in
  let retry := fst (runFrom w' afterValidation (ApprovePRWithRetry req)) in
  outcome w' (processApproval req) = Returned tt /\
  (validation <> None ->
   reactionSymbols (trace w' (processApproval req)) = []) /\
  (forall e, retry = Returned (None, Some e) ->
   reactionSymbols (trace w' (processApproval req)) = []) /\
  (forall r,
      validation = None -> retry = Returned (Some r, None) ->
      reactionSymbols (trace w' (processApproval req)) =
      [(if ApprovalResult.Success r then "white_check_mark" else "x",
        SlackMessage.Channel msg, SlackMessage.Timestamp msg)] /\
      exists tr err,
        trace w' (processApproval req) =
        (tr ++ [EvAddReaction
                  (if ApprovalResult.Success r then "white_check_mark"
                   else "x")
                  (SlackMessage.Channel msg)
                  (SlackMessage.Timestamp msg) err])%list).
Proof.
  intros Hin validation retry.
  assert (Hreq : ApprovalRequest.SourceMessage req = Some msg /\
                 ApprovalRequest.SourceChannel req = SlackMessage.Channel msg).
  { destruct (Match (matcher sc) (SlackMessage.Text msg)) as [[m|] [e|]] eqn:HM;
      try (unfold trace, run, processMessage in Hin; rewrite HM in Hin;
           simpl in Hin; contradiction).
    destruct (PatternMatch.PRReferences m) as [|prRef refs] eqn:Hrefs.
    - unfold trace in Hin.
      rewrite (run_processMessage_no_references w sc msg m HM Hrefs) in Hin.
      simpl in Hin. contradiction.
    - destruct (run_processMessage_references w sc msg m HM)
        as (tr & Hrun & _ & Hd); [congruence|].
      unfold trace in Hin. rewrite Hrun in Hin. simpl in Hin.
      rewrite Forall_forall in Hd. destruct (Hd req Hin) as (? & ? & _).
      auto. }
  destruct Hreq as [Hsrc Hch].
  destruct (processApproval_reactions w' req) as (H1 & H2 & H3).
  fold validation in H1, H3. fold retry in H2, H3.
  split; [apply processApproval_returns; congruence|].
  split; [exact H1|]. split; [exact H2|].
  intros r Hv Hr. rewrite <- Hch.
  destruct (H3 r msg Hv Hr Hsrc) as (_ & Hre & Htr). auto.
Qed.

Lemma dispatched_approval_feedback_witness :
  In exampleRequest
     (dispatched (trace (world openPR [] [])
                        (processMessage exampleClient exampleMessage))) /\
  reactionSymbols (trace (world openPR [approved] [])
                         (processApproval exampleRequest)) =
  [("white_check_mark", "C012345", "1700000000.000100")].
Proof.
  assert (Hin : In exampleRequest
     (dispatched (trace (world openPR [] [])
                        (processMessage exampleClient exampleMessage)))).
  { vm_compute. now left. }
  split; [exact Hin|].
  destruct (dispatched_approval_feedback
              (world openPR [] []) (world openPR [approved] [])
              exampleClient exampleMessage exampleRequest Hin)
    as (_ & _ & _ & H).
  destruct (H (approvalResult exampleRequest 0 approved) eq_refl eq_refl)
    as (Hre & _).
  exact Hre.
Defined.

(** C4 as stated fails: a dispatched request whose target is reported
    not found ends without any reaction. *)
Lemma validation_failure_applies_no_reaction :
  In exampleRequest
     (dispatched (trace (world openPR [] [])
                        (processMessage exampleClient exampleMessage))) /\
  reportedInvalid notFound /\
  run (world notFound [] []) (processApproval exampleRequest) =
  (Returned tt, [EvGet "acme" "widget" 42 notFound]) /\
  reactionSymbols (trace (world notFound [] [])
                         (processApproval exampleRequest)) = [].
Proof.
  split; [vm_compute; now left|].
  split; [left; discriminate|].
  split; reflexivity.
Qed.

(* ===================================================================== *)
(** ** Further properties *)
(* ===================================================================== *)

(** *** The numbers of the references, on an example *)

Lemma extracted_numbers_in_range_witness :
  In (bareReference 42) (fst (ExtractPRReferences "LGTM #42")) /\
  (0 <= 42 <= maxInt)%Z.
Proof.
  assert (Hin : In (bareReference 42) (fst (ExtractPRReferences "LGTM #42"))).
  { vm_compute. now left. }
  split; [exact Hin|].
  exact (extracted_numbers_in_range "LGTM #42" (bareReference 42) Hin).
Defined.

(** *** Where the references of a text come from *)

(** Every element of the result of [FindAllStringSubmatch] is a match
    of the pattern at a position of the text. *)
Lemma findAllFrom_In_at (r : re) (ngroups : nat) (m : list string) :
  forall s skip,
    In m (findAllFrom r ngroups skip s) ->
    exists pre s' mm,
      s = pre ++ s' /\ matchAt r s' = Some mm /\ m = submatches ngroups s' mm.
Proof.
  assert (Hcons : forall c s,
    (exists pre s' mm,
        s = pre ++ s' /\ matchAt r s' = Some mm /\
        m = submatches ngroups s' mm) ->
    exists pre s' mm,
      String c s = pre ++ s' /\ matchAt r s' = Some mm /\
      m = submatches ngroups s' mm).
  { intros c s (pre & s' & mm & -> & H1 & H2).
    exists (String c pre), s', mm. auto. }
  induction s as [|c s IH]; intros skip Hin.
  - destruct skip; [|contradiction]. simpl in Hin.
    destruct (matchAt r EmptyString) as [mm|] eqn:E; [|contradiction].
    destruct Hin as [<-|[]]. exists EmptyString, EmptyString, mm. auto.
  - destruct skip as [|skip]; [|exact (Hcons _ _ (IH _ Hin))].
    cbn [findAllFrom] in Hin.
    destruct (matchAt r (String c s)) as [mm|] eqn:E;
      [|exact (Hcons _ _ (IH _ Hin))].
    destruct Hin as [<-|Hin]; [|exact (Hcons _ _ (IH _ Hin))].
    exists EmptyString, (String c s), mm. auto.
Qed.

(** X2.  No reference is made up.  A returned reference with a URL
    has that URL standing in the text, an https URL of github.com whose
    owner, repository and digits it carries; a returned reference
    without URL has its number standing in the text after [#], [PR] or
    [PR-] and optional white space. *)
Theorem every_reference_is_written_in_the_text
        (text : string) (r : PRReference.t) :
  In r (fst (ExtractPRReferences text)) ->
  (exists pre post digits,
      text = pre ++ PRReference.URL r ++ post /\
      PRReference.URL r =
      pullRequestURL (PRReference.Owner r) (PRReference.Repository r) digits /\
      strconv_Atoi digits = Some (PRReference.Number r))
  \/
  (r = bareReference (PRReference.Number r) /\
   exists pre marker spaces digits post,
      text = pre ++ marker ++ spaces ++ digits ++ post /\
      (marker = "#" \/ marker = "PR" \/ marker = "PR-") /\
      forallb_string perlSpace spaces = true /\
      strconv_Atoi digits = Some (PRReference.Number r)).
Proof.
  intros Hin. apply ExtractPRReferences_In in Hin as [Hin|(Hr & Hin & _)].
  - left. unfold urlReferences in Hin.
    apply in_flat_map in Hin as (m & Hm & Hstep).
    apply urlStep_In in Hstep as (digits & -> & Hn & Hv).
    apply findAllFrom_In_at in Hm as (pre & s' & mm & -> & Hmatch & Hsub).
    rewrite matchAt_prURLPattern in Hmatch.
    apply prURLMatch_shape in Hmatch
      as (sopt & owner & repo & ds & Hs & _ & _ & _ & _ & Hs' & Hsub').
    rewrite Hsub' in Hsub. injection Hsub as Hurl <- <- <-.
    rewrite Hurl in Hv.
    apply (validateGitHubURL_scheme sopt _ Hs) in Hv as [-> _].
    exists pre, (snd mm), digits.
    split; [now rewrite Hurl, Hs' at 1|].
    split; [exact Hurl|exact Hn].
  - right. split; [exact Hr|]. unfold bareNumbers in Hin.
    apply in_flat_map in Hin as (m & Hm & Hn).
    apply findAllFrom_In_at in Hm as (pre & s' & mm & -> & Hmatch & ->).
    rewrite matchAt_prNumberPattern in Hmatch.
    apply prNumberMatch_shape in Hmatch
      as (marker & spaces & digits & Hmk & Hsp & _ & _ & Hs' & Hsub).
    rewrite Hsub in Hn. unfold bareNumber in Hn.
    destruct (strconv_Atoi digits) as [k|] eqn:Hk; [|contradiction].
    destruct Hn as [Hn|[]].
    exists pre, marker, spaces, digits, (snd mm).
    split; [|split; [exact Hmk|split; [exact Hsp|now rewrite Hk, Hn]]].
    rewrite Hs' at 1. now rewrite !append_assoc.
Qed.

Lemma every_reference_is_written_in_the_text_witness :
  In (bareReference 7) (fst (ExtractPRReferences "ship PR- 7 now")) /\
  ((exists pre post digits,
       "ship PR- 7 now" = pre ++ EmptyString ++ post /\
       EmptyString = pullRequestURL EmptyString EmptyString digits /\
       strconv_Atoi digits = Some 7%Z)
   \/
   (bareReference 7 = bareReference 7 /\
    exists pre marker spaces digits post,
      "ship PR- 7 now" = pre ++ marker ++ spaces ++ digits ++ post /\
      (marker = "#" \/ marker = "PR" \/ marker = "PR-") /\
      forallb_string perlSpace spaces = true /\
      strconv_Atoi digits = Some 7%Z)).
Proof.
  assert (Hin : In (bareReference 7)
                   (fst (ExtractPRReferences "ship PR- 7 now"))).
  { vm_compute. now left. }
  split; [exact Hin|].
  exact (every_reference_is_written_in_the_text
           "ship PR- 7 now" (bareReference 7) Hin).
Defined.

(** *** Where the URL of a pull request is found *)

Lemma trimPrefix_self (p s : string) : trimPrefix p (p ++ s) = Some s.
Proof.
  induction p as [|a p IH]; [reflexivity|].
  cbn [append trimPrefix]. now rewrite Ascii.eqb_refl.
Qed.

Lemma nonEmpty_of (s : string) : s <> EmptyString -> nonEmpty s = true.
Proof. apply nonEmpty_true. Qed.

(** The URL of a pull request is a match of the URL pattern where it
    stands, with its owner, repository and digits as the groups. *)
Lemma pullRequestURL_matches (owner repo digits post : string) :
  owner <> EmptyString -> forallb_string notSpaceSlash owner = true ->
  repo <> EmptyString -> forallb_string notSpaceSlash repo = true ->
  digits <> EmptyString -> forallb_string isDigit digits = true ->
  startsWithDigit post = false ->
  prURLMatch (pullRequestURL owner repo digits ++ post) =
  Some ([(3, digits); (2, repo); (1, owner)], post).
Proof.
  intros Ho Howner Hr Hrepo Hd Hdigits Hpost.
  assert (E : pullRequestURL owner repo digits ++ post =
              "http" ++ String "s"
                ("://github.com/" ++ owner ++ String "/"
                   (repo ++ "/pull/" ++ digits ++ post))).
  { unfold pullRequestURL. rewrite !append_assoc. reflexivity. }
  rewrite E. unfold prURLMatch.
  rewrite trimPrefix_self. cbn [skipByte].
  rewrite Ascii.eqb_refl, trimPrefix_self. cbv zeta.
  destruct (takeWhile_run notSpaceSlash owner
              (String "/" (repo ++ "/pull/" ++ digits ++ post)) Howner eq_refl)
    as [-> ->].
  rewrite (nonEmpty_of owner Ho). cbv iota beta.
  destruct (takeWhile_run notSpaceSlash repo
              ("/pull/" ++ digits ++ post) Hrepo eq_refl)
    as [-> ->].
  rewrite (nonEmpty_of repo Hr), trimPrefix_self.
  assert (Hrun : takeWhile isDigit (digits ++ post) = digits /\
                 dropWhile isDigit (digits ++ post) = post).
  { apply takeWhile_run; [exact Hdigits|]. now destruct post. }
  destruct Hrun as [-> ->].
  now rewrite (nonEmpty_of digits Hd).
Qed.

Lemma notSpaceSlash_noSpace (c : ascii) :
  notSpaceSlash c = true -> noSpace c = true.
Proof.
  unfold notSpaceSlash, noSpace. intros H.
  apply negb_true_iff in H. apply orb_false_iff in H as [-> _]. reflexivity.
Qed.

Lemma isDigit_noSpace (c : ascii) : isDigit c = true -> noSpace c = true.
Proof.
  unfold isDigit, noSpace, posixSpace. intros H.
  apply andb_true_iff in H as [H1 H2].
  apply N.leb_le in H1, H2. apply negb_true_iff.
  generalize dependent (byte c). intros b H1 H2.
  apply orb_false_iff. split.
  - apply andb_false_iff. right. apply N.leb_gt. lia.
  - apply N.eqb_neq. lia.
Qed.

(** A match of the URL pattern is not empty and holds no white space. *)
Lemma prURLMatch_noSpace (s : string) (mm : Caps * string) :
  prURLMatch s = Some mm ->
  exists c m,
    s = String c m ++ snd mm /\ forallb_string noSpace (String c m) = true.
Proof.
  unfold prURLMatch.
  destruct (trimPrefix "http" s) as [s1|] eqn:E1; [|discriminate].
  destruct (trimPrefix "://github.com/" (skipByte "s" s1)) as [s2|] eqn:E2;
    [|discriminate].
  cbv zeta.
  destruct (nonEmpty (takeWhile notSpaceSlash s2)) eqn:Ho; [|discriminate].
  destruct (dropWhile notSpaceSlash s2) as [|c s3] eqn:E3; [discriminate|].
  destruct (Ascii.eqb_spec c "/") as [->|Hc].
  2:{ destruct c as [[] [] [] [] [] [] [] []]; try discriminate. now elim Hc. }
  destruct (nonEmpty (takeWhile notSpaceSlash s3)) eqn:Hr; [|discriminate].
  destruct (trimPrefix "/pull/" (dropWhile notSpaceSlash s3)) as [s4|] eqn:E4;
    [|discriminate].
  destruct (nonEmpty (takeWhile isDigit s4)) eqn:Hd; [|discriminate].
  intros [= <-]. cbn [snd].
  destruct (skipByte_shape "s" s1) as (sopt & Hsopt & Hs1).
  pose proof (forallb_string_impl _ _ _ notSpaceSlash_noSpace
                (takeWhile_all notSpaceSlash s2)) as H2.
  pose proof (forallb_string_impl _ _ _ notSpaceSlash_noSpace
                (takeWhile_all notSpaceSlash s3)) as H3.
  pose proof (forallb_string_impl _ _ _ isDigit_noSpace
                (takeWhile_all isDigit s4)) as H4.
  exists "h"%char,
         ("ttp" ++ sopt ++ "://github.com/" ++ takeWhile notSpaceSlash s2
          ++ "/" ++ takeWhile notSpaceSlash s3 ++ "/pull/"
          ++ takeWhile isDigit s4).
  split.
  - apply trimPrefix_append in E1, E2, E4.
    rewrite E1, Hs1, E2.
    rewrite <- (takeWhile_dropWhile notSpaceSlash s2) at 1. rewrite E3.
    rewrite <- (takeWhile_dropWhile notSpaceSlash s3) at 1. rewrite E4.
    rewrite <- (takeWhile_dropWhile isDigit s4) at 1.
    repeat first [rewrite append_assoc | progress cbn [append]].
    reflexivity.
  - change (String "h" ("ttp" ++ ?x)) with ("http" ++ x).
    rewrite !forallb_string_app, H2, H3, H4.
    destruct Hsopt as [-> | ->]; reflexivity.
Qed.

Lemma atBoundary_tail (c : ascii) (p : string) :
  atBoundary (String c p) = true -> atBoundary p = true.
Proof. destruct p; [reflexivity|auto]. Qed.

(** A match that starts before a boundary ends before it. *)
Lemma boundary_not_crossed (m : string) :
  forall (a b : ascii) (p rest X : string),
    forallb_string noSpace (String a m) = true ->
    atBoundary (String b p) = true ->
    String a m ++ rest = String b p ++ X ->
    exists mid,
      rest = mid ++ X /\ String.length mid <= String.length p /\
      atBoundary mid = true.
Proof.
  induction m as [|a' m IH]; intros a b p rest X Hm Hp E.
  - cbn [append] in E. injection E as <- E.
    destruct p as [|b' p].
    + cbn in Hp. rewrite forallb_string_cons in Hm.
      unfold noSpace in Hm. rewrite Hp in Hm. discriminate.
    + exists (String b' p). split; [exact E|]. split; [lia|exact Hp].
  - cbn [append] in E. injection E as <- E.
    rewrite forallb_string_cons in Hm. apply andb_true_iff in Hm as [Ha Hm].
    destruct p as [|b' p].
    + cbn in Hp. unfold noSpace in Ha. rewrite Hp in Ha. discriminate.
    + destruct (IH a' b' p rest X Hm Hp E) as (mid & Hmid & Hlen & Hb).
      exists mid. split; [exact Hmid|]. split; [simpl; lia|exact Hb].
Qed.

(** The URL of a pull request is found where it starts a word. *)
Lemma pullRequestURL_found (owner repo digits post : string) :
  owner <> EmptyString -> forallb_string notSpaceSlash owner = true ->
  repo <> EmptyString -> forallb_string notSpaceSlash repo = true ->
  digits <> EmptyString -> forallb_string isDigit digits = true ->
  startsWithDigit post = false ->
  forall pre,
    atBoundary pre = true ->
    In [pullRequestURL owner repo digits; owner; repo; digits]
       (regexp_FindAllStringSubmatch prURLPattern 3
          (pre ++ pullRequestURL owner repo digits ++ post)).
Proof.
  intros Ho Howner Hr Hrepo Hd Hdigits Hpost.
  pose proof (pullRequestURL_matches owner repo digits post
                Ho Howner Hr Hrepo Hd Hdigits Hpost) as HmX.
  rewrite <- matchAt_prURLPattern in HmX.
  set (url := pullRequestURL owner repo digits) in *.
  assert (Hurl : url <> EmptyString) by discriminate.
  assert (Hempty : matchAt prURLPattern EmptyString = None) by reflexivity.
  unfold regexp_FindAllStringSubmatch.
  intros pre. remember (String.length pre) as n eqn:Hn.
  assert (Hlen : String.length pre <= n) by lia. clear Hn.
  revert pre Hlen. induction n as [|n IH]; intros pre Hlen Hb.
  - destruct pre; [|simpl in Hlen; lia]. cbn [append].
    rewrite (findAllFrom_match _ _ url post
               ([(3, digits); (2, repo); (1, owner)], post)
               Hempty Hurl eq_refl HmX).
    left. unfold submatches. cbn [snd fst seq map getCap Nat.eqb].
    now rewrite consumed_append.
  - destruct pre as [|c pre]; [apply (IH EmptyString); [simpl; lia|exact Hb]|].
    simpl in Hlen. cbn [append].
    destruct (matchAt prURLPattern (String c (pre ++ url ++ post)))
      as [mm|] eqn:E.
    + pose proof E as E'. rewrite matchAt_prURLPattern in E'.
      apply prURLMatch_noSpace in E' as (c' & m & Hs & Hm).
      change (String c (pre ++ url ++ post))
        with (String c pre ++ url ++ post) in Hs.
      destruct (boundary_not_crossed m c' c pre (snd mm) (url ++ post)
                  Hm Hb (eq_sym Hs))
        as (mid & Hmid & Hlen' & Hb').
      change (String c (pre ++ url ++ post))
        with (String c pre ++ url ++ post) in E |- *.
      rewrite Hs in E |- *.
      rewrite (findAllFrom_match _ _ (String c' m) (snd mm) mm);
        auto; [|discriminate].
      right. rewrite Hmid. apply IH; [lia|exact Hb'].
    + rewrite findAllFrom_no_match by exact E.
      apply IH; [lia|]. exact (atBoundary_tail c pre Hb).
Qed.

(** *** [url.Parse] on the URL of a pull request *)

Lemma stringContainsCTLByte_none (s : string) :
  forallb_string (fun c => negb (isCTL c)) s = true ->
  stringContainsCTLByte s = false.
Proof.
  induction s as [|c s IH]; [reflexivity|].
  rewrite forallb_string_cons. intros H. apply andb_true_iff in H as [Hc Hs].
  cbn [stringContainsCTLByte]. apply negb_true_iff in Hc.
  now rewrite Hc, IH.
Qed.

Lemma strings_Cut_none (s : string) (sep : ascii) :
  forallb_string (fun c => negb (Ascii.eqb c sep)) s = true ->
  strings_Cut s sep = (s, EmptyString, false).
Proof.
  induction s as [|c s IH]; [reflexivity|].
  rewrite forallb_string_cons. intros H. apply andb_true_iff in H as [Hc Hs].
  cbn [strings_Cut]. apply negb_true_iff in Hc.
  now rewrite Hc, IH.
Qed.

Lemma endsWith_none (s : string) (sep : ascii) :
  forallb_string (fun c => negb (Ascii.eqb c sep)) s = true ->
  endsWith s sep = false.
Proof.
  induction s as [|c s IH]; [reflexivity|].
  rewrite forallb_string_cons. intros H. apply andb_true_iff in H as [Hc Hs].
  apply negb_true_iff in Hc. destruct s as [|c' s]; [exact Hc|].
  now apply IH.
Qed.

(** A path without [%] is left as it is. *)
Lemma unescape_path_plain (s : string) :
  forallb_string (fun c => negb (Ascii.eqb c "%")) s = true ->
  unescape s encodePath = Some s.
Proof.
  induction s as [|c s IH]; [reflexivity|].
  rewrite forallb_string_cons. intros H. apply andb_true_iff in H as [Hc Hs].
  assert (E : unescape (String c s) encodePath =
              option_map (String c) (unescape s encodePath)).
  { destruct c as [[] [] [] [] [] [] [] []];
      try reflexivity; discriminate Hc. }
  now rewrite E, IH.
Qed.

Lemma nameByte_plain (c : ascii) :
  nameByte c = true ->
  negb (isCTL c) = true /\ negb (Ascii.eqb c "#") = true /\
  negb (Ascii.eqb c "?") = true /\ negb (Ascii.eqb c "%") = true /\
  notSpaceSlash c = true.
Proof.
  destruct c as [[] [] [] [] [] [] [] []];
    try discriminate; intros _; repeat split.
Qed.

Lemma isDigit_nameByte (c : ascii) : isDigit c = true -> nameByte c = true.
Proof. unfold nameByte. intros ->. now rewrite orb_true_r. Qed.

(** [url.Parse] accepts the URL of a pull request whose owner and
    repository are names, with the scheme https and the host
    github.com. *)
Lemma url_Parse_pullRequestURL (owner repo digits : string) :
  forallb_string nameByte owner = true ->
  forallb_string nameByte repo = true ->
  forallb_string isDigit digits = true ->
  url_Parse (pullRequestURL owner repo digits) =
  Some {| Scheme := "https"; Host := "github.com" |}.
Proof.
  intros Howner Hrepo Hdigits.
  assert (Hd : forallb_string nameByte digits = true).
  { revert Hdigits. apply forallb_string_impl, isDigit_nameByte. }
  assert (Hall : forall (P : ascii -> bool) (lit : string),
    (forall c, nameByte c = true -> P c = true) ->
    forallb_string P lit = true ->
    forallb_string P "/pull/" = true ->
    forallb_string P "/" = true ->
    forallb_string P
      (lit ++ owner ++ "/" ++ repo ++ "/pull/" ++ digits) = true).
  { intros P lit HP Hlit Hpull Hslash.
    rewrite !forallb_string_app.
    rewrite (forallb_string_impl _ P owner HP Howner).
    rewrite (forallb_string_impl _ P repo HP Hrepo).
    rewrite (forallb_string_impl _ P digits HP Hd).
    now rewrite Hlit, Hpull, Hslash. }
  unfold url_Parse.
  rewrite strings_Cut_none.
  2:{ apply (Hall _ "https://github.com/"); try reflexivity.
      intros c Hc. now apply nameByte_plain. }
  unfold parse.
  rewrite stringContainsCTLByte_none.
  2:{ apply (Hall _ "https://github.com/"); try reflexivity.
      intros c Hc. now apply nameByte_plain. }
  change (String.eqb (pullRequestURL owner repo digits) "*") with false.
  change (getScheme (pullRequestURL owner repo digits))
    with (SchemeOk "https"
            ("//github.com/" ++ owner ++ "/" ++ repo ++ "/pull/" ++ digits)).
  cbv iota beta zeta.
  assert (Hq : forallb_string (fun c => negb (Ascii.eqb c "?"))
                 ("//github.com/" ++ owner ++ "/" ++ repo ++ "/pull/"
                  ++ digits) = true).
  { apply (Hall _ "//github.com/"); try reflexivity.
    intros c Hc. now apply nameByte_plain. }
  rewrite (endsWith_none _ _ Hq), (strings_Cut_none _ _ Hq).
  cbn [andb fst].
  change (strings_ToLower "https") with "https".
  change (strings_HasPrefix
            ("//github.com/" ++ owner ++ "/" ++ repo ++ "/pull/" ++ digits) "/")
    with true.
  change (strings_HasPrefix
            ("//github.com/" ++ owner ++ "/" ++ repo ++ "/pull/" ++ digits)
            "//")
    with true.
  change (String.eqb "https" EmptyString) with false.
  cbn [negb orb andb].
  change (strings_Cut
            (drop 2 ("//github.com/" ++ owner ++ "/" ++ repo ++ "/pull/"
                     ++ digits)) "/")
    with ("github.com", owner ++ "/" ++ repo ++ "/pull/" ++ digits, true).
  cbv iota beta.
  change (parseAuthority "github.com") with (Some "github.com").
  cbv iota beta.
  rewrite unescape_path_plain; [reflexivity|].
  change (String "/" (owner ++ "/" ++ repo ++ "/pull/" ++ digits))
    with ("/" ++ owner ++ "/" ++ repo ++ "/pull/" ++ digits).
  apply (Hall _ "/"); try reflexivity.
  intros c Hc. now apply nameByte_plain.
Qed.

Lemma nameByte_notSpaceSlash (s : string) :
  forallb_string nameByte s = true -> forallb_string notSpaceSlash s = true.
Proof. apply forallb_string_impl. intros c Hc. now apply nameByte_plain. Qed.

Lemma strconv_Atoi_nonEmpty (s : string) (n : Z) :
  strconv_Atoi s = Some n -> s <> EmptyString.
Proof. intros H ->. discriminate H. Qed.

(** The reference of the URL of a pull request that starts a word. *)
Lemma pullRequestURL_reference (pre owner repo digits post : string) (n : Z) :
  atBoundary pre = true ->
  owner <> EmptyString -> forallb_string nameByte owner = true ->
  repo <> EmptyString -> forallb_string nameByte repo = true ->
  forallb_string isDigit digits = true ->
  startsWithDigit post = false ->
  strconv_Atoi digits = Some n ->
  In {| PRReference.Owner := owner;
        PRReference.Repository := repo;
        PRReference.Number := n;
        PRReference.URL := pullRequestURL owner repo digits |}
     (urlReferences (pre ++ pullRequestURL owner repo digits ++ post)).
Proof.
  intros Hb Ho Howner Hr Hrepo Hdigits Hpost Hn.
  unfold urlReferences. apply in_flat_map.
  exists [pullRequestURL owner repo digits; owner; repo; digits].
  split.
  - apply pullRequestURL_found; auto using nameByte_notSpaceSlash.
    exact (strconv_Atoi_nonEmpty digits n Hn).
  - unfold urlStep. rewrite Hn. unfold validateGitHubURL.
    rewrite (url_Parse_pullRequestURL owner repo digits Howner Hrepo Hdigits).
    now left.
Qed.

(** X3.  A pull request URL is extracted wherever it starts a word.
    For every text in which [https://github.com/<owner>/<repo>/pull/<digits>]
    stands at the start or after white space, the owner and the
    repository being names (letters, digits, [-], [_], [.]) and the
    digits a whole run that fits an int, the result holds the reference
    with that owner, repository, number and URL. *)
Theorem pull_request_url_is_extracted
        (pre owner repo digits post : string) (n : Z) :
  atBoundary pre = true ->
  owner <> EmptyString -> forallb_string nameByte owner = true ->
  repo <> EmptyString -> forallb_string nameByte repo = true ->
  forallb_string isDigit digits = true ->
  startsWithDigit post = false ->
  strconv_Atoi digits = Some n ->
  In {| PRReference.Owner := owner;
        PRReference.Repository := repo;
        PRReference.Number := n;
        PRReference.URL := pullRequestURL owner repo digits |}
     (fst (ExtractPRReferences
             (pre ++ pullRequestURL owner repo digits ++ post))).
Proof.
  intros Hb Ho Howner Hr Hrepo Hdigits Hpost Hn.
  apply ExtractPRReferences_In. left.
  now apply pullRequestURL_reference.
Qed.

Lemma pull_request_url_is_extracted_witness :
  In {| PRReference.Owner := "acme";
        PRReference.Repository := "widget.js";
        PRReference.Number := 42;
        PRReference.URL := pullRequestURL "acme" "widget.js" "42" |}
     (fst (ExtractPRReferences
             ("LGTM " ++ pullRequestURL "acme" "widget.js" "42"
              ++ ", thanks"))).
Proof.
  apply (pull_request_url_is_extracted
           "LGTM " "acme" "widget.js" "42" ", thanks" 42%Z).
  - reflexivity.
  - discriminate.
  - reflexivity.
  - discriminate.
  - reflexivity.
  - reflexivity.
  - reflexivity.
  - reflexivity.
Defined.

(** *** What [validateGitHubURL] accepts *)

Lemma length_take (s p : string) : take (String.length p) (p ++ s) = p.
Proof. apply take_append. Qed.

(** A scheme that [getScheme] splits off stands before the first
    colon. *)
Lemma getSchemeFrom_split (s : string) :
  forall p scheme rest,
    getSchemeFrom (p ++ s) (String.length p) s = SchemeOk scheme rest ->
    scheme <> EmptyString ->
    p ++ s = scheme ++ ":" ++ rest.
Proof.
  induction s as [|c s IH]; intros p scheme rest H Hne.
  - injection H as <- _. now elim Hne.
  - assert (Hnext :
      getSchemeFrom (p ++ String c s) (S (String.length p)) s =
      SchemeOk scheme rest ->
      p ++ String c s = scheme ++ ":" ++ rest).
    { intros H'.
      assert (E : p ++ String c s = (p ++ String c EmptyString) ++ s)
        by now rewrite append_assoc.
      rewrite E in H' |- *. apply IH; [|exact Hne].
      now rewrite length_append, Nat.add_1_r. }
    cbn [getSchemeFrom] in H.
    destruct (isLetter c); [now apply Hnext|].
    destruct (isDigit c || Ascii.eqb c "+" || Ascii.eqb c "-"
              || Ascii.eqb c ".").
    { destruct (Nat.eqb (String.length p) 0); [|now apply Hnext].
      injection H as <- _. now elim Hne. }
    destruct (Ascii.eqb_spec c ":") as [->|_].
    + destruct (Nat.eqb (String.length p) 0); [discriminate|].
      injection H as <- <-. now rewrite take_append.
    + injection H as <- _. now elim Hne.
Qed.

Lemma strings_Cut_before (s : string) (sep : ascii) :
  exists tail, s = fst (fst (strings_Cut s sep)) ++ tail.
Proof.
  induction s as [|c s (tail & IH)]; [now exists EmptyString|].
  cbn [strings_Cut]. destruct (Ascii.eqb c sep).
  - now exists (String c s).
  - destruct (strings_Cut s sep) as [[before after] found].
    cbn [fst] in *. exists tail. cbn [append]. now rewrite <- IH.
Qed.

(** X4.  [validateGitHubURL] accepts a URL exactly when [url.Parse]
    accepts it and gives it the scheme https; the host plays no part,
    since the branch for a host other than github.com returns the nil
    error of the parse.  Every URL it accepts starts with [https:], in
    any letter case.  So a pull request URL of another site is
    accepted. *)
Theorem validateGitHubURL_ignores_the_host (urlStr : string) :
  (validateGitHubURL urlStr = None <->
   exists u, url_Parse urlStr = Some u /\ Scheme u = "https") /\
  (validateGitHubURL urlStr = None ->
   exists scheme rest,
     urlStr = scheme ++ ":" ++ rest /\ strings_ToLower scheme = "https") /\
  validateGitHubURL "HTTPS://gitlab.com/acme/widget/pull/42" = None.
Proof.
  assert (Hiff : validateGitHubURL urlStr = None <->
                 exists u, url_Parse urlStr = Some u /\ Scheme u = "https").
  { unfold validateGitHubURL.
    destruct (url_Parse urlStr) as [u|].
    - destruct (String.eqb_spec (Scheme u) "https") as [Hs|Hs]; cbn [negb].
      + destruct (negb (strings_EqualFold (Host u) "github.com"));
          (split; [eauto|reflexivity]).
      + split; [discriminate|]. intros (u' & [= <-] & H). contradiction.
    - split; [discriminate|]. intros (u' & H & _). discriminate. }
  split; [exact Hiff|]. split; [|reflexivity].
  intros H. apply Hiff in H as (u & Hparse & Hscheme).
  apply url_Parse_parse in Hparse.
  destruct (strings_Cut_before urlStr "#") as (tail & Htail).
  set (before := fst (fst (strings_Cut urlStr "#"))) in *.
  assert (Hstar : before <> "*").
  { intros E. rewrite E in Hparse. cbn in Hparse.
    injection Hparse as <-. discriminate Hscheme. }
  apply parse_Scheme in Hparse as (scheme & rest & Hg & Hlow); [|exact Hstar].
  rewrite Hscheme in Hlow.
  assert (Hne : scheme <> EmptyString).
  { intros ->. discriminate Hlow. }
  pose proof (getSchemeFrom_split before EmptyString scheme rest Hg Hne) as E.
  cbn [append] in E.
  exists scheme, (rest ++ tail). split; [|now symmetry].
  rewrite Htail, E. now rewrite !append_assoc.
Qed.

(** *** Which attempts end the retry loop *)

Lemma strings_HasPrefix_append (s t p : string) :
  strings_HasPrefix s p = true -> strings_HasPrefix (s ++ t) p = true.
Proof.
  revert s. induction p as [|a p IH]; intros s; [now destruct s, t|].
  destruct s as [|b s]; [discriminate|]. simpl.
  intros H. apply andb_true_iff in H as [-> H]. now apply IH.
Qed.

Lemma strings_Contains_cons (c : ascii) (s p : string) :
  strings_Contains (String c s) p =
  strings_HasPrefix (String c s) p || strings_Contains s p.
Proof. reflexivity. Qed.

Lemma strings_Contains_append_r (s t p : string) :
  strings_Contains s p = true -> strings_Contains (s ++ t) p = true.
Proof.
  induction s as [|c s IH].
  - destruct p; [|discriminate]. now destruct t.
  - rewrite strings_Contains_cons. intros H.
    change (String c s ++ t) with (String c (s ++ t)).
    rewrite strings_Contains_cons.
    apply orb_true_iff in H as [H|H].
    + change (String c (s ++ t)) with (String c s ++ t).
      now rewrite (strings_HasPrefix_append _ t _ H).
    + rewrite (IH H). apply orb_true_r.
Qed.

Lemma strings_Contains_append_l (a s p : string) :
  strings_Contains s p = true -> strings_Contains (a ++ s) p = true.
Proof.
  intros H. induction a as [|c a IH]; [exact H|].
  change (String c a ++ s) with (String c (a ++ s)).
  rewrite strings_Contains_cons, IH. apply orb_true_r.
Qed.

(** A run of bytes that differ from the first byte of [p] holds no
    start of an occurrence of [p]. *)
Lemma strings_Contains_skip (d rest : string) (p0 : ascii) (p : string) :
  forallb_string (fun c => negb (Ascii.eqb p0 c)) d = true ->
  strings_Contains (d ++ rest) (String p0 p) =
  strings_Contains rest (String p0 p).
Proof.
  induction d as [|c d IH]; [reflexivity|].
  rewrite forallb_string_cons. intros H.
  apply andb_true_iff in H as [Hc Hd].
  cbn [append strings_Contains strings_HasPrefix].
  apply negb_true_iff in Hc. rewrite Hc. cbn [andb orb]. now apply IH.
Qed.

Lemma isDigit_ascii_of_N (n : N) :
  isDigit (ascii_of_N (48 + n mod 10)) = true.
Proof.
  unfold isDigit, byte.
  assert (H : (n mod 10 < 10)%N) by (apply N.mod_lt; discriminate).
  generalize dependent (n mod 10)%N. intros m H.
  rewrite N_ascii_embedding by lia.
  apply andb_true_iff. split; apply N.leb_le; lia.
Qed.

Lemma digitsOf_digits (fuel : nat) :
  forall n acc,
    forallb_string isDigit acc = true ->
    forallb_string isDigit (digitsOf fuel n acc) = true.
Proof.
  induction fuel as [|fuel IH]; intros n acc Hacc; [exact Hacc|].
  cbn [digitsOf].
  assert (H : forallb_string isDigit
                (String (ascii_of_N (48 + n mod 10)) acc) = true).
  { now rewrite forallb_string_cons, isDigit_ascii_of_N, Hacc. }
  destruct (n / 10 =? 0)%N; [exact H|now apply IH].
Qed.

(** What [%d] prints is a run of digits, after a minus sign for a
    negative number. *)
Lemma strconv_Itoa_bytes (n : Z) :
  forallb_string (fun c => isDigit c || Ascii.eqb c "-") (strconv_Itoa n)
  = true.
Proof.
  assert (H : forall s, forallb_string isDigit s = true ->
                        forallb_string (fun c => isDigit c || Ascii.eqb c "-") s
                        = true).
  { intros s. apply forallb_string_impl. intros c ->. reflexivity. }
  destruct n as [|p|p]; [reflexivity| |].
  - apply H, digitsOf_digits. reflexivity.
  - unfold strconv_Itoa. rewrite forallb_string_cons.
    rewrite H by (apply digitsOf_digits; reflexivity). reflexivity.
Qed.

(** The text [ApprovePR] puts before the error of the API holds no
    permanent-failure substring and no start of one. *)
Lemma wrapped_error_Contains (n : Z) (text p : string) :
  In p permanentErrors ->
  strings_Contains ("failed to approve PR #" ++ strconv_Itoa n ++ ": " ++ text) p
  = strings_Contains text p.
Proof.
  intros Hp.
  assert (Hskip : forall p0 p',
    isDigit p0 = false -> Ascii.eqb p0 "-" = false ->
    strings_Contains (strconv_Itoa n ++ ": " ++ text) (String p0 p') =
    strings_Contains (": " ++ text) (String p0 p')).
  { intros p0 p' H1 H2. apply strings_Contains_skip.
    generalize (strconv_Itoa_bytes n). apply forallb_string_impl.
    intros c Hc. apply negb_true_iff.
    destruct (Ascii.eqb_spec p0 c) as [<-|]; [|reflexivity].
    now rewrite H1, H2 in Hc. }
  unfold permanentErrors in Hp.
  repeat (destruct Hp as [<-|Hp]);
    try (cbn [append strings_Contains strings_HasPrefix Ascii.eqb Bool.eqb
              andb orb];
         fold (append (strconv_Itoa n) (": " ++ text));
         rewrite Hskip by reflexivity; reflexivity).
  contradiction.
Qed.

Lemma existsb_ext_In {A : Type} (f g : A -> bool) (l : list A) :
  (forall a, In a l -> f a = g a) -> existsb f l = existsb g l.
Proof.
  induction l as [|a l IH]; intros H; [reflexivity|]. simpl.
  rewrite (H a) by now left. rewrite IH; [reflexivity|].
  intros b Hb. apply H. now right.
Qed.

Lemma isPermanentError_wrapped (n : Z) (text : string) :
  isPermanentError ("failed to approve PR #" ++ strconv_Itoa n ++ ": " ++ text)
  = isPermanentError text.
Proof.
  unfold isPermanentError. apply existsb_ext_In.
  intros p Hp. now apply wrapped_error_Contains.
Qed.

Lemma isPermanentError_Contains (msg p : string) :
  In p permanentErrors -> strings_Contains msg p = true ->
  isPermanentError msg = true.
Proof.
  intros Hin Hp. unfold isPermanentError. apply existsb_exists. eauto.
Qed.

Lemma approvalResult_RetryAttempts (req : ApprovalRequest.t) (now : Z)
      (resp : ReviewResponse) :
  ApprovalResult.RetryAttempts (approvalResult req now resp) = 0%Z.
Proof.
  destruct resp as [[review response] [e|]]; [|reflexivity].
  unfold approvalResult. destruct response as [r|]; [|reflexivity].
  destruct (StatusCode r =? 404)%Z; [reflexivity|].
  destruct (StatusCode r =? 403)%Z; [reflexivity|].
  destruct (StatusCode r =? 422)%Z; reflexivity.
Qed.

(** X5.  An attempt ends the retry loop exactly when the call succeeded,
    or answered 404, 403 or 422, or failed with an error whose text
    holds one of the permanent-failure substrings; every other failed
    attempt is retried. *)
Theorem attempt_is_final_exactly_when
        (req : ApprovalRequest.t) (now : Z)
        (review : option github_PullRequestReview)
        (response : option github_Response) (err : option error) :
  final (approvalResult req now (review, response, err)) =
  match err with
  | None => true
  | Some e => statusPermanent response || isPermanentError (Error e)
  end.
Proof.
  destruct err as [e|]; [|reflexivity].
  unfold final, approvalResult, statusPermanent.
  destruct response as [resp|];
    [|cbn [ApprovalResult.Success ApprovalResult.Error orb];
      apply isPermanentError_wrapped].
  destruct (StatusCode resp =? 404)%Z.
  { cbn [ApprovalResult.Success ApprovalResult.Error orb].
    apply (isPermanentError_Contains _ "not found"); [simpl; auto|].
    apply (strings_Contains_append_l "PR #").
    apply strings_Contains_append_l. reflexivity. }
  destruct (StatusCode resp =? 403)%Z.
  { cbn [ApprovalResult.Success ApprovalResult.Error orb].
    apply (isPermanentError_Contains _ "insufficient permissions");
      [simpl; auto|].
    reflexivity. }
  destruct (StatusCode resp =? 422)%Z.
  { cbn [ApprovalResult.Success ApprovalResult.Error orb].
    apply (isPermanentError_Contains _ "already merged"); [simpl; auto 6|].
    apply (strings_Contains_append_l "PR #").
    apply strings_Contains_append_l. reflexivity. }
  cbn [ApprovalResult.Success ApprovalResult.Error orb].
  apply isPermanentError_wrapped.
Qed.

(** *** What the retry loop returns *)

Lemma approvalCalls_app (tr tr' : list Event) :
  approvalCalls (tr ++ tr') = (approvalCalls tr ++ approvalCalls tr')%list.
Proof. apply filter_app. Qed.

Lemma delays_app (tr tr' : list Event) :
  delays (tr ++ tr') = (delays tr ++ delays tr')%list.
Proof.
  induction tr as [|e tr IH]; [reflexivity|].
  destruct e; simpl; rewrite IH; reflexivity.
Qed.

Section RetryResults.
Variable w : World.
Variable req : ApprovalRequest.t.

Ltac retry_step rem attempt last lastErr c :=
  rewrite (runFrom_retryLoop_S w req rem attempt last lastErr c);
  cbv zeta;
  destruct (Nat.ltb 0 attempt) eqn:Hattempt;
  [destruct (selectOutcomes w (nSelect c)) | ];
  try rewrite runFrom_attempt; cbv zeta.

(** The result of the loop is the result of one of its attempts with
    the count of retries set: to the index of the attempt when that
    attempt ends the loop, to [maxRetries] when the iterations are used
    up. *)
Lemma retryLoop_result :
  forall rem attempt last lastErr c r,
    (forall l, last = Some l ->
       final l = false /\ exists now resp, l = approvalResult req now resp) ->
    fst (runFrom w c (retryLoop req rem attempt last lastErr)) =
    Returned (Some r, None) ->
    exists now resp calls,
      calls =
      List.length
        (approvalCalls
           (snd (runFrom w c (retryLoop req rem attempt last lastErr)))) /\
      ((final (approvalResult req now resp) = true /\
        r = setRetryAttempts (approvalResult req now resp)
              (Z.of_nat (attempt + calls - 1)) /\
        0 < calls <= rem) \/
       (final (approvalResult req now resp) = false /\
        r = setRetryAttempts (approvalResult req now resp)
              (Z.of_nat maxRetries) /\
        calls = rem)).
Proof.
  induction rem as [|rem IH]; intros attempt last lastErr c r Hlast.
  - simpl. destruct last as [l|]; [|discriminate].
    intros [= <-]. destruct (Hlast l eq_refl) as (Hf & now & resp & ->).
    exists now, resp, 0. split; [reflexivity|]. right. auto.
  - retry_step rem attempt last lastErr c; unfold attemptResult.
    + destruct (ApprovalResult.Success _ || isPermanentError _) eqn:Hf;
        cbn [fst snd].
      * intros [= <-]. rewrite approvalResult_RetryAttempts. cbn [Z.eqb].
        eexists _, _, 1. split; [reflexivity|]. left.
        split; [exact Hf|].
        replace (attempt + 1 - 1) with attempt by lia.
        split; [reflexivity|lia].
      * intros Hout.
        apply IH in Hout as (now & resp & calls & Hc & H).
        2:{ intros l [= <-]. split; [exact Hf|]. eauto. }
        exists now, resp, (S calls). split.
        { rewrite Hc. cbn [approvalCalls filter isCreateReview].
          rewrite approvalCalls_app. reflexivity. }
        destruct H as [(H1 & H2 & H3)|(H1 & H2 & H3)]; [left|right].
        -- split; [exact H1|]. split; [|lia].
           rewrite H2. do 2 f_equal. lia.
        -- split; [exact H1|]. split; [exact H2|lia].
    + discriminate.
    + destruct (ApprovalResult.Success _ || isPermanentError _) eqn:Hf;
        cbn [fst snd].
      * intros [= <-]. rewrite approvalResult_RetryAttempts. cbn [Z.eqb].
        eexists _, _, 1. split; [reflexivity|]. left.
        split; [exact Hf|].
        replace (attempt + 1 - 1) with attempt by lia.
        split; [reflexivity|lia].
      * intros Hout.
        apply IH in Hout as (now & resp & calls & Hc & H).
        2:{ intros l [= <-]. split; [exact Hf|]. eauto. }
        exists now, resp, (S calls). split.
        { rewrite Hc. rewrite approvalCalls_app. reflexivity. }
        destruct H as [(H1 & H2 & H3)|(H1 & H2 & H3)]; [left|right].
        -- split; [exact H1|]. split; [|lia].
           rewrite H2. do 2 f_equal. lia.
        -- split; [exact H1|]. split; [exact H2|lia].
Qed.

(** The waits of the loop from the iteration [attempt] on last
    [backoff attempt], [backoff (attempt + 1)], and so on. *)
Lemma retryLoop_delays :
  forall rem attempt last lastErr c,
    0 < attempt ->
    exists k,
      k <= rem /\
      delays (snd (runFrom w c (retryLoop req rem attempt last lastErr))) =
      map backoff (seq attempt k).
Proof.
  induction rem as [|rem IH]; intros attempt last lastErr c Ha.
  - exists 0. split; [lia|]. simpl. now destruct last.
  - retry_step rem attempt last lastErr c.
    + destruct (ApprovalResult.Success _ || isPermanentError _);
        cbn [fst snd].
      * exists 1. split; [lia|reflexivity].
      * match goal with
        | |- context [runFrom w ?c' (retryLoop req rem ?a ?l ?le)] =>
            destruct (IH a l le c') as (k & Hk & Hd); [lia|]
        end.
        exists (S k). split; [lia|].
        cbn [delays app attemptEvents]. rewrite Hd. reflexivity.
    + exists 1. split; [lia|reflexivity].
    + apply Nat.ltb_ge in Hattempt. lia.
Qed.
End RetryResults.

Lemma approvalResult_fields (req : ApprovalRequest.t) (now : Z)
      (resp : ReviewResponse) :
  let a := approvalResult req now resp in
  ApprovalResult.Request a = Some req /\
  (ApprovalResult.Success a = true -> ApprovalResult.Error a = EmptyString) /\
  (ApprovalResult.Success a = false ->
   ApprovalResult.Error a <> EmptyString /\ ApprovalResult.ReviewID a = 0%Z).
Proof.
  destruct resp as [[review response] [e|]]; unfold approvalResult.
  - destruct response as [r|].
    + destruct (StatusCode r =? 404)%Z;
        [|destruct (StatusCode r =? 403)%Z;
          [|destruct (StatusCode r =? 422)%Z]];
        cbn [ApprovalResult.Request ApprovalResult.Success
             ApprovalResult.Error ApprovalResult.ReviewID];
        (split; [reflexivity|]); (split; [discriminate|]);
        intros _; (split; [discriminate|reflexivity]).
    + cbn [ApprovalResult.Request ApprovalResult.Success
           ApprovalResult.Error ApprovalResult.ReviewID].
      split; [reflexivity|]. split; [discriminate|].
      intros _. split; [discriminate|reflexivity].
  - cbn [ApprovalResult.Request ApprovalResult.Success
         ApprovalResult.Error ApprovalResult.ReviewID].
    split; [reflexivity|]. split; [reflexivity|discriminate].
Qed.

(** X6.  A result that [ApprovePRWithRetry] returns is of the request
    it was called for, its count of retries is between 0 and 3, and its
    fields agree: a success has no error message and a count of at most
    2, a failure has an error message and no review. *)
Theorem retry_result_is_consistent
        (w : World) (c : Calls) (req : ApprovalRequest.t)
        (r : ApprovalResult.t) :
  fst (runFrom w c (ApprovePRWithRetry req)) = Returned (Some r, None) ->
  ApprovalResult.Request r = Some req /\
  (0 <= ApprovalResult.RetryAttempts r <= 3)%Z /\
  (ApprovalResult.Success r = true ->
   ApprovalResult.Error r = EmptyString /\
   (ApprovalResult.RetryAttempts r <= 2)%Z) /\
  (ApprovalResult.Success r = false ->
   ApprovalResult.Error r <> EmptyString /\
   ApprovalResult.ReviewID r = 0%Z).
Proof.
  intros Hout. unfold ApprovePRWithRetry in Hout.
  apply retryLoop_result in Hout as (now & resp & calls & _ & H);
    [|discriminate].
  destruct (approvalResult_fields req now resp) as (Hreq & Hok & Hfail).
  cbv zeta in *.
  destruct H as [(Hf & -> & Hc)|(Hf & -> & Hc)];
    cbn [setRetryAttempts ApprovalResult.Request ApprovalResult.Success
         ApprovalResult.Error ApprovalResult.ReviewID
         ApprovalResult.RetryAttempts].
  - unfold maxRetries in Hc.
    split; [exact Hreq|]. split; [lia|]. split.
    + intros Hs. split; [now apply Hok|lia].
    + exact Hfail.
  - unfold final in Hf. apply orb_false_iff in Hf as [Hs _].
    unfold maxRetries.
    split; [exact Hreq|]. split; [lia|]. split.
    + congruence.
    + exact Hfail.
Qed.

(** X7.  The count of retries a returned result carries, against the
    number of calls of [CreateReview] made: one less than the calls when
    the last attempt ended the loop (it succeeded or failed for good),
    and equal to the calls, three of them, when every attempt failed
    with a transient error. *)
Theorem retry_count_against_calls
        (w : World) (req : ApprovalRequest.t) (r : ApprovalResult.t) :
  outcome w (ApprovePRWithRetry req) = Returned (Some r, None) ->
  let calls :=
    Z.of_nat (List.length (approvalCalls (trace w (ApprovePRWithRetry req))))
  in
  if final r
  then ApprovalResult.RetryAttempts r = (calls - 1)%Z
  else ApprovalResult.RetryAttempts r = calls /\ calls = 3%Z.
Proof.
  unfold outcome, trace, run. intros Hout. unfold ApprovePRWithRetry in *.
  apply retryLoop_result in Hout as (now & resp & calls & Hcalls & H);
    [|discriminate].
  cbv zeta. rewrite <- Hcalls.
  destruct H as [(Hf & -> & Hc)|(Hf & -> & Hc)];
    change (final (setRetryAttempts (approvalResult req now resp) ?n))
      with (final (approvalResult req now resp));
    rewrite Hf; cbn [setRetryAttempts ApprovalResult.RetryAttempts].
  - lia.
  - rewrite Hc. split; reflexivity.
Qed.

(** X8.  The waits of [ApprovePRWithRetry] are at most two, the first
    of 2 seconds and the second of 4 seconds ([baseDelay] shifted by the
    index of the attempt, which is 1 for the first retry). *)
Theorem backoff_doubles_from_two_seconds
        (w : World) (c : Calls) (req : ApprovalRequest.t) :
  exists k,
    k <= 2 /\
    delays (snd (runFrom w c (ApprovePRWithRetry req))) =
    firstn k [(2 * baseDelay)%Z; (4 * baseDelay)%Z].
Proof.
  unfold ApprovePRWithRetry, maxRetries.
  rewrite runFrom_retryLoop_S. cbv zeta. cbn [Nat.ltb Nat.leb].
  rewrite runFrom_attempt. cbv zeta.
  destruct (ApprovalResult.Success _ || isPermanentError _); cbn [fst snd].
  - exists 0. split; [lia|reflexivity].
  - rewrite delays_app. cbn [delays attemptEvents app].
    match goal with
    | |- context [runFrom w ?c' (retryLoop req 2 1 ?l ?le)] =>
        destruct (retryLoop_delays w req 2 1 l le c') as (k & Hk & ->); [lia|]
    end.
    exists k. split; [exact Hk|].
    destruct k as [|[|[|k]]]; try reflexivity. lia.
Qed.

(** X9.  When the first [k] attempts fail with transient errors and the
    waits between them elapse, and the next attempt (the first, second
    or third) succeeds or fails for good, [ApprovePRWithRetry] returns
    the result of that attempt with [RetryAttempts = k], after [k + 1]
    calls of [CreateReview] and [k] waits. *)
Theorem retry_returns_first_final_attempt
        (w : World) (req : ApprovalRequest.t) (k : nat) :
  k < 3 ->
  (forall j, j < k ->
     final (approvalResult req (clock w j) (reviewResponses w j)) = false) ->
  (forall j, j < k -> selectOutcomes w j = TimerFired) ->
  let r := approvalResult req (clock w k) (reviewResponses w k) in
  final r = true ->
  outcome w (ApprovePRWithRetry req) =
  Returned (Some (setRetryAttempts r (Z.of_nat k)), None) /\
  List.length (approvalCalls (trace w (ApprovePRWithRetry req))) = S k /\
  delays (trace w (ApprovePRWithRetry req)) = map backoff (seq 1 k).
Proof.
  intros Hk Hfail Hwait r Hfinal. subst r.
  unfold outcome, trace, run, ApprovePRWithRetry, maxRetries.
  unfold final in Hfail, Hfinal.
  rewrite runFrom_retryLoop_S. cbv zeta. cbn [Nat.ltb Nat.leb].
  rewrite runFrom_attempt. cbv zeta.
  unfold attemptResult. cbn [nNow nReview noCalls].
  destruct k as [|k].
  { rewrite Hfinal, approvalResult_RetryAttempts. repeat split. }
  rewrite (Hfail 0) by lia.
  rewrite runFrom_retryLoop_S. cbv zeta. cbn [Nat.ltb Nat.leb].
  cbn [fold_left attemptEvents advance nNow nReview nSelect noCalls
       nGet nReaction].
  rewrite (Hwait 0) by lia. rewrite runFrom_attempt. cbv zeta.
  unfold attemptResult.
  cbn [fold_left attemptEvents advance nNow nReview nSelect noCalls
       nGet nReaction].
  destruct k as [|k].
  { rewrite Hfinal, approvalResult_RetryAttempts. repeat split. }
  rewrite (Hfail 1) by lia.
  rewrite runFrom_retryLoop_S. cbv zeta. cbn [Nat.ltb Nat.leb].
  cbn [fold_left attemptEvents advance nNow nReview nSelect noCalls
       nGet nReaction].
  rewrite (Hwait 1) by lia. rewrite runFrom_attempt. cbv zeta.
  unfold attemptResult.
  cbn [fold_left attemptEvents advance nNow nReview nSelect noCalls
       nGet nReaction].
  destruct k as [|k]; [|lia].
  rewrite Hfinal, approvalResult_RetryAttempts. repeat split.
Qed.

Lemma retry_returns_first_final_attempt_witness :
  outcome (world openPR [unavailable; unavailable; approved] [])
          (ApprovePRWithRetry exampleRequest) =
  Returned
    (Some {| ApprovalResult.Request := Some exampleRequest;
             ApprovalResult.Success := true;
             ApprovalResult.ReviewID := 77;
             ApprovalResult.Error := EmptyString;
             ApprovalResult.ProcessedAt := 2;
             ApprovalResult.RetryAttempts := 2 |}, None) /\
  List.length
    (approvalCalls
       (trace (world openPR [unavailable; unavailable; approved] [])
              (ApprovePRWithRetry exampleRequest))) = 3 /\
  delays (trace (world openPR [unavailable; unavailable; approved] [])
                (ApprovePRWithRetry exampleRequest)) =
  [2000000000%Z; 4000000000%Z].
Proof.
  apply (retry_returns_first_final_attempt
           (world openPR [unavailable; unavailable; approved] [])
           exampleRequest 2).
  - lia.
  - intros j Hj. destruct j as [|[|j]]; [reflexivity|reflexivity|lia].
  - intros j Hj. destruct j as [|[|j]]; reflexivity.
  - reflexivity.
Defined.

Lemma retry_result_is_consistent_witness :
  ApprovalResult.Request
    (setRetryAttempts (approvalResult exampleRequest 1 approved) 1)
  = Some exampleRequest /\
  (0 <= 1 <= 3)%Z /\
  (true = true -> EmptyString = EmptyString /\ (1 <= 2)%Z) /\
  (true = false -> EmptyString <> EmptyString /\ 77%Z = 0%Z).
Proof.
  apply (retry_result_is_consistent
           (world openPR [unavailable; approved] []) noCalls exampleRequest
           (setRetryAttempts (approvalResult exampleRequest 1 approved) 1)).
  reflexivity.
Defined.

Lemma retry_count_against_calls_witness :
  ApprovalResult.RetryAttempts
    (setRetryAttempts (approvalResult exampleRequest 1 approved) 1) =
  (Z.of_nat
     (List.length
        (approvalCalls
           (trace (world openPR [unavailable; approved] [])
                  (ApprovePRWithRetry exampleRequest)))) - 1)%Z.
Proof.
  apply (retry_count_against_calls
           (world openPR [unavailable; approved] []) exampleRequest
           (setRetryAttempts (approvalResult exampleRequest 1 approved) 1)).
  reflexivity.
Defined.

(** *** The handler of message events *)

Lemma Match_result (pm : PatternMatcher) (message : string) :
  Match pm message =
  if regexp_MatchString (pattern pm) message
  then (Some {| PatternMatch.Pattern := regexp_String (pattern pm);
                PatternMatch.MatchedText :=
                  regexp_FindString (pattern pm) message;
                PatternMatch.PRReferences :=
                  fst (ExtractPRReferences message);
                PatternMatch.SourceMessage := None |}, None)
  else (None, None).
Proof.
  unfold Match. destruct (regexp_MatchString (pattern pm) message);
    reflexivity.
Qed.

Lemma nonEmpty_eqb (s : string) :
  nonEmpty s = negb (String.eqb s EmptyString).
Proof. now destruct s. Qed.

(** The requests the loop of [processPRApprovals] hands over: one for
    each reference that is complete once the defaults are filled in, in
    the order of the references. *)
Lemma approveEach_targets (w : World) (sc : SlackClient)
      (source : SlackMessage.t) :
  forall refs c,
    map requestTarget
        (dispatched (snd (runFrom w c (approveEach sc source refs)))) =
    filter complete (map (withDefaults (config sc)) refs).
Proof.
  induction refs as [|prRef refs IH]; intros c; [reflexivity|].
  cbn [approveEach map filter]. unfold withDefaults at 1. cbn [complete].
  rewrite !nonEmpty_eqb, <- negb_orb.
  set (owner := if PRReference.Owner prRef =? EmptyString
                then DefaultOwner (config sc) else PRReference.Owner prRef).
  set (repo := if PRReference.Repository prRef =? EmptyString
               then DefaultRepo (config sc)
               else PRReference.Repository prRef).
  destruct ((owner =? EmptyString) || (repo =? EmptyString))%string;
    cbn [negb]; [apply IH|].
  cbn [bind runFrom].
  match goal with
  | |- context [runFrom w ?c' (approveEach sc source refs)] =>
      specialize (IH c');
      destruct (runFrom w c' (approveEach sc source refs)) as [out tr]
  end.
  cbn [snd dispatched map requestTarget ApprovalRequest.Owner
       ApprovalRequest.Repository ApprovalRequest.PRNumber] in *.
  now rewrite IH.
Qed.

(** The run of [handleMessageEvent]: nothing for an event that is not
    handled or whose text the pattern does not match; else the reaction
    [x] when the text holds no reference, and the reaction [eyes]
    followed by the loop over the references when it holds some. *)
Lemma run_handleMessageEvent (w : World) (sc : SlackClient)
      (event : MessageEvent.t) :
  let channel := MessageEvent.Channel event in
  let timestamp := MessageEvent.TimeStamp event in
  let refs := fst (ExtractPRReferences (MessageEvent.Text event)) in
  let eyes := EvAddReaction "eyes" channel timestamp (reactionErrors w 0) in
  run w (handleMessageEvent sc event) =
  if handled sc event
     && regexp_MatchString (pattern (matcher sc)) (MessageEvent.Text event)
  then
    match refs with
    | [] =>
        (Returned tt,
         [EvAddReaction "x" channel timestamp (reactionErrors w 0)])
    | _ :: _ =>
        (fst (runFrom w (advance noCalls eyes)
                      (approveEach sc (messageOf event) refs)),
         eyes :: snd (runFrom w (advance noCalls eyes)
                              (approveEach sc (messageOf event) refs)))
    end
  else (Returned tt, []).
Proof.
  intros channel timestamp refs eyes.
  unfold run, handleMessageEvent, handled.
  destruct (String.eqb (SlackChannelID (config sc)) EmptyString);
    cbn [negb andb orb];
    [|destruct (String.eqb (MessageEvent.Channel event)
                           (SlackChannelID (config sc)));
      cbn [negb andb orb]; [|reflexivity]];
    (destruct (String.eqb (MessageEvent.BotID event) EmptyString);
     cbn [negb andb]; [|reflexivity]);
    fold (messageOf event); unfold processMessage;
    rewrite Match_result; cbn [SlackMessage.Text messageOf];
    (destruct (regexp_MatchString (pattern (matcher sc))
                                  (MessageEvent.Text event));
     [|reflexivity]);
    cbn [PatternMatch.PRReferences PatternMatch.Pattern
         PatternMatch.MatchedText]; fold refs;
    (destruct refs as [|prRef refs']; [reflexivity|]);
    cbn [List.length Nat.ltb Nat.leb]; unfold processPRApprovals;
    cbn [PatternMatch.SourceMessage PatternMatch.PRReferences];
    rewrite runFrom_bind;
    cbn [addReaction runFrom fst snd fold_left app SlackMessage.Channel
         SlackMessage.Timestamp nReaction noCalls];
    reflexivity.
Qed.

(** The loop of [processPRApprovals] calls neither GitHub nor Slack, and
    every request it hands over carries the message it was found in. *)
Lemma approveEach_events (w : World) (sc : SlackClient)
      (source : SlackMessage.t) :
  forall refs c,
    approvalCalls (snd (runFrom w c (approveEach sc source refs))) = [] /\
    validationCalls (snd (runFrom w c (approveEach sc source refs))) = [] /\
    Forall (fun req =>
              ApprovalRequest.SourceMessage req = Some source /\
              ApprovalRequest.SourceChannel req = SlackMessage.Channel source /\
              ApprovalRequest.SourceUser req = SlackMessage.User source)
           (dispatched (snd (runFrom w c (approveEach sc source refs)))).
Proof.
  induction refs as [|prRef refs IH]; intros c; [simpl; auto|].
  cbn [approveEach].
  set (owner := if PRReference.Owner prRef =? EmptyString
                then DefaultOwner (config sc) else PRReference.Owner prRef).
  set (repo := if PRReference.Repository prRef =? EmptyString
               then DefaultRepo (config sc)
               else PRReference.Repository prRef).
  destruct ((owner =? EmptyString) || (repo =? EmptyString))%string;
    [apply IH|].
  cbn [bind runFrom].
  match goal with
  | |- context [runFrom w ?c' (approveEach sc source refs)] =>
      destruct (IH c') as (H1 & H2 & H3);
      destruct (runFrom w c' (approveEach sc source refs)) as [out tr]
  end.
  cbn [snd dispatched approvalCalls validationCalls filter isCreateReview
       isGet] in *.
  split; [exact H1|]. split; [exact H2|].
  constructor; [repeat split|exact H3].
Qed.

(** X10.  What [handleMessageEvent] does itself.  It returns in every
    case.  An event from another channel than the configured one, from
    a bot, or whose text the pattern does not match causes no call at
    all.  Every other event is answered with exactly one reaction on
    its own message: [x] when the text holds no reference, [eyes] when
    it holds one.  The handler itself never calls GitHub. *)
Theorem handler_reacts_once_to_processed_events
        (w : World) (sc : SlackClient) (event : MessageEvent.t) :
  let processed :=
    handled sc event
    && regexp_MatchString (pattern (matcher sc)) (MessageEvent.Text event) in
  let refs := fst (ExtractPRReferences (MessageEvent.Text event)) in
  let tr := trace w (handleMessageEvent sc event) in
  outcome w (handleMessageEvent sc event) = Returned tt /\
  (processed = false -> tr = []) /\
  (processed = true ->
   reactionSymbols tr =
   [(match refs with [] => "x" | _ :: _ => "eyes" end,
     MessageEvent.Channel event, MessageEvent.TimeStamp event)]) /\
  approvalCalls tr = [] /\ validationCalls tr = [].
Proof.
  intros processed refs tr. subst tr. unfold outcome, trace.
  rewrite run_handleMessageEvent. cbv zeta. fold processed. fold refs.
  destruct processed.
  2:{ repeat split; try reflexivity; discriminate. }
  destruct refs as [|prRef refs'].
  { repeat split; try reflexivity; discriminate. }
  match goal with
  | |- context [runFrom w ?c' (approveEach sc ?m ?l)] =>
      destruct (approveEach_run w sc m l c') as (Hout & Hre & _);
      destruct (approveEach_events w sc m l c') as (Ha & Hv & _);
      destruct (runFrom w c' (approveEach sc m l)) as [out tr]
  end.
  cbn [fst snd] in *.
  split; [exact Hout|]. split; [discriminate|].
  split; [intros _; cbn [reactionSymbols]; now rewrite Hre|].
  split; [exact Ha|exact Hv].
Qed.

Lemma withDefaults_complete (cfg : Configuration) (r : PRReference.t) :
  DefaultOwner cfg <> EmptyString -> DefaultRepo cfg <> EmptyString ->
  complete (withDefaults cfg r) = true.
Proof.
  intros Ho Hr. unfold complete, withDefaults.
  apply andb_true_iff. split; apply nonEmpty_true.
  - destruct (String.eqb_spec (PRReference.Owner r) EmptyString); auto.
  - destruct (String.eqb_spec (PRReference.Repository r) EmptyString); auto.
Qed.

Lemma filter_all {A : Type} (f : A -> bool) (l : list A) :
  (forall a, In a l -> f a = true) -> filter f l = l.
Proof.
  induction l as [|a l IH]; intros H; [reflexivity|]. simpl.
  rewrite (H a) by now left. rewrite IH; [reflexivity|].
  intros b Hb. apply H. now right.
Qed.

Lemma filter_none {A : Type} (f : A -> bool) (l : list A) :
  (forall a, In a l -> f a = false) -> filter f l = [].
Proof.
  induction l as [|a l IH]; intros H; [reflexivity|]. simpl.
  rewrite (H a) by now left. apply IH.
  intros b Hb. apply H. now right.
Qed.

(** The requests of a processed event. *)
Lemma handleMessageEvent_dispatched
      (w : World) (sc : SlackClient) (event : MessageEvent.t) :
  let processed :=
    handled sc event
    && regexp_MatchString (pattern (matcher sc)) (MessageEvent.Text event) in
  let refs := fst (ExtractPRReferences (MessageEvent.Text event)) in
  let requests := dispatched (trace w (handleMessageEvent sc event)) in
  map requestTarget requests =
  (if processed
   then filter complete (map (withDefaults (config sc)) refs)
   else []) /\
  Forall (fun req =>
            ApprovalRequest.SourceMessage req = Some (messageOf event) /\
            ApprovalRequest.SourceChannel req = MessageEvent.Channel event /\
            ApprovalRequest.SourceUser req = MessageEvent.User event)
         requests.
Proof.
  intros processed refs requests. subst requests. unfold trace.
  rewrite run_handleMessageEvent. cbv zeta. fold processed. fold refs.
  destruct processed; [|split; [reflexivity|constructor]].
  destruct refs as [|prRef refs'] eqn:Hrefs;
    [split; [reflexivity|constructor]|].
  rewrite <- Hrefs in *. clear Hrefs.
  match goal with
  | |- context [runFrom w ?c' (approveEach sc ?m ?l)] =>
      pose proof (approveEach_targets w sc m l c') as Ht;
      destruct (approveEach_events w sc m l c') as (_ & _ & Hsrc);
      destruct (runFrom w c' (approveEach sc m l)) as [out tr]
  end.
  cbn [fst snd dispatched] in *. split; [exact Ht|exact Hsrc].
Qed.

(** X11.  The approvals [handleMessageEvent] starts.  For a processed
    event, one request is handed to a goroutine for each extracted
    reference that has an owner and a repository once the defaults of
    the configuration are filled in, in the order of the references and
    with the number of the reference; every request carries the
    message, its channel and its user.  When both defaults are
    configured no reference is left out.  Other events start none. *)
Theorem dispatched_requests_follow_the_references
        (w : World) (sc : SlackClient) (event : MessageEvent.t) :
  let processed :=
    handled sc event
    && regexp_MatchString (pattern (matcher sc)) (MessageEvent.Text event) in
  let refs := fst (ExtractPRReferences (MessageEvent.Text event)) in
  let requests := dispatched (trace w (handleMessageEvent sc event)) in
  map requestTarget requests =
  (if processed
   then filter complete (map (withDefaults (config sc)) refs)
   else []) /\
  Forall (fun req =>
            ApprovalRequest.SourceMessage req = Some (messageOf event) /\
            ApprovalRequest.SourceChannel req = MessageEvent.Channel event /\
            ApprovalRequest.SourceUser req = MessageEvent.User event)
         requests /\
  (processed = true ->
   DefaultOwner (config sc) <> EmptyString ->
   DefaultRepo (config sc) <> EmptyString ->
   map ApprovalRequest.PRNumber requests = map PRReference.Number refs).
Proof.
  intros processed refs requests.
  destruct (handleMessageEvent_dispatched w sc event) as [Ht Hsrc].
  cbv zeta in Ht, Hsrc. fold processed refs requests in Ht, Hsrc.
  split; [exact Ht|]. split; [exact Hsrc|].
  intros Hp Ho Hr. rewrite Hp in Ht.
  rewrite filter_all in Ht.
  - transitivity (map (fun t : string * string * Z => snd t)
                      (map requestTarget requests)).
    + now rewrite map_map.
    + rewrite Ht, map_map. reflexivity.
  - intros t Hin. apply in_map_iff in Hin as (r & <- & _).
    now apply withDefaults_complete.
Qed.

Lemma urlReference_target (cfg : Configuration) (text : string)
      (r : PRReference.t) :
  In r (urlReferences text) ->
  withDefaults cfg r = referenceTarget r /\ complete (referenceTarget r) = true.
Proof.
  intros Hin.
  destruct (urlReferences_In text r Hin) as (_ & _ & _ & Ho & Hr & _).
  unfold withDefaults, referenceTarget, complete.
  destruct (String.eqb_spec (PRReference.Owner r) EmptyString);
    [contradiction|].
  destruct (String.eqb_spec (PRReference.Repository r) EmptyString);
    [contradiction|].
  split; [reflexivity|].
  apply andb_true_iff. now split; apply nonEmpty_true.
Qed.

(** The references that are complete without the defaults are the
    references of the URLs. *)
Lemma complete_without_defaults (cfg : Configuration) (text : string) :
  DefaultOwner cfg = EmptyString \/ DefaultRepo cfg = EmptyString ->
  filter complete
         (map (withDefaults cfg) (fst (ExtractPRReferences text))) =
  map referenceTarget (urlReferences text).
Proof.
  intros Hdef. rewrite ExtractPRReferences_merge. cbn [fst].
  rewrite map_app, filter_app.
  rewrite (filter_none complete (map (withDefaults cfg) (map bareReference _))).
  2:{ intros t Ht. apply in_map_iff in Ht as (r & <- & Hr).
      apply in_map_iff in Hr as (n & <- & _).
      unfold withDefaults, complete. cbn.
      destruct Hdef as [-> | ->]; [reflexivity|apply andb_false_r]. }
  rewrite app_nil_r.
  rewrite (map_ext_in (withDefaults cfg) referenceTarget).
  2:{ intros r Hr. now apply (urlReference_target cfg text). }
  apply filter_all. intros t Ht. apply in_map_iff in Ht as (r & <- & Hr).
  now apply (urlReference_target cfg text).
Qed.

(** When every reference is skipped the loop does nothing. *)
Lemma approveEach_skips (w : World) (sc : SlackClient)
      (source : SlackMessage.t) :
  forall refs c,
    filter complete (map (withDefaults (config sc)) refs) = [] ->
    runFrom w c (approveEach sc source refs) = (Returned tt, []).
Proof.
  induction refs as [|prRef refs IH]; intros c; [reflexivity|].
  cbn [approveEach map filter]. unfold withDefaults at 1. cbn [complete].
  rewrite !nonEmpty_eqb, <- negb_orb.
  set (owner := if PRReference.Owner prRef =? EmptyString
                then DefaultOwner (config sc) else PRReference.Owner prRef).
  set (repo := if PRReference.Repository prRef =? EmptyString
               then DefaultRepo (config sc)
               else PRReference.Repository prRef).
  destruct ((owner =? EmptyString) || (repo =? EmptyString))%string;
    cbn [negb]; [apply IH|discriminate].
Qed.

(** X12.  Bare references need the defaults.  When the default owner or
    the default repository is not configured, the approvals started for
    a processed event are those of the URLs of its text, each with the
    owner and the repository of its URL; a bare reference starts none.
    A message that holds bare references only is then answered with the
    reaction [eyes] and nothing else: no approval and no further
    reaction. *)
Theorem bare_references_need_the_defaults
        (w : World) (sc : SlackClient) (event : MessageEvent.t) :
  handled sc event = true ->
  regexp_MatchString (pattern (matcher sc)) (MessageEvent.Text event) = true ->
  DefaultOwner (config sc) = EmptyString \/
  DefaultRepo (config sc) = EmptyString ->
  map requestTarget (dispatched (trace w (handleMessageEvent sc event))) =
  map referenceTarget (urlReferences (MessageEvent.Text event)) /\
  (urlReferences (MessageEvent.Text event) = [] ->
   fst (ExtractPRReferences (MessageEvent.Text event)) <> [] ->
   trace w (handleMessageEvent sc event) =
   [EvAddReaction "eyes" (MessageEvent.Channel event)
      (MessageEvent.TimeStamp event) (reactionErrors w 0)]).
Proof.
  intros Hh Hm Hdef. split.
  - destruct (handleMessageEvent_dispatched w sc event) as [Ht _].
    cbv zeta in Ht. rewrite Hh, Hm in Ht. cbn [andb] in Ht.
    rewrite Ht. now apply complete_without_defaults.
  - intros Hurls Hrefs. unfold trace. rewrite run_handleMessageEvent.
    cbv zeta. rewrite Hh, Hm. cbn [andb].
    pose proof (complete_without_defaults (config sc)
                  (MessageEvent.Text event) Hdef) as Hc.
    rewrite Hurls in Hc. cbn [map] in Hc.
    destruct (fst (ExtractPRReferences (MessageEvent.Text event)))
      as [|prRef refs] eqn:E; [congruence|].
    rewrite approveEach_skips by exact Hc. reflexivity.
Qed.

Lemma bare_references_need_the_defaults_witness :
  map requestTarget
      (dispatched
         (trace (world openPR [] [])
            (handleMessageEvent exampleClient
               {| MessageEvent.Channel := "C012345";
                  MessageEvent.BotID := EmptyString;
                  MessageEvent.Text :=
                    "LGTM #7 and https://github.com/acme/widget/pull/42";
                  MessageEvent.User := "U012345";
                  MessageEvent.TimeStamp := "1700000000.000100";
                  MessageEvent.ThreadTimeStamp := EmptyString |}))) =
  [("acme", "widget", 42%Z)].
Proof.
  apply (bare_references_need_the_defaults
           (world openPR [] []) exampleClient
           {| MessageEvent.Channel := "C012345";
              MessageEvent.BotID := EmptyString;
              MessageEvent.Text :=
                "LGTM #7 and https://github.com/acme/widget/pull/42";
              MessageEvent.User := "U012345";
              MessageEvent.TimeStamp := "1700000000.000100";
              MessageEvent.ThreadTimeStamp := EmptyString |}).
  - reflexivity.
  - reflexivity.
  - left. reflexivity.
Defined.

(** X13.  From the message to the approval.  A processed event whose
    text holds the URL of a pull request at the start of a word starts
    an approval for the owner, the repository and the number of that
    URL, whatever the defaults are, and the request carries the
    message. *)
Theorem pull_request_url_starts_an_approval
        (w : World) (sc : SlackClient) (event : MessageEvent.t)
        (pre owner repo digits post : string) (n : Z) :
  handled sc event = true ->
  regexp_MatchString (pattern (matcher sc)) (MessageEvent.Text event) = true ->
  MessageEvent.Text event = pre ++ pullRequestURL owner repo digits ++ post ->
  atBoundary pre = true ->
  owner <> EmptyString -> forallb_string nameByte owner = true ->
  repo <> EmptyString -> forallb_string nameByte repo = true ->
  forallb_string isDigit digits = true ->
  startsWithDigit post = false ->
  strconv_Atoi digits = Some n ->
  exists req,
    In req (dispatched (trace w (handleMessageEvent sc event))) /\
    requestTarget req = (owner, repo, n) /\
    ApprovalRequest.SourceMessage req = Some (messageOf event).
Proof.
  intros Hh Hm Htext Hb Ho Howner Hr Hrepo Hdigits Hpost Hn.
  destruct (handleMessageEvent_dispatched w sc event) as [Ht Hsrc].
  cbv zeta in Ht, Hsrc. rewrite Hh, Hm in Ht. cbn [andb] in Ht.
  set (r := {| PRReference.Owner := owner;
               PRReference.Repository := repo;
               PRReference.Number := n;
               PRReference.URL := pullRequestURL owner repo digits |}).
  assert (Hurl : In r (urlReferences (MessageEvent.Text event))).
  { rewrite Htext. now apply pullRequestURL_reference. }
  assert (Hin : In (owner, repo, n)
                   (map requestTarget
                      (dispatched (trace w (handleMessageEvent sc event))))).
  { rewrite Ht. apply filter_In.
    destruct (urlReference_target (config sc) _ r Hurl) as [Hw Hc].
    split; [|exact Hc].
    apply in_map_iff. exists r. split; [exact Hw|].
    apply ExtractPRReferences_In. now left. }
  apply in_map_iff in Hin as (req & Hreq & Hin).
  exists req. split; [exact Hin|]. split; [exact Hreq|].
  rewrite Forall_forall in Hsrc. now apply Hsrc.
Qed.

Lemma pull_request_url_starts_an_approval_witness :
  exists req,
    In req (dispatched
              (trace (world openPR [] [])
                 (handleMessageEvent exampleClient
                    {| MessageEvent.Channel := "C012345";
                       MessageEvent.BotID := EmptyString;
                       MessageEvent.Text :=
                         "LGTM https://github.com/acme/widget/pull/42";
                       MessageEvent.User := "U012345";
                       MessageEvent.TimeStamp := "1700000000.000100";
                       MessageEvent.ThreadTimeStamp := EmptyString |}))) /\
    requestTarget req = ("acme", "widget", 42%Z) /\
    ApprovalRequest.SourceMessage req = Some exampleMessage.
Proof.
  apply (pull_request_url_starts_an_approval
           (world openPR [] []) exampleClient
           {| MessageEvent.Channel := "C012345";
              MessageEvent.BotID := EmptyString;
              MessageEvent.Text :=
                "LGTM https://github.com/acme/widget/pull/42";
              MessageEvent.User := "U012345";
              MessageEvent.TimeStamp := "1700000000.000100";
              MessageEvent.ThreadTimeStamp := EmptyString |}
           "LGTM " "acme" "widget" "42" EmptyString 42%Z).
  - reflexivity.
  - reflexivity.
  - reflexivity.
  - reflexivity.
  - discriminate.
  - reflexivity.
  - discriminate.
  - reflexivity.
  - reflexivity.
  - reflexivity.
  - reflexivity.
Defined.

(** *** The default pattern *)

Lemma findFirst_matchAll (message : string) :
  findFirst (Star (Cls notNewline)) message =
  Some (takeWhile notNewline message).
Proof.
  assert (H : matchAt (Star (Cls notNewline)) message =
              Some ([], dropWhile notNewline message)).
  { unfold matchAt. now rewrite exec_Star_Cls by (left; discriminate). }
  destruct message as [|c s]; cbn [findFirst]; rewrite H; cbn [snd];
    now rewrite consumed_dropWhile.
Qed.

(** X14.  The matcher of the empty pattern.  [NewPatternMatcher] turns
    the empty pattern into [.*]; the matcher it returns matches every
    message, the matched text being the first line of the message, and
    the references are those of the whole message.  So with the default
    pattern every handled message that holds no reference is answered
    with the reaction [x]. *)
Theorem default_pattern_matches_every_message
        (regexp_Compile : string -> Regexp + error) :
  regexp_Compile ".*" = inl (compiled ".*" (Star (Cls notNewline))) ->
  exists pm,
    NewPatternMatcher regexp_Compile EmptyString = (Some pm, None) /\
    (forall message,
        Match pm message =
        (Some {| PatternMatch.Pattern := ".*";
                 PatternMatch.MatchedText := takeWhile notNewline message;
                 PatternMatch.PRReferences :=
                   fst (ExtractPRReferences message);
                 PatternMatch.SourceMessage := None |}, None)) /\
    (forall w sc event,
        matcher sc = pm ->
        handled sc event = true ->
        fst (ExtractPRReferences (MessageEvent.Text event)) = [] ->
        trace w (handleMessageEvent sc event) =
        [EvAddReaction "x" (MessageEvent.Channel event)
           (MessageEvent.TimeStamp event) (reactionErrors w 0)]).
Proof.
  intros Hc. exists matchAll.
  assert (Hmatch : forall message,
    regexp_MatchString (pattern matchAll) message = true /\
    regexp_FindString (pattern matchAll) message =
    takeWhile notNewline message).
  { intros message.
    cbn [matchAll pattern compiled regexp_MatchString regexp_FindString].
    now rewrite findFirst_matchAll. }
  split; [|split].
  - unfold NewPatternMatcher. cbn [String.eqb]. now rewrite Hc.
  - intros message. rewrite Match_result.
    destruct (Hmatch message) as [-> ->]. reflexivity.
  - intros w sc event Hpm Hh Hrefs. unfold trace.
    rewrite run_handleMessageEvent. cbv zeta.
    rewrite Hh, Hpm, (proj1 (Hmatch _)), Hrefs. reflexivity.
Qed.

Lemma default_pattern_matches_every_message_witness :
  compileDefault ".*" = inl (compiled ".*" (Star (Cls notNewline))) /\
  exists pm,
    NewPatternMatcher compileDefault EmptyString = (Some pm, None) /\
    Match pm (SlackMessage.Text deployedMessage) =
    (Some {| PatternMatch.Pattern := ".*";
             PatternMatch.MatchedText := SlackMessage.Text deployedMessage;
             PatternMatch.PRReferences := [];
             PatternMatch.SourceMessage := None |}, None).
Proof.
  split; [reflexivity|].
  destruct (default_pattern_matches_every_message compileDefault eq_refl)
    as (pm & Hnew & Hmatch & _).
  exists pm. split; [exact Hnew|].
  exact (Hmatch (SlackMessage.Text deployedMessage)).
Defined.


(** *** The calls of [processApproval] *)

Section RetryCalls.
Variable w : World.
Variable req : ApprovalRequest.t.

Lemma attemptEvents_concerns (c : Calls) :
  Forall (concerns req) (attemptEvents w c req).
Proof. repeat constructor. Qed.

Lemma retryLoop_concerns :
  forall rem attempt last lastErr c,
    Forall (concerns req)
           (snd (runFrom w c (retryLoop req rem attempt last lastErr))).
Proof.
  induction rem as [|rem IH]; intros attempt last lastErr c.
  - simpl. destruct last; constructor.
  - rewrite (runFrom_retryLoop_S w req rem attempt last lastErr c).
    cbv zeta.
    destruct (Nat.ltb 0 attempt);
      [destruct (selectOutcomes w (nSelect c))|];
      try rewrite runFrom_attempt; cbv zeta;
      try destruct (ApprovalResult.Success _ || isPermanentError _);
      cbn [fst snd];
      repeat first [ apply attemptEvents_concerns
                   | apply IH
                   | apply Forall_nil
                   | apply Forall_app; split
                   | apply Forall_cons; [exact I|] ].
Qed.
End RetryCalls.

(** X15.  [processApproval] touches nothing but its request.  Every
    call of [PullRequests.Get] and of [PullRequests.CreateReview] it
    makes is for the owner, the repository and the number of the
    request, every review it submits is an APPROVE, every reaction it
    applies is on the channel and the message of the request, and it
    starts no goroutine. *)
Theorem processApproval_touches_only_its_request
        (w : World) (req : ApprovalRequest.t) :
  Forall (concerns req) (trace w (processApproval req)).
Proof.
  unfold trace. rewrite run_processApproval. cbv zeta.
  pose proof (retryLoop_concerns w req maxRetries 0 None None afterValidation)
    as Hretry.
  fold (ApprovePRWithRetry req) in Hretry.
  assert (Hget : concerns req
                   (EvGet (ApprovalRequest.Owner req)
                      (ApprovalRequest.Repository req)
                      (ApprovalRequest.PRNumber req) (getResponses w 0)))
    by reflexivity.
  destruct (validationError _ _ _ (getResponses w 0));
    [repeat constructor|].
  destruct (runFrom w afterValidation (ApprovePRWithRetry req))
    as [[[[r|] [e|]]|] tr];
    cbn [fst snd] in *;
    try (constructor; [exact Hget|exact Hretry]).
  destruct (ApprovalRequest.SourceMessage req) as [source|] eqn:Hsrc;
    cbn [snd]; (constructor; [exact Hget|]); [|exact Hretry].
  apply Forall_app. split; [exact Hretry|].
  constructor; [|constructor].
  cbn [concerns]. now rewrite Hsrc.
Qed.

(** *** The configuration *)

(** X16.  [validateConfiguration] accepts a configuration exactly when
    the GitHub token is not empty, the Slack tokens start with [xoxb-]
    and [xapp-], the message pattern is empty or compiles, and the log
    level in lower case is one of debug, info, warn, error.  The channel
    and the default owner and repository are not looked at.  An accepted
    configuration has a log level, and, [.*] being a pattern that
    compiles, [NewPatternMatcher] returns a matcher for its pattern. *)
Theorem valid_configuration_yields_a_matcher
        (regexp_Compile : string -> Regexp + error)
        (unicode_ToLower : string -> string) (cfg : Configuration) :
  (validateConfiguration regexp_Compile unicode_ToLower cfg = None <->
   GitHubToken cfg <> EmptyString /\
   strings_HasPrefix (SlackBotToken cfg) "xoxb-" = true /\
   strings_HasPrefix (SlackAppToken cfg) "xapp-" = true /\
   (MessagePattern cfg = EmptyString \/
    exists compiledPattern,
      regexp_Compile (MessagePattern cfg) = inl compiledPattern) /\
   mapIndex validLogLevels
            (strings_ToLowerAny unicode_ToLower (LogLevel cfg)) = true) /\
  (validateConfiguration regexp_Compile unicode_ToLower cfg = None ->
   LogLevel cfg <> EmptyString /\
   ((exists compiledPattern, regexp_Compile ".*" = inl compiledPattern) ->
    exists pm,
      NewPatternMatcher regexp_Compile (MessagePattern cfg) =
      (Some pm, None))).
Proof.
  assert (Hiff :
    validateConfiguration regexp_Compile unicode_ToLower cfg = None <->
    GitHubToken cfg <> EmptyString /\
    strings_HasPrefix (SlackBotToken cfg) "xoxb-" = true /\
    strings_HasPrefix (SlackAppToken cfg) "xapp-" = true /\
    (MessagePattern cfg = EmptyString \/
     exists compiledPattern,
       regexp_Compile (MessagePattern cfg) = inl compiledPattern) /\
    mapIndex validLogLevels
             (strings_ToLowerAny unicode_ToLower (LogLevel cfg)) = true).
  { unfold validateConfiguration.
    destruct (String.eqb_spec (GitHubToken cfg) EmptyString) as [Hg|Hg].
    { split; [discriminate|]. intros (H & _). contradiction. }
    destruct (String.eqb_spec (SlackBotToken cfg) EmptyString) as [Hb|Hb].
    { split; [discriminate|]. intros (_ & H & _). rewrite Hb in H.
      discriminate H. }
    destruct (String.eqb_spec (SlackAppToken cfg) EmptyString) as [Ha|Ha].
    { split; [discriminate|]. intros (_ & _ & H & _). rewrite Ha in H.
      discriminate H. }
    destruct (strings_HasPrefix (SlackBotToken cfg) "xoxb-"); cbn [negb].
    2:{ split; [discriminate|]. intros (_ & H & _). discriminate H. }
    destruct (strings_HasPrefix (SlackAppToken cfg) "xapp-"); cbn [negb].
    2:{ split; [discriminate|]. intros (_ & _ & H & _). discriminate H. }
    cbv zeta.
    destruct (String.eqb_spec (MessagePattern cfg) EmptyString) as [Hp|Hp];
      cbn [negb].
    - destruct (mapIndex validLogLevels _); cbn [negb].
      + split; [auto 6|reflexivity].
      + split; [discriminate|]. intros (_ & _ & _ & _ & H). discriminate H.
    - destruct (regexp_Compile (MessagePattern cfg)) as [re|err].
      + destruct (mapIndex validLogLevels _); cbn [negb].
        * split; [eauto 8|reflexivity].
        * split; [discriminate|]. intros (_ & _ & _ & _ & H).
          discriminate H.
      + split; [discriminate|].
        intros (_ & _ & _ & [H|(re & H)] & _); [contradiction|discriminate]. }
  split; [exact Hiff|].
  intros H. apply Hiff in H as (_ & _ & _ & Hp & Hl). split.
  - intros E. rewrite E in Hl. discriminate Hl.
  - intros (re & Hre). unfold NewPatternMatcher.
    destruct (String.eqb_spec (MessagePattern cfg) EmptyString) as [E|E].
    + rewrite Hre. eauto.
    + destruct Hp as [Hp|(re' & Hp)]; [contradiction|]. rewrite Hp. eauto.
Qed.

Lemma valid_configuration_yields_a_matcher_witness :
  validateConfiguration compileDefault keepText (config exampleClient) = None /\
  exists pm,
    NewPatternMatcher compileDefault (MessagePattern (config exampleClient)) =
    (Some pm, None).
Proof.
  split; [reflexivity|].
  destruct (valid_configuration_yields_a_matcher
              compileDefault keepText (config exampleClient))
    as [_ H].
  destruct (H eq_refl) as [_ Hm].
  exact (Hm (ex_intro _ (compiled ".*" (Star (Cls notNewline))) eq_refl)).
Defined.
